(** * Screenshot scraper of the Groningen rentals application

    A shallow embedding of [ScreenshotScraper] (the class that scrapes
    Pararius and Funda through one Playwright browser session) and the
    properties its specification states about it.

    Conventions of the embedding:
    - a JavaScript string is the list of its UTF-16 code units;
    - a JavaScript number is a double; every number the scraper handles has
      an integer value, so the model keeps the doubles that are integers
      (an integer rounded to 53 significant bits), the two infinities and
      [NaN], and rounds the way IEEE 754 does, to nearest, ties to even;
    - an awaited call of the browser library either returns or throws; what
      it does is read from a [World], the description of the two sites and
      of the machine during one run;
    - the scraper's code runs in a state-and-exception monad over the
      scraper's fields and the resources it holds. *)

From Stdlib Require Import String Ascii.
From Stdlib Require Import List Bool Arith ZArith NArith Lia.
From Stdlib Require Import Sorted Permutation.
From Stdlib Require Decimal DecimalN DecimalPos.
From Stdlib Require Floats.SpecFloat.
Import ListNotations.

(* ================================================================= *)
(** ** JavaScript strings *)

Module JS.

(** A string is the list of its UTF-16 code units. *)
Definition jsstring := list N.

(** An ASCII literal as a JavaScript string. *)
Fixpoint lit (s : string) : jsstring :=
  match s with
  | EmptyString => []
  | String c s' => N_of_ascii c :: lit s'
  end.

Definition euro : N := 8364.    (* U+20AC, the euro sign *)
Definition sup2 : N := 178.     (* U+00B2, superscript two *)
Definition comma : N := 44.
Definition dot : N := 46.
Definition dash : N := 45.
Definition lparen : N := 40.
Definition rparen : N := 41.

(** [\d]: the ten ASCII digits. *)
Definition is_digit (c : N) : bool := ((48 <=? c) && (c <=? 57))%N.

(** [\s], and what [trim] strips: WhiteSpace and LineTerminator. *)
Definition is_space (c : N) : bool :=
  ((9 <=? c) && (c <=? 13) || (c =? 32) || (c =? 160) || (c =? 5760)
   || (8192 <=? c) && (c <=? 8202) || (c =? 8232) || (c =? 8233)
   || (c =? 8239) || (c =? 8287) || (c =? 12288) || (c =? 65279))%N.

Fixpoint dropWhile (p : N -> bool) (s : jsstring) : jsstring :=
  match s with
  | [] => []
  | c :: s' => if p c then dropWhile p s' else s
  end.

(** [String.prototype.trim]. *)
Definition trim (s : jsstring) : jsstring :=
  rev (dropWhile is_space (rev (dropWhile is_space s))).

(** [s.startsWith(p)]. *)
Fixpoint startsWith (p s : jsstring) : bool :=
  match p, s with
  | [], _ => true
  | _ :: _, [] => false
  | a :: p', b :: s' => (a =? b)%N && startsWith p' s'
  end.

(** [s.replace(c, '')] for a pattern of one code unit: the first occurrence
    of [c] is removed, the rest of the string is kept. *)
Fixpoint replace1 (c : N) (s : jsstring) : jsstring :=
  match s with
  | [] => []
  | x :: s' => if (x =? c)%N then s' else x :: replace1 c s'
  end.

(** [s.split(c)] for a separator of one code unit. *)
Fixpoint split (c : N) (s : jsstring) : list jsstring :=
  match s with
  | [] => [[]]
  | x :: s' =>
      if (x =? c)%N then [] :: split c s'
      else match split c s' with
           | [] => [[x]]
           | w :: ws => (x :: w) :: ws
           end
  end.

(** *** Numbers

    The doubles the scraper meets: those whose value is an integer, the
    infinities and [NaN].  [Int z] stands for the double of value [z]; the
    two zeros are not told apart (nothing in the scraper does). *)

Inductive number : Type :=
| Int (z : Z)
| Inf (negative : bool)
| NaN.

(** The integer [z] rounded to 53 significant bits, to nearest, ties to
    even: the value of the double nearest to [z], were there no largest
    double. *)
Definition round53 (z : Z) : Z :=
  let n := Z.abs z in
  if (n <? 2 ^ 53)%Z then z
  else
    let e := (Z.log2 n - 52)%Z in
    let q := (n / 2 ^ e)%Z in
    let r := (n mod 2 ^ e)%Z in
    let half := (2 ^ (e - 1))%Z in
    let q' :=
      if (half <? r)%Z || ((r =? half)%Z && Z.odd q) then (q + 1)%Z else q in
    (Z.sgn z * (q' * 2 ^ e))%Z.

(** The Number value for the integer [z]: the nearest double, an infinity
    from 2^1024 on. *)
Definition toNumber (z : Z) : number :=
  let m := round53 z in
  if (2 ^ 1024 <=? Z.abs m)%Z then Inf (z <? 0)%Z else Int m.

(** The same by the Standard Library's specification of IEEE 754: [z]
    normalised to binary64, 53 bits of precision and exponents up to 1024,
    rounding to nearest, ties to even. *)
Definition ieee (z : Z) : number :=
  match SpecFloat.binary_normalize 53 1024 z 0 false with
  | SpecFloat.S754_zero _ => Int 0
  | SpecFloat.S754_infinity negative => Inf negative
  | SpecFloat.S754_nan => NaN
  | SpecFloat.S754_finite negative m e =>
      Int ((if negative then -1 else 1) * Z.shiftl (Z.pos m) e)
  end.

(** The Number value for a natural number: a double that is a natural
    number, or [Infinity]. *)
Definition natural (x : number) : Prop :=
  exists v, (0 <= v)%Z /\ x = toNumber v.

Definition num_gt (a b : number) : bool :=
  match a, b with
  | Int x, Int y => (y <? x)%Z
  | Inf false, Int _ => true
  | Int _, Inf true => true
  | Inf false, Inf true => true
  | _, _ => false
  end.

Definition num_le (a b : number) : bool :=
  match a, b with
  | Int x, Int y => (x <=? y)%Z
  | Int _, Inf false => true
  | Inf true, Int _ => true
  | Inf s, Inf s' => s || negb s'
  | _, _ => false
  end.

(** [a === b] on numbers. *)
Definition num_eq (a b : number) : bool :=
  match a, b with
  | Int x, Int y => (x =? y)%Z
  | Inf s, Inf s' => Bool.eqb s s'
  | _, _ => false
  end.

Definition num_sub (a b : number) : number :=
  match a, b with
  | Int x, Int y => toNumber (x - y)
  | Int _, Inf s => Inf (negb s)
  | Inf s, Int _ => Inf s
  | Inf s, Inf s' => if Bool.eqb s s' then NaN else Inf s
  | _, _ => NaN
  end.

Definition num_mul (a b : number) : number :=
  match a, b with
  | Int x, Int y => toNumber (x * y)
  | Inf s, Int y | Int y, Inf s =>
      if (y =? 0)%Z then NaN else Inf (xorb s (y <? 0)%Z)
  | Inf s, Inf s' => Inf (xorb s s')
  | _, _ => NaN
  end.

(** Decimal digits of a natural number, most significant first. *)
Fixpoint uint_units (d : Decimal.uint) : jsstring :=
  match d with
  | Decimal.Nil => []
  | Decimal.D0 d' => 48%N :: uint_units d'
  | Decimal.D1 d' => 49%N :: uint_units d'
  | Decimal.D2 d' => 50%N :: uint_units d'
  | Decimal.D3 d' => 51%N :: uint_units d'
  | Decimal.D4 d' => 52%N :: uint_units d'
  | Decimal.D5 d' => 53%N :: uint_units d'
  | Decimal.D6 d' => 54%N :: uint_units d'
  | Decimal.D7 d' => 55%N :: uint_units d'
  | Decimal.D8 d' => 56%N :: uint_units d'
  | Decimal.D9 d' => 57%N :: uint_units d'
  end.

Definition N_toString (n : N) : jsstring := uint_units (N.to_uint n).

(** [String(z)] of an integer, as a template literal inserts it. *)
Definition Z_toString (z : Z) : jsstring :=
  match z with
  | Zneg p => dash :: N_toString (Npos p)
  | _ => N_toString (Z.to_N z)
  end.

(** What a template literal inserts for a value that may be [null]. *)
Definition show (o : option jsstring) : jsstring :=
  match o with
  | Some s => s
  | None => lit "null"
  end.

(** Value of a run of decimal digits, read left to right. *)
Definition digit_value (c : N) : Z := Z.of_N c - 48.

Definition decimal_value (ds : jsstring) : Z :=
  fold_left (fun acc c => 10 * acc + digit_value c)%Z ds 0%Z.

Fixpoint takeWhile (p : N -> bool) (s : jsstring) : jsstring :=
  match s with
  | [] => []
  | c :: s' => if p c then c :: takeWhile p s' else []
  end.

Definition is_hex (c : N) : bool :=
  (is_digit c || (65 <=? c) && (c <=? 70) || (97 <=? c) && (c <=? 102))%N.

Definition hex_digit_value (c : N) : Z :=
  if is_digit c then Z.of_N c - 48
  else if (c <=? 70)%N then Z.of_N c - 55
  else Z.of_N c - 87.

Definition hex_value (ds : jsstring) : Z :=
  fold_left (fun acc c => 16 * acc + hex_digit_value c)%Z ds 0%Z.

(** The digits of [Number.parseInt(s)] once white space and sign are gone:
    radix 16 after a [0x] prefix, radix 10 otherwise; no value without a
    digit. *)
Definition parseInt_decimal (s : jsstring) : option Z :=
  match takeWhile is_digit s with
  | [] => None
  | ds => Some (decimal_value ds)
  end.

Definition parseInt_unsigned (s : jsstring) : option Z :=
  match s with
  | c :: x :: s' =>
      if ((c =? 48) && ((x =? 120) || (x =? 88)))%N then
        match takeWhile is_hex s' with
        | [] => None
        | ds => Some (hex_value ds)
        end
      else parseInt_decimal s
  | _ => parseInt_decimal s
  end.

(** [Number.parseInt(s)] with no radix argument: the Number value for the
    integer the digits write (correctly rounded, as V8 computes it; the
    language lets an implementation read the digits after the twentieth
    as zeros). *)
Definition parseInt (s : jsstring) : number :=
  let s1 := dropWhile is_space s in
  let '(neg, s2) :=
    match s1 with
    | c :: r =>
        if (c =? 45)%N then (true, r)
        else if (c =? 43)%N then (false, r)
        else (false, s1)
    | [] => (false, s1)
    end in
  match parseInt_unsigned s2 with
  | Some v => toNumber (if neg then - v else v)
  | None => NaN
  end.

(** *** Regular expressions

    The fragment the scraper's patterns are written in: literals, character
    classes, the empty pattern, sequence, greedy [?], greedy [*] and [+] on a class.  A pattern
    is matched by backtracking; [run r s] lists, in the order the
    backtracking matcher tries them, the remainders of [s] after a match of
    [r] at its start. *)

Inductive regex : Type :=
| Eps
| Chr (c : N)
| Class (p : N -> bool)
| Seq (r1 r2 : regex)
| Opt (r : regex)
| Star (p : N -> bool)
| Plus (p : N -> bool).

Fixpoint run_star (p : N -> bool) (s : jsstring) : list jsstring :=
  match s with
  | [] => [[]]
  | c :: s' => if p c then run_star p s' ++ [s] else [s]
  end.

Fixpoint run (r : regex) (s : jsstring) : list jsstring :=
  match r with
  | Eps => [s]
  | Chr c =>
      match s with
      | x :: s' => if (x =? c)%N then [s'] else []
      | [] => []
      end
  | Class p =>
      match s with
      | x :: s' => if p x then [s'] else []
      | [] => []
      end
  | Seq r1 r2 => flat_map (run r2) (run r1 s)
  | Opt r1 => run r1 s ++ [s]
  | Star p => run_star p s
  | Plus p =>
      match s with
      | x :: s' => if p x then run_star p s' else []
      | [] => []
      end
  end.

(** A pattern [/lead(group)/]: some prefix, then the one capturing group,
    which ends the pattern. *)
Record pattern : Type := Pattern { lead : regex; group : regex }.

(** The part of [s] consumed when [rest] is what remains. *)
Definition consumed (s rest : jsstring) : jsstring :=
  firstn (length s - length rest) s.

(** The captured group of the first successful match starting at the
    beginning of [s]. *)
Definition match_here (pt : pattern) (s : jsstring) : option jsstring :=
  hd_error
    (flat_map (fun s1 => map (consumed s1) (run (group pt) s1))
              (run (lead pt) s)).

(** [s.match(pt)] for a pattern without the [g] flag, reduced to the element
    [1] of the result (the captured group); [None] is [null].  The leftmost
    starting position that matches wins. *)
Fixpoint match_group (pt : pattern) (s : jsstring) : option jsstring :=
  match match_here pt s with
  | Some g => Some g
  | None =>
      match s with
      | [] => None
      | _ :: s' => match_group pt s'
      end
  end.

(** *** Vocabulary of the statements *)

Definition all_digits (s : jsstring) : Prop :=
  Forall (fun c => is_digit c = true) s.

Definition no_digit (s : jsstring) : Prop :=
  Forall (fun c => is_digit c = false) s.

(** The strings a regular expression matches in full. *)
Fixpoint matches (r : regex) (u : jsstring) : Prop :=
  match r with
  | Eps => u = []
  | Chr c => u = [c]
  | Class p => exists x, u = [x] /\ p x = true
  | Seq r1 r2 => exists u1 u2, u = u1 ++ u2 /\ matches r1 u1 /\ matches r2 u2
  | Opt r1 => u = [] \/ matches r1 u
  | Star p => Forall (fun c => p c = true) u
  | Plus p => u <> [] /\ Forall (fun c => p c = true) u
  end.

End JS.

(* ================================================================= *)
(** ** The outside world and the scraper's state *)

Module Scraper.
Import JS.

(** What an awaited call does. *)
Inductive outcome (A : Type) : Type :=
| Returns (a : A)
| Throws.
Arguments Returns {A} a.
Arguments Throws {A}.

(** [element.$(selector)]: throws, finds nothing ([null]), or a handle. *)
Definition query (H : Type) : Type := outcome (option H).

(** A handle read for text ([textContent()], or [getAttribute('href')] for
    the link): the call throws, or gives [null] or a string. *)
Definition text := outcome (option jsstring).

(** One listing element of a results page: what each selector finds in it,
    whether a screenshot of its image can be taken, and whether the pause
    after it ([page.waitForTimeout(500)]) goes through. *)
Record Element : Type := {
  q_title : query text;
  q_price : query text;
  q_location : query text;
  q_size : query text;
  q_rooms : query text;
  q_link : query text;
  q_image : query (outcome unit);
  pause : outcome unit
}.

(** One site during the run: what each call on its page does.  The
    outcome of [setUserAgent] is left to the run, like the others; the pages
    of Playwright have no method of that name, which [Vocabulary.playwright]
    says of a run. *)
Record Site : Type := {
  newPage : outcome unit;
  setViewportSize : outcome unit;
  setUserAgent : outcome unit;
  goto : outcome unit;
  click : outcome unit;
  waitForSelector : outcome unit;
  listing : outcome (list Element);        (* [page.$$(selector)] *)
  access : outcome unit;                   (* [fs.access(dirPath)] *)
  mkdir : outcome unit                     (* [fs.mkdir(dirPath, ...)] *)
}.

(** One run.  [clock k] is the [k]-th value [Date.now()] gives; [random k]
    is the [k]-th value of [Math.random()], as the numerator of a fraction
    over 2^53 (the doubles V8 draws are such fractions).  Closing a page or
    the browser does not throw (Playwright's [close] resolves also when the
    target is already gone). *)
Record World : Type := {
  launch : outcome unit;                   (* [chromium.launch(...)] *)
  pararius : Site;
  funda : Site;
  clock : nat -> Z;
  random : nat -> N
}.

(** The record the scraper produces ([PropertyWithScreenshot]). *)
Record Property : Type := {
  id : jsstring;
  title : jsstring;
  price : number;
  location : jsstring;
  size : jsstring;
  rooms : number;
  source : jsstring;
  sourceUrl : jsstring;
  listedDays : number;
  image : jsstring;
  images : list jsstring;
  description : jsstring;
  type : jsstring;
  available : jsstring;
  realEstateAgent : jsstring;
  neighborhood : jsstring;
  buildYear : jsstring;
  interior : jsstring;
  fullDescription : jsstring;
  features : list jsstring;
  energyLabel : jsstring;
  deposit : number;
  screenshotPath : jsstring
}.

(** The scraper and the resources it holds.  Browsers are numbered in the
    order they are launched.  [properties] is the array local to the
    per-source scrape that is running. *)
Record State : Type := {
  browser : option nat;                    (* [this.browser] *)
  launched : nat;                          (* browsers launched so far *)
  closedBrowsers : list nat;               (* browsers closed so far *)
  openPages : nat;                         (* pages open *)
  ticks : nat;                             (* [Date.now()] calls so far *)
  draws : nat;                             (* [Math.random()] calls so far *)
  properties : list Property
}.

(** [new ScreenshotScraper()]. *)
Definition initial : State :=
  {| browser := None; launched := 0; closedBrowsers := []; openPages := 0;
     ticks := 0; draws := 0; properties := [] |}.

Definition set_browser (b : option nat) (s : State) : State :=
  {| browser := b; launched := launched s;
     closedBrowsers := closedBrowsers s; openPages := openPages s;
     ticks := ticks s; draws := draws s; properties := properties s |}.

Definition set_launched (n : nat) (s : State) : State :=
  {| browser := browser s; launched := n;
     closedBrowsers := closedBrowsers s; openPages := openPages s;
     ticks := ticks s; draws := draws s; properties := properties s |}.

Definition set_closedBrowsers (l : list nat) (s : State) : State :=
  {| browser := browser s; launched := launched s;
     closedBrowsers := l; openPages := openPages s;
     ticks := ticks s; draws := draws s; properties := properties s |}.

Definition set_openPages (n : nat) (s : State) : State :=
  {| browser := browser s; launched := launched s;
     closedBrowsers := closedBrowsers s; openPages := n;
     ticks := ticks s; draws := draws s; properties := properties s |}.

Definition set_ticks (n : nat) (s : State) : State :=
  {| browser := browser s; launched := launched s;
     closedBrowsers := closedBrowsers s; openPages := openPages s;
     ticks := n; draws := draws s; properties := properties s |}.

Definition set_draws (n : nat) (s : State) : State :=
  {| browser := browser s; launched := launched s;
     closedBrowsers := closedBrowsers s; openPages := openPages s;
     ticks := ticks s; draws := n; properties := properties s |}.

Definition set_properties (l : list Property) (s : State) : State :=
  {| browser := browser s; launched := launched s;
     closedBrowsers := closedBrowsers s; openPages := openPages s;
     ticks := ticks s; draws := draws s; properties := l |}.

(** *** The monad: state that survives exceptions *)

Definition M (A : Type) : Type := State -> outcome A * State.

Definition ret {A} (a : A) : M A := fun s => (Returns a, s).

Definition throw {A} : M A := fun s => (Throws, s).

Definition bind {A B} (m : M A) (k : A -> M B) : M B :=
  fun s =>
    match m s with
    | (Returns a, s1) => k a s1
    | (Throws, s1) => (Throws, s1)
    end.

Declare Scope scraper_scope.
Delimit Scope scraper_scope with scraper.
Notation "x <- m ;; k" := (bind m (fun x => k))
  (at level 100, m at next level, right associativity) : scraper_scope.
Notation "m ;;; k" := (bind m (fun _ => k))
  (at level 100, right associativity) : scraper_scope.
Open Scope scraper_scope.

(** [try { m } catch { h }]. *)
Definition try_catch {A} (m : M A) (h : M A) : M A :=
  fun s =>
    match m s with
    | (Returns a, s1) => (Returns a, s1)
    | (Throws, s1) => h s1
    end.

(** [try { m } finally { f }]: [f] runs on every exit of [m]; the outcome is
    that of [m] unless [f] throws. *)
Definition try_finally {A} (m : M A) (f : M unit) : M A :=
  fun s =>
    let (r, s1) := m s in
    match f s1 with
    | (Returns _, s2) => (r, s2)
    | (Throws, s2) => (Throws, s2)
    end.

(** [await] of a call whose outcome the world fixes. *)
Definition await {A} (o : outcome A) : M A := fun s => (o, s).

(** [for (let i = from; i < from + n; i++) body(i)]. *)
Fixpoint for_loop (n from : nat) (body : nat -> M unit) : M unit :=
  match n with
  | 0 => ret tt
  | S n' => body from ;;; for_loop n' (S from) body
  end.

(** *** Pure parts of the extraction *)

(** [x || d] for a string that may be [null] or [undefined]. *)
Definition orElse (x : option jsstring) (d : jsstring) : jsstring :=
  match x with
  | Some (c :: s) => c :: s
  | _ => d
  end.

(** [Math.floor(Math.random() * n)] for a draw [r] of [Math.random()], the
    double [r / 2^53] (reduced below 1).  The product of the two doubles is
    [r * n / 2^53] rounded to 53 significant bits; [Math.floor] is taken of
    the rounded product. *)
Definition random_floor (r : N) (n : Z) : Z :=
  (round53 (Z.of_N (r mod 2 ^ 53) * n) / 2 ^ 53)%Z.

(** [/€?(\d+(?:,\d+)?)/] *)
Definition parariusPriceRe : pattern :=
  Pattern (Opt (Chr euro))
          (Seq (Plus is_digit) (Opt (Seq (Chr comma) (Plus is_digit)))).

(** [/€?\s*(\d+(?:\.\d+)?)/] *)
Definition fundaPriceRe : pattern :=
  Pattern (Seq (Opt (Chr euro)) (Star is_space))
          (Seq (Plus is_digit) (Opt (Seq (Chr dot) (Plus is_digit)))).

(** [/(\d+)/] *)
Definition roomsRe : pattern := Pattern Eps (Plus is_digit).

(** [priceText?.match(re)], then
    [priceMatch ? Number.parseInt(priceMatch[1].replace(sep, '')) : 0]. *)
Definition parsePrice (re : pattern) (sep : N) (priceText : option jsstring)
  : number :=
  match priceText with
  | None => Int 0
  | Some t =>
      match match_group re t with
      | Some g => parseInt (replace1 sep g)
      | None => Int 0
      end
  end.

Definition parariusPrice : option jsstring -> number :=
  parsePrice parariusPriceRe comma.

Definition fundaPrice : option jsstring -> number :=
  parsePrice fundaPriceRe dot.

(** [roomsText?.match(/(\d+)/)], then
    [roomsMatch ? Number.parseInt(roomsMatch[1]) : 2]. *)
Definition parseRooms (roomsText : option jsstring) : number :=
  match roomsText with
  | None => Int 2
  | Some t =>
      match match_group roomsRe t with
      | Some g => parseInt g
      | None => Int 2
      end
  end.

(** [rooms === 1 ? 'Studio' : rooms <= 2 ? 'Apartment' : 'House'] *)
Definition typeOf (rooms : number) : jsstring :=
  if num_eq rooms (Int 1) then lit "Studio"
  else if num_le rooms (Int 2) then lit "Apartment"
  else lit "House".

(** [price > 0 ? price * 2 : 1000] *)
Definition depositOf (price : number) : number :=
  if num_gt price (Int 0) then num_mul price (Int 2) else Int 1000.

(** [propertyUrl?.startsWith('http') ? propertyUrl : `${base}${propertyUrl}`] *)
Definition resolveUrl (base : jsstring) (propertyUrl : option jsstring)
  : jsstring :=
  match propertyUrl with
  | Some u => if startsWith (lit "http") u then u else base ++ u
  | None => base ++ show None
  end.

(** [screenshotPath ? [screenshotPath] : []] *)
Definition imagesOf (screenshotPath : jsstring) : list jsstring :=
  match screenshotPath with
  | [] => []
  | _ :: _ => [screenshotPath]
  end.

(** [(1950 + Math.floor(Math.random() * 70)).toString()] *)
Definition buildYearOf (r : N) : jsstring :=
  Z_toString (1950 + random_floor r 70).

(** [choices[Math.floor(Math.random() * 3)]] *)
Definition pick (choices : list jsstring) (r : N) : jsstring :=
  nth (Z.to_nat (random_floor r 3)) choices (lit "undefined").

Definition parariusId (now : Z) (i : nat) : jsstring :=
  lit "pararius-screenshot-" ++ Z_toString now ++ [dash]
    ++ N_toString (N.of_nat i).

Definition fundaId (now : Z) (i : nat) : jsstring :=
  lit "funda-screenshot-" ++ Z_toString now ++ [dash]
    ++ N_toString (N.of_nat i).

(** The object literal [property] of [scrapeParariusWithScreenshots], from
    the values in scope where it is built. *)
Definition parariusProperty (i : nat)
    (title priceText location sizeText roomsText propertyUrl : option jsstring)
    (screenshotPath : jsstring) (now : Z) (r1 r2 r3 r4 : N) : Property :=
  let price := parariusPrice priceText in
  let rooms := parseRooms roomsText in
  {| id := parariusId now i;
     title := orElse (option_map trim title)
                (lit "Pararius Property " ++ N_toString (N.of_nat (i + 1)));
     price := price;
     location := orElse (option_map trim location) (lit "Groningen");
     size := orElse (option_map trim sizeText) (lit "50m" ++ [sup2]);
     rooms := rooms;
     source := lit "Pararius";
     sourceUrl := resolveUrl (lit "https://pararius.com") propertyUrl;
     listedDays := Int (random_floor r1 3);
     image := screenshotPath;
     images := imagesOf screenshotPath;
     description :=
       show title ++ lit " in " ++ show location
         ++ lit ". Professional real estate listing from Pararius.";
     type := typeOf rooms;
     available := lit "Available now";
     realEstateAgent := lit "Pararius Partner";
     neighborhood :=
       orElse
         (match location with
          | Some l => option_map (replace1 rparen) (nth_error (split lparen l) 1)
          | None => None
          end)
         (lit "Centrum");
     buildYear := buildYearOf r2;
     interior := pick [lit "Furnished"; lit "Upholstered"; lit "Shell"] r3;
     fullDescription :=
       lit "Beautiful property in " ++ show location
         ++ lit ". Contact agent for viewing and more details.";
     features := [lit "Kitchen"; lit "Bathroom"; lit "Internet"];
     energyLabel := pick [lit "A"; lit "B"; lit "C"] r4;
     deposit := depositOf price;
     screenshotPath := screenshotPath |}.

(** The object literal [property] of [scrapeFundaWithScreenshots]. *)
Definition fundaProperty (i : nat)
    (title priceText location sizeText roomsText propertyUrl : option jsstring)
    (screenshotPath : jsstring) (now : Z) (r1 r2 r3 r4 : N) : Property :=
  let price := fundaPrice priceText in
  let rooms := parseRooms roomsText in
  {| id := fundaId now i;
     title := orElse (option_map trim title)
                (lit "Funda Property " ++ N_toString (N.of_nat (i + 1)));
     price := price;
     location :=
       lit "Groningen "
         ++ match location with
            | Some l => trim l
            | None => lit "undefined"
            end;
     size := orElse (option_map trim sizeText) (lit "50m" ++ [sup2]);
     rooms := rooms;
     source := lit "Funda";
     sourceUrl := resolveUrl (lit "https://www.funda.nl") propertyUrl;
     listedDays := Int (random_floor r1 4);
     image := screenshotPath;
     images := imagesOf screenshotPath;
     description :=
       show title ++ lit " in " ++ show location
         ++ lit ". Quality listing from Funda.";
     type := typeOf rooms;
     available := lit "Available now";
     realEstateAgent := lit "Funda Partner";
     neighborhood := orElse (option_map trim location) (lit "Centrum");
     buildYear := buildYearOf r2;
     interior := pick [lit "Furnished"; lit "Upholstered"; lit "Shell"] r3;
     fullDescription :=
       lit "Quality property in " ++ show location
         ++ lit ". Professional listing with full details.";
     features := [lit "Kitchen"; lit "Bathroom"; lit "Internet"];
     energyLabel := pick [lit "A"; lit "B"; lit "C"] r4;
     deposit := depositOf price;
     screenshotPath := screenshotPath |}.

(** [Array.prototype.sort(cmp)].  The language fixes no algorithm; it asks
    for a stable sort, which orders the array whenever [cmp] is a consistent
    comparator.  Insertion from the right is such a sort: an element moves
    past those that [cmp] puts strictly before it. *)
Fixpoint insert {A} (cmp : A -> A -> number) (x : A) (l : list A) : list A :=
  match l with
  | [] => [x]
  | y :: l' =>
      if num_gt (cmp x y) (Int 0) then y :: insert cmp x l' else x :: l
  end.

Definition sort {A} (cmp : A -> A -> number) (l : list A) : list A :=
  fold_right (insert cmp) [] l.

(** [(a, b) => a.listedDays - b.listedDays] *)
Definition byListedDays (a b : Property) : number :=
  num_sub (listedDays a) (listedDays b).

(* ================================================================= *)
(** ** The class [ScreenshotScraper] *)

Section Run.

Variable w : World.

(** [Date.now()] *)
Definition now : M Z :=
  fun s => (Returns (clock w (ticks s)), set_ticks (S (ticks s)) s).

(** [Math.random()] *)
Definition rand : M N :=
  fun s => (Returns (random w (draws s)), set_draws (S (draws s)) s).

(** [properties.push(property)] *)
Definition push (p : Property) : M unit :=
  fun s => (Returns tt, set_properties (properties s ++ [p]) s).

Definition initBrowser : M unit :=
  fun s =>
    match browser s with
    | Some _ => (Returns tt, s)
    | None =>
        match launch w with
        | Returns _ =>
            (Returns tt,
             set_launched (S (launched s)) (set_browser (Some (launched s)) s))
        | Throws => (Throws, s)
        end
    end.

Definition closeBrowser : M unit :=
  fun s =>
    match browser s with
    | Some b =>
        (Returns tt,
         set_browser None (set_closedBrowsers (b :: closedBrowsers s) s))
    | None => (Returns tt, s)
    end.

(** [try { await fs.access(dirPath) } catch { await fs.mkdir(dirPath, ...) }] *)
Definition ensureDirectoryExists (site : Site) : M unit :=
  try_catch (await (access site)) (await (mkdir site)).

(** [await this.browser!.newPage()]: a call on [null] throws. *)
Definition openPage (site : Site) : M unit :=
  fun s =>
    match browser s with
    | None => (Throws, s)
    | Some _ =>
        match newPage site with
        | Returns _ => (Returns tt, set_openPages (S (openPages s)) s)
        | Throws => (Throws, s)
        end
    end.

(** [await page.close()] *)
Definition closePage : M unit :=
  fun s => (Returns tt, set_openPages (pred (openPages s)) s).

(** [h ? await h.textContent() : dflt] (and the same with
    [getAttribute('href')]). *)
Definition textOr (h : option text) (dflt : jsstring) : M (option jsstring) :=
  match h with
  | Some t => await t
  | None => ret (Some dflt)
  end.

(** The screenshot step: [screenshotPath] after
    [if (imageElement) { ... try { await imageElement.screenshot(...) ... }
    catch { console.warn(...) } }]. *)
Definition takeScreenshot (prefix : jsstring) (i : nat)
    (imageElement : option (outcome unit)) : M jsstring :=
  match imageElement with
  | None => ret []
  | Some shot =>
      t <- now ;;
      let screenshotFilename :=
        prefix ++ N_toString (N.of_nat (i + 1)) ++ [dash] ++ Z_toString t
          ++ lit ".png" in
      try_catch
        (await shot ;;; ret (lit "/property-images/" ++ screenshotFilename))
        (ret [])
  end.

(** [propertyElements[i]]; a call on [undefined] throws. *)
Definition elementAt (propertyElements : list Element) (i : nat) : M Element :=
  match nth_error propertyElements i with
  | Some el => ret el
  | None => throw
  end.

(** The body of the [try] inside the loop of
    [scrapeParariusWithScreenshots]. *)
Definition parariusElement (propertyElements : list Element) (i : nat)
  : M unit :=
  element <- elementAt propertyElements i ;;
  titleElement <- await (q_title element) ;;
  priceElement <- await (q_price element) ;;
  locationElement <- await (q_location element) ;;
  sizeElement <- await (q_size element) ;;
  roomsElement <- await (q_rooms element) ;;
  linkElement <- await (q_link element) ;;
  imageElement <- await (q_image element) ;;
  title <- textOr titleElement
             (lit "Property " ++ N_toString (N.of_nat (i + 1))) ;;
  priceText <- textOr priceElement (lit "0") ;;
  location <- textOr locationElement (lit "Groningen") ;;
  sizeText <- textOr sizeElement (lit "50m" ++ [sup2]) ;;
  roomsText <- textOr roomsElement (lit "2") ;;
  propertyUrl <- textOr linkElement [] ;;
  screenshotPath <- takeScreenshot (lit "pararius-") i imageElement ;;
  t <- now ;;
  r1 <- rand ;;
  r2 <- rand ;;
  r3 <- rand ;;
  r4 <- rand ;;
  push (parariusProperty i title priceText location sizeText roomsText
          propertyUrl screenshotPath t r1 r2 r3 r4) ;;;
  await (pause element).

(** The body of the [try] inside the loop of [scrapeFundaWithScreenshots]. *)
Definition fundaElement (propertyElements : list Element) (i : nat)
  : M unit :=
  element <- elementAt propertyElements i ;;
  titleElement <- await (q_title element) ;;
  priceElement <- await (q_price element) ;;
  locationElement <- await (q_location element) ;;
  sizeElement <- await (q_size element) ;;
  roomsElement <- await (q_rooms element) ;;
  linkElement <- await (q_link element) ;;
  imageElement <- await (q_image element) ;;
  title <- textOr titleElement
             (lit "Funda Property " ++ N_toString (N.of_nat (i + 1))) ;;
  priceText <- textOr priceElement (lit "0") ;;
  location <- textOr locationElement (lit "Groningen") ;;
  sizeText <- textOr sizeElement (lit "50m" ++ [sup2]) ;;
  roomsText <- textOr roomsElement (lit "2") ;;
  propertyUrl <- textOr linkElement [] ;;
  screenshotPath <- takeScreenshot (lit "funda-") i imageElement ;;
  t <- now ;;
  r1 <- rand ;;
  r2 <- rand ;;
  r3 <- rand ;;
  r4 <- rand ;;
  push (fundaProperty i title priceText location sizeText roomsText
          propertyUrl screenshotPath t r1 r2 r3 r4) ;;;
  await (pause element).

(** [return properties] *)
Definition returnProperties : M (list Property) :=
  fun s => (Returns (properties s), s).

(** [const properties = []] *)
Definition newProperties : M unit :=
  fun s => (Returns tt, set_properties [] s).

(** The body of the outer [try] of [scrapeParariusWithScreenshots]. *)
Definition parariusListing : M (list Property) :=
  let site := pararius w in
  await (setViewportSize site) ;;;
  await (setUserAgent site) ;;;
  await (goto site) ;;;
  try_catch (await (click site)) (ret tt) ;;;
  await (waitForSelector site) ;;;
  propertyElements <- await (listing site) ;;
  ensureDirectoryExists site ;;;
  for_loop (Nat.min (length propertyElements) 20) 0
    (fun i => try_catch (parariusElement propertyElements i) (ret tt)) ;;;
  returnProperties.

Definition scrapeParariusWithScreenshots : M (list Property) :=
  initBrowser ;;;
  openPage (pararius w) ;;;
  newProperties ;;;
  try_finally (try_catch parariusListing (ret [])) closePage.

(** The body of the outer [try] of [scrapeFundaWithScreenshots]. *)
Definition fundaListing : M (list Property) :=
  let site := funda w in
  await (setViewportSize site) ;;;
  await (goto site) ;;;
  try_catch (await (click site)) (ret tt) ;;;
  await (waitForSelector site) ;;;
  propertyElements <- await (listing site) ;;
  ensureDirectoryExists site ;;;
  for_loop (Nat.min (length propertyElements) 15) 0
    (fun i => try_catch (fundaElement propertyElements i) (ret tt)) ;;;
  returnProperties.

Definition scrapeFundaWithScreenshots : M (list Property) :=
  initBrowser ;;;
  openPage (funda w) ;;;
  newProperties ;;;
  try_finally (try_catch fundaListing (ret [])) closePage.

Definition scrapeAllWithScreenshots : M (list Property) :=
  initBrowser ;;;
  let allProperties := [] in
  try_finally
    (parariusProperties <- scrapeParariusWithScreenshots ;;
     let allProperties := allProperties ++ parariusProperties in
     fundaProperties <- scrapeFundaWithScreenshots ;;
     let allProperties := allProperties ++ fundaProperties in
     ret (sort byListedDays allProperties))
    closeBrowser.

End Run.

End Scraper.

(* ================================================================= *)
(** ** Vocabulary of the statements about the scraper *)

Module Vocabulary.
Import JS Scraper.

(** The sub-element a selector should find is absent and [v] is the
    default, or it is found and reading its text gives [v]. *)
Definition yields (q : query text) (dflt : jsstring) (v : option jsstring)
  : Prop :=
  match q with
  | Returns None => v = Some dflt
  | Returns (Some (Returns x)) => v = x
  | _ => False
  end.

(** The six texts the loop body reads from the element [el], none of the
    calls throwing; [titleDefault] is what stands for an absent title. *)
Definition reads (titleDefault : jsstring) (el : Element)
    (title priceText location sizeText roomsText propertyUrl : option jsstring)
  : Prop :=
  yields (q_title el) titleDefault title
  /\ yields (q_price el) (lit "0") priceText
  /\ yields (q_location el) (lit "Groningen") location
  /\ yields (q_size el) (lit "50m" ++ [sup2]) sizeText
  /\ yields (q_rooms el) (lit "2") roomsText
  /\ yields (q_link el) [] propertyUrl.

(** The Pararius results page loads and lists [els]: every call before the
    loop returns (the click on the cookie banner may throw, and the
    directory may be there or be created). *)
Definition parariusLoads (w : World) (els : list Element) : Prop :=
  let site := pararius w in
  setViewportSize site = Returns tt /\ setUserAgent site = Returns tt
  /\ goto site = Returns tt /\ waitForSelector site = Returns tt
  /\ listing site = Returns els
  /\ (access site = Returns tt \/ mkdir site = Returns tt).


(** The Funda results page loads and lists [els]. *)
Definition fundaLoads (w : World) (els : list Element) : Prop :=
  let site := funda w in
  setViewportSize site = Returns tt
  /\ goto site = Returns tt /\ waitForSelector site = Returns tt
  /\ listing site = Returns els
  /\ (access site = Returns tt \/ mkdir site = Returns tt).

(** *** The two sources side by side *)

Inductive Source : Type := Pararius | Funda.

Definition site (src : Source) (w : World) : Site :=
  match src with
  | Pararius => pararius w
  | Funda => funda w
  end.

(** The per-source scrape operation. *)
Definition scrape (src : Source) : World -> M (list Property) :=
  match src with
  | Pararius => scrapeParariusWithScreenshots
  | Funda => scrapeFundaWithScreenshots
  end.

(** The body of the [try] inside the loop. *)
Definition element (src : Source)
  : World -> list Element -> nat -> M unit :=
  match src with
  | Pararius => parariusElement
  | Funda => fundaElement
  end.

(** The object literal [property]. *)
Definition property (src : Source) :=
  match src with
  | Pararius => parariusProperty
  | Funda => fundaProperty
  end.

(** What the loop body takes for [title] when the title selector finds
    nothing. *)
Definition absentTitle (src : Source) (i : nat) : jsstring :=
  match src with
  | Pararius => lit "Property " ++ N_toString (N.of_nat (i + 1))
  | Funda => lit "Funda Property " ++ N_toString (N.of_nat (i + 1))
  end.

(** The bound of the loop. *)
Definition cap (src : Source) : nat :=
  match src with
  | Pararius => 20
  | Funda => 15
  end.

(** The prefix of the screenshot's file name. *)
Definition filePrefix (src : Source) : jsstring :=
  match src with
  | Pararius => lit "pararius-"
  | Funda => lit "funda-"
  end.

Definition loads (src : Source) : World -> list Element -> Prop :=
  match src with
  | Pararius => parariusLoads
  | Funda => fundaLoads
  end.

(** [s'] holds the same browser, and as many open pages, as [s]. *)
Definition frame (s s' : State) : Prop :=
  browser s' = browser s /\ launched s' = launched s
  /\ closedBrowsers s' = closedBrowsers s /\ openPages s' = openPages s.

(** A computation that touches neither the resources nor the array. *)
Definition quiet {A} (m : M A) : Prop :=
  forall s, frame s (snd (m s)) /\ properties (snd (m s)) = properties s.

(** A computation that leaves the resources alone and appends at most one
    record, one that satisfies [R], to the array. *)
Definition appends (R : Property -> Prop) (m : M unit) : Prop :=
  forall s,
    frame s (snd (m s))
    /\ (properties (snd (m s)) = properties s
        \/ exists p, R p /\ properties (snd (m s)) = properties s ++ [p]).

(** The records iterations [from], ..., [from + n - 1] can leave: at most
    one each, in order, the one of iteration [i] satisfying [R i]. *)
Inductive trail (R : nat -> Property -> Prop)
  : nat -> nat -> list Property -> Prop :=
| trail_done from : trail R from 0 []
| trail_skip from n l :
    trail R (S from) n l -> trail R from (S n) l
| trail_push from n p l :
    R from p -> trail R (S from) n l -> trail R from (S n) (p :: l).

(** A computation that leaves the resources alone, appends to the array the
    records of at most [cap] iterations and returns the array if it
    returns. *)
Definition collects (R : nat -> Property -> Prop) (cap : nat)
    (m : M (list Property)) : Prop :=
  forall s,
    frame s (snd (m s))
    /\ exists n l,
         n <= cap /\ trail R 0 n l
         /\ properties (snd (m s)) = properties s ++ l
         /\ forall l0, fst (m s) = Returns l0 -> l0 = properties s ++ l.

(** The state in which the outer [try] starts. *)
Definition on_page (s0 : State) : State :=
  set_properties [] (set_openPages (S (openPages s0)) s0).

(** The state once the page is closed again. *)
Definition off_page (s : State) : State :=
  set_openPages (pred (openPages s)) s.

(** [p] is a record the Pararius loop builds at index [i]. *)
Definition parariusRecord (i : nat) (p : Property) : Prop :=
  exists title priceText location sizeText roomsText propertyUrl
         screenshotPath now r1 r2 r3 r4,
    p = parariusProperty i title priceText location sizeText roomsText
          propertyUrl screenshotPath now r1 r2 r3 r4.

(** [p] is a record the Funda loop builds at index [i]. *)
Definition fundaRecord (i : nat) (p : Property) : Prop :=
  exists title priceText location sizeText roomsText propertyUrl
         screenshotPath now r1 r2 r3 r4,
    p = fundaProperty i title priceText location sizeText roomsText
          propertyUrl screenshotPath now r1 r2 r3 r4.

(** What every record of either source satisfies: the derived fields follow
    from the Number values of natural numbers of rooms and of euros,
    [listedDays] is an integer and the identifier is not empty. *)
Definition sound_record (p : Property) : Prop :=
  natural (rooms p)
  /\ natural (price p)
  /\ type p = typeOf (rooms p)
  /\ deposit p = depositOf (price p)
  /\ (exists d, listedDays p = Int d)
  /\ id p <> [].

(** [p] is among the records one of the scraping operations returns when it
    runs in world [w] from state [s]. *)
Definition produced (w : World) (s : State) (p : Property) : Prop :=
  exists l s',
    In p l
    /\ (scrapeParariusWithScreenshots w s = (Returns l, s')
        \/ scrapeFundaWithScreenshots w s = (Returns l, s')
        \/ scrapeAllWithScreenshots w s = (Returns l, s')).

(** [listedDays] is an integer. *)
Definition has_days (p : Property) : Prop := exists d, listedDays p = Int d.

(** Non-decreasing [listedDays]. *)
Definition days_le (a b : Property) : Prop :=
  num_le (listedDays a) (listedDays b) = true.

(** Every browser launched so far is closed, unless it is the session the
    scraper holds. *)
Definition no_stray_browser (s : State) : Prop :=
  forall b, b < launched s -> In b (closedBrowsers s) \/ browser s = Some b.

(** Every browser launched so far is closed. *)
Definition all_closed (s : State) : Prop :=
  forall b, b < launched s -> In b (closedBrowsers s).

(** The session [b] is open: held by the scraper and not closed. *)
Definition session_open (b : nat) (s : State) : Prop :=
  browser s = Some b /\ ~ In b (closedBrowsers s).

End Vocabulary.

(* ================================================================= *)
(** ** Sample runs *)

Module Samples.
Import JS Scraper Vocabulary.

(** A listing element in which no selector finds anything. *)
Definition blank : Element :=
  {| q_title := Returns None; q_price := Returns None;
     q_location := Returns None; q_size := Returns None;
     q_rooms := Returns None; q_link := Returns None;
     q_image := Returns None; pause := Returns tt |}.

Definition found (t : jsstring) : query text := Returns (Some (Returns (Some t))).

(** A flat with every field on the page, the price written the way each
    site writes it, and an image that cannot be captured. *)
Definition flat (priceText : jsstring) : Element :=
  {| q_title := found (lit " Oosterstraat 12 ");
     q_price := found priceText;
     q_location := found (lit "9711 NV Groningen (Binnenstad)");
     q_size := found (lit "45 m" ++ [sup2]);
     q_rooms := found (lit "3 rooms");
     q_link := found (lit "/apartment-for-rent/groningen/oosterstraat");
     q_image := Returns (Some Throws);
     pause := Returns tt |}.

(** A listing whose rooms text reads "0 rooms". *)
Definition roomless : Element :=
  {| q_title := found (lit "Storage unit");
     q_price := found (euro :: lit "150");
     q_location := Returns None; q_size := Returns None;
     q_rooms := found (lit "0 rooms");
     q_link := Returns None; q_image := Returns None; pause := Returns tt |}.

(** A site that answers every call, [setUserAgent] included: no cookie
    banner, the screenshots directory does not exist yet and is created. *)
Definition up (els : list Element) : Site :=
  {| newPage := Returns tt; setViewportSize := Returns tt;
     setUserAgent := Returns tt; goto := Returns tt; click := Throws;
     waitForSelector := Returns tt; listing := Returns els;
     access := Throws; mkdir := Returns tt |}.

(** A site that cannot be reached: navigation times out. *)
Definition down : Site :=
  {| newPage := Returns tt; setViewportSize := Returns tt;
     setUserAgent := Returns tt; goto := Throws; click := Throws;
     waitForSelector := Throws; listing := Throws;
     access := Throws; mkdir := Returns tt |}.

Definition time (k : nat) : Z := 1700000000000 + Z.of_nat k.

Definition dice (k : nat) : N := N.of_nat (5 - k mod 5) * 1801439850948198.

Definition run (p f : Site) : World :=
  {| launch := Returns tt; pararius := p; funda := f;
     clock := time; random := dice |}.

(** Both sites answer, each with an empty element and a flat. *)
Definition both_up : World :=
  run (up [blank; flat (euro :: lit "1,250 per month")])
      (up [blank; flat (euro :: lit " 1.250 per maand")]).

(** Pararius is down, Funda answers. *)
Definition pararius_down : World := run down (up [roomless]).

(** Both sites list the room-less element. *)
Definition storage : World := run (up [roomless]) (up [roomless]).

(** Both sites list twenty-five empty elements. *)
Definition crowded : World :=
  run (up (repeat blank 25)) (up (repeat blank 25)).

(** The record of the room-less listing on the Pararius page of
    [storage]. *)
Definition storage_record : Property :=
  parariusProperty 0 (Some (lit "Storage unit")) (Some (euro :: lit "150"))
    (Some (lit "Groningen")) (Some (lit "50m" ++ [sup2]))
    (Some (lit "0 rooms")) (Some []) [] (time 0)
    (dice 0) (dice 1) (dice 2) (dice 3).

(** The state of the scraper inside [scrapeAllWithScreenshots], once the
    browser runs. *)
Definition started : State := set_launched 1 (set_browser (Some 0) initial).

(** The Pararius site as the scraper finds it: the page the browser library
    gives has no [setUserAgent], and the call throws. *)
Definition agentless (els : list Element) : Site :=
  {| newPage := Returns tt; setViewportSize := Returns tt;
     setUserAgent := Throws; goto := Returns tt; click := Throws;
     waitForSelector := Returns tt; listing := Returns els;
     access := Throws; mkdir := Returns tt |}.

(** Both sites answer, each with an empty element and a flat. *)
Definition rentals : World :=
  run (agentless [blank; flat (euro :: lit "1,250 per month")])
      (up [blank; flat (euro :: lit " 1.250 per maand")]).

(** Both sites list the room-less element. *)
Definition lockup : World := run (agentless [roomless]) (up [roomless]).

(** The record of the room-less listing on the Funda page of [lockup]. *)
Definition lockup_record : Property :=
  fundaProperty 0 (Some (lit "Storage unit")) (Some (euro :: lit "150"))
    (Some (lit "Groningen")) (Some (lit "50m" ++ [sup2]))
    (Some (lit "0 rooms")) (Some []) [] (time 0)
    (dice 0) (dice 1) (dice 2) (dice 3).

(** A price of 310 digits: 1 followed by 309 zeros. *)
Definition fortune : jsstring := euro :: lit "1" ++ repeat 48%N 309.

(** A listing with that price. *)
Definition palace : Element :=
  {| q_title := found (lit "Prinsenhof");
     q_price := found fortune;
     q_location := Returns None; q_size := Returns None;
     q_rooms := Returns None;
     q_link := Returns None; q_image := Returns None; pause := Returns tt |}.

Definition palatial : World := run (agentless [palace]) (up [palace]).

(** The record of that listing on the Funda page of [palatial]. *)
Definition palace_record : Property :=
  fundaProperty 0 (Some (lit "Prinsenhof")) (Some fortune)
    (Some (lit "Groningen")) (Some (lit "50m" ++ [sup2]))
    (Some (lit "2")) (Some []) [] (time 0)
    (dice 0) (dice 1) (dice 2) (dice 3).

End Samples.

(* ================================================================= *)
(** ** Reading numbers without a pattern

    What the patterns of the scraper amount to, written as a scan of the
    text: the functions the pattern-based parsers are compared with. *)

Module Scan.
Import JS Scraper.

Definition non_digit (c : N) : bool := negb (is_digit c).

(** The text from its first digit on; empty when it has none. *)
Definition fromFirstDigit (s : jsstring) : jsstring := dropWhile non_digit s.

Definition starts_with_digit (s : jsstring) : bool :=
  match s with
  | c :: _ => is_digit c
  | [] => false
  end.

(** What [\d+(?:sep\d+)?] captures at the start of [t]: the first run of
    digits and, when one separator and a digit follow it, the separator and
    the second run. *)
Definition capturedNumber (sep : N) (t : jsstring) : jsstring :=
  match dropWhile is_digit t with
  | c :: r =>
      if (c =? sep)%N && starts_with_digit r
      then takeWhile is_digit t ++ c :: takeWhile is_digit r
      else takeWhile is_digit t
  | [] => takeWhile is_digit t
  end.

(** The digits of the number at the start of [t]: the first run of digits,
    followed by the second run when exactly one separator stands between
    them. *)
Definition leadingNumber (sep : N) (t : jsstring) : jsstring :=
  match dropWhile is_digit t with
  | c :: r =>
      if (c =? sep)%N && starts_with_digit r
      then takeWhile is_digit t ++ takeWhile is_digit r
      else takeWhile is_digit t
  | [] => takeWhile is_digit t
  end.

(** [\d+(?:sep\d+)?], the group of both price patterns. *)
Definition number_group (sep : N) : regex :=
  Seq (Plus is_digit) (Opt (Seq (Chr sep) (Plus is_digit))).

(** The price by scanning: 0 without a digit, else the Number value (the
    nearest double) of the number the digits write. *)
Definition scanPrice (sep : N) (s : jsstring) : number :=
  match fromFirstDigit s with
  | [] => Int 0
  | t => toNumber (decimal_value (leadingNumber sep t))
  end.

(** The number of rooms by scanning: 2 without a digit, else the Number
    value of the number the first run of digits writes. *)
Definition scanRooms (s : jsstring) : number :=
  match fromFirstDigit s with
  | [] => Int 2
  | t => toNumber (decimal_value (takeWhile is_digit t))
  end.

End Scan.

(* ================================================================= *)
(** ** Which elements give a record *)

Module Reading.
Import JS Scraper Vocabulary.

(** Reading the text of what a selector found does not throw. *)
Definition handle_ok (h : option text) : bool :=
  match h with
  | Some Throws => false
  | _ => true
  end.

(** Neither the selector nor the reading of the text throws. *)
Definition text_ok (q : query text) : bool :=
  match q with
  | Returns h => handle_ok h
  | Throws => false
  end.

Definition query_ok {H} (q : query H) : bool :=
  match q with
  | Returns _ => true
  | Throws => false
  end.

(** None of the calls that read the element throws: the seven selectors
    and the six readings of a text.  The screenshot and the pause after the
    element are not among them. *)
Definition readable (el : Element) : bool :=
  text_ok (q_title el) && text_ok (q_price el) && text_ok (q_location el)
  && text_ok (q_size el) && text_ok (q_rooms el) && text_ok (q_link el)
  && query_ok (q_image el).

(** [screenshotPath] after the screenshot step, taken at time [t]: the path
    of the file when there is an image and its capture succeeds, the empty
    string otherwise. *)
Definition screenshotPathOf (prefix : jsstring) (i : nat)
    (imageElement : option (outcome unit)) (t : Z) : jsstring :=
  match imageElement with
  | Some (Returns _) =>
      lit "/property-images/"
        ++ (prefix ++ N_toString (N.of_nat (i + 1)) ++ [dash]
              ++ Z_toString t ++ lit ".png")
  | _ => []
  end.

(** [p] is the record of the element [el] at index [i]: built from the
    texts read from [el], with the path its screenshot step leaves. *)
Definition recordOf (src : Source) (i : nat) (el : Element) (p : Property)
  : Prop :=
  exists title priceText location sizeText roomsText propertyUrl
         imageElement t0 t r1 r2 r3 r4,
    reads (absentTitle src i) el title priceText location sizeText roomsText
      propertyUrl
    /\ q_image el = Returns imageElement
    /\ p = property src i title priceText location sizeText roomsText
             propertyUrl
             (screenshotPathOf (filePrefix src) i imageElement t0)
             t r1 r2 r3 r4.

(** [p] is the record of the element of [els] at index [i]. *)
Definition recordAt (src : Source) (els : list Element) (i : nat)
    (p : Property) : Prop :=
  exists el, nth_error els i = Some el /\ recordOf src i el p.

Definition readableAt (els : list Element) (i : nat) : bool :=
  match nth_error els i with
  | Some el => readable el
  | None => false
  end.

(** The indices, in page order, of the readable elements among the first
    [bound] of [els]. *)
Definition readableIndices (bound : nat) (els : list Element) : list nat :=
  filter (readableAt els) (seq 0 (Nat.min (length els) bound)).

End Reading.

(* ================================================================= *)
(** ** The exported function and further vocabulary *)

(** The objects [scrapePropertiesWithScreenshots] returns: what the rest
    pattern [{ screenshotPath, ...property }] leaves of a record, that is
    every field but [screenshotPath]. *)
Module Api.
Import JS.

Record Property : Type := {
  id : jsstring;
  title : jsstring;
  price : number;
  location : jsstring;
  size : jsstring;
  rooms : number;
  source : jsstring;
  sourceUrl : jsstring;
  listedDays : number;
  image : jsstring;
  images : list jsstring;
  description : jsstring;
  type : jsstring;
  available : jsstring;
  realEstateAgent : jsstring;
  neighborhood : jsstring;
  buildYear : jsstring;
  interior : jsstring;
  fullDescription : jsstring;
  features : list jsstring;
  energyLabel : jsstring;
  deposit : number
}.

End Api.

Module Exported.
Import JS Scraper Vocabulary.

(** [({ screenshotPath, ...property }) => property] *)
Definition withoutScreenshotPath (p : Property) : Api.Property :=
  {| Api.id := id p;
     Api.title := title p;
     Api.price := price p;
     Api.location := location p;
     Api.size := size p;
     Api.rooms := rooms p;
     Api.source := source p;
     Api.sourceUrl := sourceUrl p;
     Api.listedDays := listedDays p;
     Api.image := image p;
     Api.images := images p;
     Api.description := description p;
     Api.type := type p;
     Api.available := available p;
     Api.realEstateAgent := realEstateAgent p;
     Api.neighborhood := neighborhood p;
     Api.buildYear := buildYear p;
     Api.interior := interior p;
     Api.fullDescription := fullDescription p;
     Api.features := features p;
     Api.energyLabel := energyLabel p;
     Api.deposit := deposit p |}.

Definition scrapePropertiesWithScreenshots (w : World)
  : M (list Api.Property) :=
  propertiesWithScreenshots <- scrapeAllWithScreenshots w ;;
  ret (map withoutScreenshotPath propertiesWithScreenshots).

(** The record of which [a] is the export, given back its
    [screenshotPath] from [image]. *)
Definition withScreenshotPath (a : Api.Property) : Property :=
  {| id := Api.id a;
     title := Api.title a;
     price := Api.price a;
     location := Api.location a;
     size := Api.size a;
     rooms := Api.rooms a;
     source := Api.source a;
     sourceUrl := Api.sourceUrl a;
     listedDays := Api.listedDays a;
     image := Api.image a;
     images := Api.images a;
     description := Api.description a;
     type := Api.type a;
     available := Api.available a;
     realEstateAgent := Api.realEstateAgent a;
     neighborhood := Api.neighborhood a;
     buildYear := Api.buildYear a;
     interior := Api.interior a;
     fullDescription := Api.fullDescription a;
     features := Api.features a;
     energyLabel := Api.energyLabel a;
     deposit := Api.deposit a;
     screenshotPath := Api.image a |}.

(** A record either loop builds. *)
Definition built (p : Property) : Prop :=
  exists src i title priceText location sizeText roomsText propertyUrl
         screenshotPath now r1 r2 r3 r4,
    p = property src i title priceText location sizeText roomsText
          propertyUrl screenshotPath now r1 r2 r3 r4.

(** The browsers [initBrowser] launches: one when the scraper holds none
    and the launch succeeds, none otherwise. *)
Definition launches (w : World) (s : State) : nat :=
  match browser s, launch w with
  | None, Returns _ => 1
  | _, _ => 0
  end.

(** The default with the source's name: the second operand of [||] in the
    field [title]. *)
Definition namedTitle (src : Source) (i : nat) : jsstring :=
  match src with
  | Pararius => lit "Pararius Property " ++ N_toString (N.of_nat (i + 1))
  | Funda => lit "Funda Property " ++ N_toString (N.of_nat (i + 1))
  end.

(** A string that is not empty. *)
Definition nonempty (x : jsstring) : bool :=
  match x with
  | [] => false
  | _ :: _ => true
  end.

(** The site with another outcome for the click on its cookie banner. *)
Definition set_click (o : outcome unit) (site : Site) : Site :=
  {| newPage := newPage site; setViewportSize := setViewportSize site;
     setUserAgent := setUserAgent site; goto := goto site; click := o;
     waitForSelector := waitForSelector site; listing := listing site;
     access := access site; mkdir := mkdir site |}.

(** The world with other outcomes for the two clicks on a cookie banner. *)
Definition set_clicks (o1 o2 : outcome unit) (w : World) : World :=
  {| launch := launch w; pararius := set_click o1 (pararius w);
     funda := set_click o2 (funda w); clock := clock w;
     random := random w |}.

End Exported.

Module MoreSamples.
Import JS Scraper Vocabulary Samples.

(** A listing element whose price selector throws. *)
Definition broken : Element :=
  {| q_title := found (lit "Gone"); q_price := Throws;
     q_location := Returns None; q_size := Returns None;
     q_rooms := Returns None; q_link := Returns None;
     q_image := Returns None; pause := Returns tt |}.

(** A listing element of which a screenshot can be taken. *)
Definition pictured : Element :=
  {| q_title := found (lit "Herestraat 5"); q_price := Returns None;
     q_location := found (lit "Groningen (Centrum) ");
     q_size := Returns None; q_rooms := Returns None;
     q_link := found (lit "https://example.org/herestraat");
     q_image := Returns (Some (Returns tt)); pause := Throws |}.

(** Both sites list an empty element, a broken one and a pictured one. *)
Definition mixed : World :=
  Samples.run (up [blank; broken; pictured]) (up [blank; broken; pictured]).

(** A site whose screenshots directory is missing and cannot be created. *)
Definition no_directory : Site :=
  {| newPage := Returns tt; setViewportSize := Returns tt;
     setUserAgent := Returns tt; goto := Returns tt; click := Returns tt;
     waitForSelector := Returns tt; listing := Returns [blank];
     access := Throws; mkdir := Throws |}.

(** A site of which no page can be opened. *)
Definition no_page : Site :=
  {| newPage := Throws; setViewportSize := Returns tt;
     setUserAgent := Returns tt; goto := Returns tt; click := Returns tt;
     waitForSelector := Returns tt; listing := Returns [blank];
     access := Returns tt; mkdir := Returns tt |}.

(** A draw of [Math.random()] whose product with 70 is not a double: the
    product, 66 - 12 / 2^53, rounds to 66. *)
Definition awkward_draw : N := 8492502154470078.

(** The world of [lockup] with that draw every time. *)
Definition awkward : World :=
  {| launch := Returns tt; pararius := agentless [roomless];
     funda := up [roomless]; clock := time; random := fun _ => awkward_draw |}.

(** The record of the room-less listing on the Funda page of [awkward]. *)
Definition awkward_record : Property :=
  fundaProperty 0 (Some (lit "Storage unit")) (Some (euro :: lit "150"))
    (Some (lit "Groningen")) (Some (lit "50m" ++ [sup2]))
    (Some (lit "0 rooms")) (Some []) [] (time 0)
    awkward_draw awkward_draw awkward_draw awkward_draw.

End MoreSamples.

(* ================================================================= *)
(** ** Facts about rounding *)

Module NumberFacts.
Import JS.
Local Open Scope Z_scope.

Lemma round53_small (z : Z) : Z.abs z < 2 ^ 53 -> round53 z = z.
Proof.
  intros H. unfold round53. apply Z.ltb_lt in H. rewrite H. reflexivity.
Qed.

(** The shape of a rounded integer of 54 bits or more. *)
Lemma round53_large (z : Z) :
  2 ^ 53 <= Z.abs z ->
  exists q e,
    e = Z.log2 (Z.abs z) - 52 /\ 1 <= e
    /\ 2 ^ 52 <= q <= 2 ^ 53
    /\ round53 z = Z.sgn z * (q * 2 ^ e)
    /\ Z.abs z - 2 ^ (e - 1) <= q * 2 ^ e <= Z.abs z + 2 ^ (e - 1).
Proof.
  intros H. unfold round53.
  set (n := Z.abs z) in *.
  assert (Hlt : (n <? 2 ^ 53) = false) by (apply Z.ltb_ge; exact H).
  rewrite Hlt.
  assert (Hn : 0 < n) by (assert (0 < 2 ^ 53) by reflexivity; lia).
  destruct (Z.log2_spec n Hn) as [Hlo Hhi].
  assert (HL : 53 <= Z.log2 n).
  { change 53 with (Z.log2 (2 ^ 53)). apply Z.log2_le_mono. exact H. }
  set (e := Z.log2 n - 52) in *.
  assert (He : 1 <= e) by (subst e; lia).
  assert (E1 : 2 ^ Z.log2 n = 2 ^ 52 * 2 ^ e).
  { rewrite <- Z.pow_add_r by lia. f_equal. subst e. lia. }
  assert (E2 : 2 ^ Z.succ (Z.log2 n) = 2 ^ 53 * 2 ^ e).
  { rewrite <- Z.pow_add_r by lia. f_equal. subst e. lia. }
  assert (E3 : 2 ^ e = 2 * 2 ^ (e - 1)).
  { rewrite <- Z.pow_succ_r by lia. f_equal. lia. }
  assert (Hp : 0 < 2 ^ (e - 1)) by (apply Z.pow_pos_nonneg; lia).
  assert (Hpe : 0 < 2 ^ e) by lia.
  pose proof (Z.div_mod n (2 ^ e) ltac:(lia)) as Hdm.
  pose proof (Z.mod_pos_bound n (2 ^ e) Hpe) as Hr.
  set (q := n / 2 ^ e) in *. set (r := n mod 2 ^ e) in *.
  assert (Hq : 2 ^ 52 <= q < 2 ^ 53).
  { split.
    - subst q. apply Z.div_le_lower_bound; [exact Hpe|]. lia.
    - subst q. apply Z.div_lt_upper_bound; [exact Hpe|]. lia. }
  set (half := 2 ^ (e - 1)) in *.
  destruct ((half <? r) || ((r =? half) && Z.odd q)) eqn:Hup.
  - exists (q + 1), e. split; [reflexivity|]. split; [exact He|].
    split; [lia|]. split; [reflexivity|].
    assert (half <= r).
    { apply orb_true_iff in Hup as [Hup|Hup].
      - apply Z.ltb_lt in Hup. lia.
      - apply andb_true_iff in Hup as [Hup _]. apply Z.eqb_eq in Hup. lia. }
    nia.
  - exists q, e. split; [reflexivity|]. split; [exact He|].
    split; [lia|]. split; [reflexivity|].
    apply orb_false_iff in Hup as [Hup _]. apply Z.ltb_ge in Hup. nia.
Qed.

Lemma round53_form (z : Z) :
  exists q e,
    0 <= e /\ 0 <= q <= 2 ^ 53 /\ round53 z = Z.sgn z * (q * 2 ^ e)
    /\ (2 ^ 53 <= Z.abs z -> 2 ^ 53 <= q * 2 ^ e).
Proof.
  destruct (Z_lt_le_dec (Z.abs z) (2 ^ 53)) as [H|H].
  - exists (Z.abs z), 0. rewrite (round53_small z H).
    split; [lia|]. split; [lia|]. split; [|lia].
    rewrite Z.mul_1_r. destruct z; simpl; lia.
  - destruct (round53_large z H) as (q & e & _ & He & Hq & E & _).
    exists q, e. split; [lia|]. split; [lia|]. split; [exact E|].
    intros _. assert (2 ^ 1 <= 2 ^ e) by (apply Z.pow_le_mono_r; lia).
    change (2 ^ 1) with 2 in *. change (2 ^ 53) with (2 ^ 52 * 2). nia.
Qed.

(** A multiple of a power of two by at most 53 bits is its own rounding. *)
Lemma round53_exact_pos (q e : Z) :
  0 <= e -> 0 <= q < 2 ^ 53 -> round53 (q * 2 ^ e) = q * 2 ^ e.
Proof.
  intros He Hq.
  destruct (Z_lt_le_dec (Z.abs (q * 2 ^ e)) (2 ^ 53)) as [H|H];
    [apply round53_small, H|].
  assert (Hpe : 0 < 2 ^ e) by (apply Z.pow_pos_nonneg; lia).
  assert (Hq0 : 0 < q) by (assert (0 < 2 ^ 53) by reflexivity; nia).
  assert (Habs : Z.abs (q * 2 ^ e) = q * 2 ^ e) by (apply Z.abs_eq; nia).
  unfold round53. rewrite Habs in *.
  assert (Hlt : (q * 2 ^ e <? 2 ^ 53) = false) by (apply Z.ltb_ge; exact H).
  rewrite Hlt.
  rewrite Z.log2_mul_pow2 by lia.
  assert (Hlq : Z.log2 q < 53) by (apply Z.log2_lt_pow2; lia).
  assert (HL : 53 <= e + Z.log2 q).
  { rewrite <- Z.log2_mul_pow2 by lia.
    change 53 with (Z.log2 (2 ^ 53)). apply Z.log2_le_mono. exact H. }
  set (e' := e + Z.log2 q - 52).
  assert (He' : 1 <= e' <= e) by (subst e'; lia).
  assert (Esplit : q * 2 ^ e = q * 2 ^ (e - e') * 2 ^ e').
  { rewrite <- Z.mul_assoc, <- Z.pow_add_r by lia. do 2 f_equal. lia. }
  assert (Hpe' : 0 < 2 ^ e') by (apply Z.pow_pos_nonneg; lia).
  assert (Hhalf : 0 < 2 ^ (e' - 1)) by (apply Z.pow_pos_nonneg; lia).
  assert (Hmod : (q * 2 ^ e) mod 2 ^ e' = 0)
    by (rewrite Esplit; apply Z.mod_mul; lia).
  assert (Hdiv : q * 2 ^ e / 2 ^ e' = q * 2 ^ (e - e'))
    by (rewrite Esplit; apply Z.div_mul; lia).
  fold e'. rewrite Hmod, Hdiv.
  assert (B1 : (2 ^ (e' - 1) <? 0) = false) by (apply Z.ltb_ge; lia).
  assert (B2 : (0 =? 2 ^ (e' - 1)) = false) by (apply Z.eqb_neq; lia).
  rewrite B1, B2. cbn [orb andb].
  rewrite <- Esplit.
  assert (Hs : Z.sgn (q * 2 ^ e) = 1) by (apply Z.sgn_pos; nia).
  rewrite Hs. lia.
Qed.

Lemma round53_opp (z : Z) : round53 (- z) = - round53 z.
Proof.
  unfold round53. rewrite Z.abs_opp, Z.sgn_opp.
  destruct (Z.abs z <? 2 ^ 53); lia.
Qed.

Lemma round53_exact (sg q e : Z) :
  sg = 1 \/ sg = 0 \/ sg = -1 ->
  0 <= e -> 0 <= q <= 2 ^ 53 ->
  round53 (sg * (q * 2 ^ e)) = sg * (q * 2 ^ e).
Proof.
  intros Hsg He Hq.
  assert (P : round53 (q * 2 ^ e) = q * 2 ^ e).
  { destruct (Z.eq_dec q (2 ^ 53)) as [->|Hne].
    - replace (2 ^ 53 * 2 ^ e) with (2 ^ 52 * 2 ^ (e + 1)).
      + apply round53_exact_pos; [lia|]. split; [|reflexivity].
        apply Z.pow_nonneg. lia.
      + rewrite Z.pow_add_r by lia. change (2 ^ 53) with (2 ^ 52 * 2 ^ 1).
        ring.
    - apply round53_exact_pos; [exact He|lia]. }
  destruct Hsg as [->|[->| ->]].
  - rewrite !Z.mul_1_l. exact P.
  - reflexivity.
  - replace (-1 * (q * 2 ^ e)) with (- (q * 2 ^ e)) by ring.
    rewrite round53_opp, P. reflexivity.
Qed.

Lemma sgn_cases (z : Z) : Z.sgn z = 1 \/ Z.sgn z = 0 \/ Z.sgn z = -1.
Proof. destruct z; simpl; auto. Qed.

Lemma round53_idem (z : Z) : round53 (round53 z) = round53 z.
Proof.
  destruct (round53_form z) as (q & e & He & Hq & E & _).
  rewrite E. apply round53_exact; [apply sgn_cases|exact He|exact Hq].
Qed.

(** Doubling a double is exact. *)
Lemma round53_twice (z : Z) : round53 (2 * round53 z) = 2 * round53 z.
Proof.
  destruct (round53_form z) as (q & e & He & Hq & E & _).
  rewrite E.
  replace (2 * (Z.sgn z * (q * 2 ^ e))) with (Z.sgn z * (q * 2 ^ (e + 1))).
  - apply round53_exact; [apply sgn_cases|lia|exact Hq].
  - rewrite Z.pow_add_r by lia. change (2 ^ 1) with 2. ring.
Qed.

Lemma round53_sgn (z : Z) : Z.sgn (round53 z) = Z.sgn z.
Proof.
  destruct (Z_lt_le_dec (Z.abs z) (2 ^ 53)) as [H|H];
    [rewrite (round53_small z H); reflexivity|].
  destruct (round53_form z) as (q & e & He & Hq & E & Hbig).
  specialize (Hbig H). rewrite E.
  assert (0 < q * 2 ^ e) by (assert (0 < 2 ^ 53) by reflexivity; lia).
  rewrite Z.sgn_mul, (Z.sgn_pos (q * 2 ^ e)) by assumption.
  rewrite Z.mul_1_r. apply Z.sgn_sgn.
Qed.

(** [toNumber] against the Standard Library's IEEE 754 rounding, at the
    places where rounding shows: around 2^53, at ties, at the largest
    double and beyond. *)
Lemma toNumber_ieee :
  Forall (fun z => toNumber z = ieee z /\ toNumber (- z) = ieee (- z))
    [0; 1; 1250; 2 ^ 53 - 1; 2 ^ 53; 2 ^ 53 + 1; 2 ^ 53 + 2; 2 ^ 53 + 3;
     2 ^ 54 + 2; 2 ^ 54 + 6; 2 ^ 54 + 7; 90071992547409925;
     594475150812905460; 10 ^ 22; 10 ^ 23; 10 ^ 308; 2 ^ 1024 - 2 ^ 971;
     2 ^ 1024 - 2 ^ 970 - 1; 2 ^ 1024 - 2 ^ 970; 2 ^ 1024; 10 ^ 309;
     10 ^ 400].
Proof. repeat constructor; vm_compute; reflexivity. Qed.

Lemma toNumber_small (z : Z) : Z.abs z < 2 ^ 53 -> toNumber z = Int z.
Proof.
  intros H. unfold toNumber. rewrite (round53_small z H).
  assert (E : (2 ^ 1024 <=? Z.abs z) = false).
  { apply Z.leb_gt. assert (2 ^ 53 < 2 ^ 1024) by reflexivity. lia. }
  rewrite E. reflexivity.
Qed.

(** Rounding keeps the sign: [x > 0] for the Number value of [z] says
    [z > 0]. *)
Lemma toNumber_positive (z : Z) : num_gt (toNumber z) (Int 0) = (0 <? z).
Proof.
  unfold toNumber. pose proof (round53_sgn z) as Hs.
  destruct (2 ^ 1024 <=? Z.abs (round53 z)) eqn:E.
  - apply Z.leb_le in E.
    assert (0 < 2 ^ 1024) by reflexivity.
    destruct (Z.ltb_spec z 0) as [Hz|Hz]; simpl.
    + symmetry. apply Z.ltb_ge. lia.
    + symmetry. apply Z.ltb_lt.
      destruct (Z.eq_dec z 0) as [->|Hne]; [|lia].
      rewrite (round53_small 0) in E by reflexivity. simpl in E. lia.
  - clear E. unfold num_gt.
    destruct (Z.ltb_spec 0 z), (Z.ltb_spec 0 (round53 z));
      try reflexivity; lia.
Qed.

(** What the Number value of a natural number is: a natural number that is
    a double, or [Infinity]. *)
Lemma natural_cases (x : number) :
  natural x ->
  (exists n, x = Int n /\ 0 <= n < 2 ^ 1024 /\ round53 n = n)
  \/ x = Inf false.
Proof.
  intros (v & Hv & ->). unfold toNumber.
  pose proof (round53_sgn v) as Hs.
  assert (Hr : 0 <= round53 v) by lia.
  destruct (2 ^ 1024 <=? Z.abs (round53 v)) eqn:E.
  - right. f_equal. apply Z.ltb_ge. exact Hv.
  - left. exists (round53 v). split; [reflexivity|].
    apply Z.leb_gt in E. split; [lia|]. apply round53_idem.
Qed.

Lemma natural_Int (n : Z) : 0 <= n < 2 ^ 53 -> natural (Int n).
Proof.
  intros H. exists n. split; [lia|]. symmetry. apply toNumber_small. lia.
Qed.

(** Twice a double that is a natural number: exact up to the largest
    double, [Infinity] beyond. *)
Lemma twice_natural (n : Z) :
  0 <= n -> round53 n = n ->
  num_mul (Int n) (Int 2)
  = if 2 ^ 1023 <=? n then Inf false else Int (2 * n).
Proof.
  intros Hn Hr. unfold num_mul, toNumber.
  replace (n * 2) with (2 * round53 n) by (rewrite Hr; ring).
  rewrite round53_twice, Hr.
  rewrite Z.abs_eq by lia.
  change (2 ^ 1024) with (2 * 2 ^ 1023).
  destruct (Z.leb_spec (2 ^ 1023) n) as [H|H].
  - assert (E : (2 * 2 ^ 1023 <=? 2 * n) = true) by (apply Z.leb_le; lia).
    rewrite E. f_equal. apply Z.ltb_ge. lia.
  - assert (E : (2 * 2 ^ 1023 <=? 2 * n) = false) by (apply Z.leb_gt; lia).
    rewrite E. reflexivity.
Qed.

End NumberFacts.

(* ================================================================= *)
(** ** Facts about strings and numbers *)

Module JSFacts.
Import JS NumberFacts.

(** *** Decimal numerals *)

Lemma uint_units_digits (d : Decimal.uint) : all_digits (uint_units d).
Proof.
  induction d; simpl; constructor; auto.
Qed.

Lemma uint_units_inj (d d' : Decimal.uint) :
  uint_units d = uint_units d' -> d = d'.
Proof.
  revert d'; induction d; destruct d'; simpl; intros H;
    try discriminate; try reflexivity;
    injection H as H; f_equal; auto.
Qed.

Lemma N_toString_digits (n : N) : all_digits (N_toString n).
Proof. apply uint_units_digits. Qed.

Lemma N_toString_inj (n n' : N) : N_toString n = N_toString n' -> n = n'.
Proof.
  intros H. apply DecimalN.Unsigned.to_uint_inj, uint_units_inj, H.
Qed.

Lemma N_toString_nonempty (n : N) : N_toString n <> [].
Proof.
  unfold N_toString. destruct n as [|p]; [discriminate|].
  simpl. intros H.
  apply (DecimalPos.Unsigned.to_uint_nonnil p).
  destruct (Pos.to_uint p); simpl in H; try discriminate; reflexivity.
Qed.

Lemma digit_not_dash (c : N) : is_digit c = true -> c <> dash.
Proof.
  unfold is_digit, dash. intros H ->. discriminate.
Qed.

Lemma digit_not_space (c : N) : is_digit c = true -> is_space c = false.
Proof.
  unfold is_digit, is_space. intros H.
  apply andb_true_iff in H as [H1 H2].
  apply N.leb_le in H1, H2.
  repeat match goal with
         | |- (_ || _)%bool = false => apply orb_false_iff; split
         | |- (_ && _)%bool = false => apply andb_false_iff
         end;
    try (apply N.eqb_neq; lia);
    try (right; apply N.leb_gt; lia);
    try (left; apply N.leb_gt; lia).
Qed.

Lemma all_digits_no_dash (s : jsstring) : all_digits s -> ~ In dash s.
Proof.
  intros H Hin. unfold all_digits in H. rewrite Forall_forall in H.
  exact (digit_not_dash _ (H _ Hin) eq_refl).
Qed.

(** Two strings that end in a dash and a dash-free tail have the same tail
    when they are equal. *)
Lemma head_split (c : N) (a b a' b' : jsstring) :
  ~ In c a -> ~ In c a' -> a ++ c :: b = a' ++ c :: b' -> a = a'.
Proof.
  revert a'; induction a as [|x a IH]; intros [|y a'] Ha Ha' H; simpl in *.
  - reflexivity.
  - injection H as H _. exfalso. apply Ha'. left. symmetry. exact H.
  - injection H as H _. exfalso. apply Ha. left. exact H.
  - injection H as Hx H. f_equal; [exact Hx|].
    apply IH; auto.
Qed.

Lemma tail_split (c : N) (a b a' b' : jsstring) :
  ~ In c b -> ~ In c b' -> a ++ c :: b = a' ++ c :: b' -> b = b'.
Proof.
  intros Hb Hb' H.
  apply (f_equal (@rev N)) in H.
  rewrite !rev_app_distr in H. simpl in H.
  rewrite <- !app_assoc in H. simpl in H.
  apply head_split in H.
  - apply (f_equal (@rev N)) in H. rewrite !rev_involutive in H. exact H.
  - intros Hin. apply Hb. apply in_rev. exact Hin.
  - intros Hin. apply Hb'. apply in_rev. exact Hin.
Qed.

(** *** [trim] *)

Lemma dropWhile_head (p : N -> bool) (c : N) (s : jsstring) :
  p c = false -> dropWhile p (c :: s) = c :: s.
Proof. intros H. simpl. rewrite H. reflexivity. Qed.


(** *** The matcher *)

Lemma run_star_sound (p : N -> bool) (s rest : jsstring) :
  In rest (run_star p s) ->
  exists u, s = u ++ rest /\ Forall (fun c => p c = true) u.
Proof.
  induction s as [|c s IH]; simpl.
  - intros [<-|[]]. exists []. split; [reflexivity|constructor].
  - destruct (p c) eqn:Hc.
    + intros H. apply in_app_or in H as [H|[<-|[]]].
      * destruct (IH H) as (u & -> & Hu).
        exists (c :: u). split; [reflexivity|constructor; assumption].
      * exists []. split; [reflexivity|constructor].
    + intros [<-|[]]. exists []. split; [reflexivity|constructor].
Qed.

Lemma run_sound (r : regex) (s rest : jsstring) :
  In rest (run r s) -> exists u, s = u ++ rest /\ matches r u.
Proof.
  revert s rest; induction r as [|c|p|r1 IH1 r2 IH2|r1 IH1|p|p];
    intros s rest; simpl.
  - intros [<-|[]]. exists []. auto.
  - destruct s as [|x s]; [intros []|].
    destruct (N.eqb_spec x c) as [->|_]; [|intros []].
    intros [<-|[]]. exists [c]. auto.
  - destruct s as [|x s]; [intros []|].
    destruct (p x) eqn:Hx; [|intros []].
    intros [<-|[]]. exists [x]. split; [reflexivity|]. exists x. auto.
  - intros H. apply in_flat_map in H as (mid & H1 & H2).
    destruct (IH1 _ _ H1) as (u1 & -> & Hu1).
    destruct (IH2 _ _ H2) as (u2 & -> & Hu2).
    exists (u1 ++ u2). rewrite app_assoc. split; [reflexivity|].
    exists u1, u2. auto.
  - intros H. apply in_app_or in H as [H|[<-|[]]].
    + destruct (IH1 _ _ H) as (u & -> & Hu). exists u. auto.
    + exists []. auto.
  - apply run_star_sound.
  - destruct s as [|x s]; [intros []|].
    destruct (p x) eqn:Hx; [|intros []].
    intros H. destruct (run_star_sound _ _ _ H) as (u & -> & Hu).
    exists (x :: u). split; [reflexivity|].
    split; [discriminate|constructor; assumption].
Qed.

Lemma consumed_app (u rest : jsstring) : consumed (u ++ rest) rest = u.
Proof.
  unfold consumed. rewrite length_app.
  replace (length u + length rest - length rest) with (length u) by lia.
  rewrite firstn_app, firstn_all, Nat.sub_diag. simpl. apply app_nil_r.
Qed.

Lemma hd_error_In {A} (l : list A) (a : A) : hd_error l = Some a -> In a l.
Proof. destruct l; simpl; [discriminate|]. intros [= ->]. left. reflexivity. Qed.

Lemma match_here_sound (pt : pattern) (s g : jsstring) :
  match_here pt s = Some g -> matches (group pt) g.
Proof.
  unfold match_here. intros H. apply hd_error_In in H.
  apply in_flat_map in H as (s1 & _ & H).
  apply in_map_iff in H as (rest & <- & H).
  destruct (run_sound _ _ _ H) as (u & -> & Hu).
  rewrite consumed_app. exact Hu.
Qed.

(** The captured group is a string its sub-pattern matches. *)
Lemma match_group_sound (pt : pattern) (s g : jsstring) :
  match_group pt s = Some g -> matches (group pt) g.
Proof.
  induction s as [|c s IH]; simpl.
  - destruct (match_here pt []) eqn:E; [|discriminate].
    intros [= ->]. eapply match_here_sound, E.
  - destruct (match_here pt (c :: s)) eqn:E; [|exact IH].
    intros [= ->]. eapply match_here_sound, E.
Qed.

(** A pattern whose group starts with [\d+] finds nothing in a string
    without a digit. *)
Lemma run_plus_no_digit (s : jsstring) :
  no_digit s -> run (Plus is_digit) s = [].
Proof.
  intros H. destruct s as [|c s]; simpl; [reflexivity|].
  inversion H as [|? ? Hc _]; subst. rewrite Hc. reflexivity.
Qed.

Lemma run_keeps_no_digit (r : regex) (s rest : jsstring) :
  no_digit s -> In rest (run r s) -> no_digit rest.
Proof.
  intros Hs H. destruct (run_sound _ _ _ H) as (u & -> & _).
  apply Forall_app in Hs. apply Hs.
Qed.

Lemma flat_map_nil {A B} (f : A -> list B) (l : list A) :
  (forall a, In a l -> f a = []) -> flat_map f l = [].
Proof.
  induction l as [|a l IH]; simpl; intros H; [reflexivity|].
  rewrite (H a) by (left; reflexivity). simpl. apply IH.
  intros b Hb. apply H. right. exact Hb.
Qed.

Lemma match_here_no_digit (ld gr : regex) (s : jsstring) :
  no_digit s ->
  match_here (Pattern ld (Seq (Plus is_digit) gr)) s = None.
Proof.
  intros Hs. unfold match_here. cbn [lead group].
  rewrite flat_map_nil; [reflexivity|].
  intros s1 H1.
  change (run (Seq (Plus is_digit) gr) s1)
    with (flat_map (run gr) (run (Plus is_digit) s1)).
  rewrite (run_plus_no_digit _ (run_keeps_no_digit _ _ _ Hs H1)). reflexivity.
Qed.

Lemma match_group_no_digit (ld gr : regex) (s : jsstring) :
  no_digit s ->
  match_group (Pattern ld (Seq (Plus is_digit) gr)) s = None.
Proof.
  induction s as [|c s IH]; intros Hs; simpl;
    rewrite match_here_no_digit by exact Hs; [reflexivity|].
  apply IH. inversion Hs; assumption.
Qed.

(** *** [parseInt] on a run of digits *)

Lemma takeWhile_all (p : N -> bool) (s : jsstring) :
  Forall (fun c => p c = true) s -> takeWhile p s = s.
Proof.
  induction 1 as [|c s Hc _ IH]; simpl; [reflexivity|].
  rewrite Hc, IH. reflexivity.
Qed.

Lemma decimal_value_from (s : jsstring) (acc : Z) :
  all_digits s -> (0 <= acc)%Z ->
  (0 <= fold_left (fun a c => 10 * a + digit_value c) s acc)%Z.
Proof.
  intros H; revert acc; induction H as [|c s Hc _ IH]; cbn [fold_left];
    intros acc Ha.
  - exact Ha.
  - apply IH. unfold is_digit in Hc.
    apply andb_true_iff in Hc as [H1 _]. apply N.leb_le in H1.
    unfold digit_value. lia.
Qed.

Lemma decimal_value_nonneg (s : jsstring) :
  all_digits s -> (0 <= decimal_value s)%Z.
Proof. intros H. apply decimal_value_from; [exact H|lia]. Qed.

Lemma digit_facts (c : N) :
  is_digit c = true ->
  (c =? 45)%N = false /\ (c =? 43)%N = false /\ (c =? 120)%N = false
  /\ (c =? 88)%N = false.
Proof.
  unfold is_digit. intros H. apply andb_true_iff in H as [H1 H2].
  apply N.leb_le in H1, H2.
  repeat split; apply N.eqb_neq; lia.
Qed.

Lemma parseInt_digits (s : jsstring) :
  s <> [] -> all_digits s -> parseInt s = toNumber (decimal_value s).
Proof.
  intros Hne H. destruct s as [|c s]; [contradiction|].
  inversion H as [|? ? Hc Hs]; subst.
  unfold parseInt.
  rewrite dropWhile_head by (apply digit_not_space, Hc).
  destruct (digit_facts c Hc) as (E1 & E2 & _).
  rewrite E1, E2.
  assert (D : parseInt_decimal (c :: s) = Some (decimal_value (c :: s))).
  { unfold parseInt_decimal. rewrite takeWhile_all by exact H. reflexivity. }
  unfold parseInt_unsigned.
  destruct s as [|x s']; [rewrite D; reflexivity|].
  inversion Hs as [|? ? Hx _]; subst.
  destruct (digit_facts x Hx) as (_ & _ & E3 & E4).
  rewrite E3, E4, andb_false_r, D. reflexivity.
Qed.

(** [Number.parseInt] rounds: beyond 2^53 not every integer is a double,
    and beyond the largest double the value is [Infinity]. *)
Lemma parseInt_rounds :
  parseInt (lit "9007199254740993") = Int 9007199254740992
  /\ parseInt (lit "90071992547409925") = Int 90071992547409920
  /\ parseInt (lit "1" ++ repeat 48%N 308) = Int (round53 (10 ^ 308))
  /\ parseInt (lit "1" ++ repeat 48%N 309) = Inf false.
Proof. repeat split; vm_compute; reflexivity. Qed.

End JSFacts.

(* ================================================================= *)
(** ** Facts about the extraction *)

Module ExtractionFacts.
Import JS Scraper Vocabulary NumberFacts JSFacts.

Lemma replace1_skip (c : N) (u v : jsstring) :
  ~ In c u -> replace1 c (u ++ v) = u ++ replace1 c v.
Proof.
  induction u as [|x u IH]; simpl; intros H; [reflexivity|].
  destruct (N.eqb_spec x c) as [->|_].
  - exfalso. apply H. left. reflexivity.
  - rewrite IH; [reflexivity|]. intros Hin. apply H. right. exact Hin.
Qed.

Lemma replace1_head (c : N) (v : jsstring) : replace1 c (c :: v) = v.
Proof. simpl. rewrite N.eqb_refl. reflexivity. Qed.

Lemma digits_without (sep : N) (u : jsstring) :
  is_digit sep = false -> all_digits u -> ~ In sep u.
Proof.
  intros Hsep Hu Hin. unfold all_digits in Hu. rewrite Forall_forall in Hu.
  rewrite (Hu _ Hin) in Hsep. discriminate.
Qed.

(** What [\d+(?:sep\d+)?] captures, with its separator taken out, is a
    non-empty run of digits. *)
Lemma price_group_digits (sep : N) (g : jsstring) :
  is_digit sep = false ->
  matches (Seq (Plus is_digit) (Opt (Seq (Chr sep) (Plus is_digit)))) g ->
  replace1 sep g <> [] /\ all_digits (replace1 sep g).
Proof.
  intros Hsep (u1 & u2 & -> & (Hne & Hu1) & Hopt).
  rewrite replace1_skip by (apply digits_without; assumption).
  destruct Hopt as [->|(v1 & v2 & -> & -> & _ & Hv2)].
  - simpl. rewrite app_nil_r. split; [exact Hne|exact Hu1].
  - change ([sep] ++ v2) with (sep :: v2). rewrite replace1_head. split.
    + destruct u1; [contradiction|discriminate].
    + apply Forall_app. split; [exact Hu1|exact Hv2].
Qed.

(** The price is the Number value of a natural number, whatever the
    text. *)
Lemma parsePrice_nat (re : pattern) (sep : N) (priceText : option jsstring) :
  is_digit sep = false ->
  group re = Seq (Plus is_digit) (Opt (Seq (Chr sep) (Plus is_digit))) ->
  natural (parsePrice re sep priceText).
Proof.
  intros Hsep Hre. unfold parsePrice.
  destruct priceText as [t|]; [|apply natural_Int; split; [lia|reflexivity]].
  destruct (match_group re t) as [g|] eqn:E;
    [|apply natural_Int; split; [lia|reflexivity]].
  apply match_group_sound in E. rewrite Hre in E.
  destruct (price_group_digits sep g Hsep E) as [Hne Hd].
  exists (decimal_value (replace1 sep g)). split.
  - apply decimal_value_nonneg, Hd.
  - apply parseInt_digits; assumption.
Qed.

Lemma parariusPrice_nat (priceText : option jsstring) :
  natural (parariusPrice priceText).
Proof. apply parsePrice_nat; reflexivity. Qed.

Lemma fundaPrice_nat (priceText : option jsstring) :
  natural (fundaPrice priceText).
Proof. apply parsePrice_nat; reflexivity. Qed.

(** The number of rooms is the Number value of a natural number, whatever
    the text. *)
Lemma parseRooms_nat (roomsText : option jsstring) :
  natural (parseRooms roomsText).
Proof.
  unfold parseRooms.
  destruct roomsText as [t|]; [|apply natural_Int; split; [lia|reflexivity]].
  destruct (match_group roomsRe t) as [g|] eqn:E;
    [|apply natural_Int; split; [lia|reflexivity]].
  apply match_group_sound in E. destruct E as [Hne Hd].
  exists (decimal_value g). split.
  - apply decimal_value_nonneg, Hd.
  - apply parseInt_digits; assumption.
Qed.

(** Without a digit in the text the price is 0. *)
Lemma parsePrice_no_digit (ld gr : regex) (sep : N) (t : jsstring) :
  no_digit t ->
  parsePrice (Pattern ld (Seq (Plus is_digit) gr)) sep (Some t) = Int 0.
Proof.
  intros H. unfold parsePrice.
  rewrite match_group_no_digit by exact H. reflexivity.
Qed.

(** *** [type] and [deposit] *)

Lemma typeOf_cases (n : Z) :
  (typeOf (Int n) = lit "Studio" <-> n = 1%Z)
  /\ (typeOf (Int n) = lit "Apartment" <-> (n <= 2)%Z /\ n <> 1%Z)
  /\ (typeOf (Int n) = lit "House" <-> (2 < n)%Z).
Proof.
  unfold typeOf, num_eq, num_le.
  destruct (Z.eqb_spec n 1) as [->|Hn1].
  - repeat split; try reflexivity; try discriminate; intros; lia.
  - destruct (Z.leb_spec n 2) as [Hle|Hgt].
    + repeat split; try reflexivity; try discriminate; try assumption;
        intros; lia.
    + repeat split; try reflexivity; try discriminate; try assumption;
        intros; lia.
Qed.

(** [type] for a number of rooms that is not negative (nor [NaN]). *)
Lemma typeOf_natural (x : number) :
  natural x ->
  (typeOf x = lit "Studio" <-> x = Int 1)
  /\ (typeOf x = lit "Apartment" <-> x = Int 2 \/ x = Int 0)
  /\ (typeOf x = lit "House" <-> num_gt x (Int 2) = true).
Proof.
  intros H. destruct (natural_cases x H) as [(n & -> & Hn & _)| ->].
  - destruct (typeOf_cases n) as (Hs & Ha & Hh).
    split; [|split].
    + rewrite Hs. split; [intros ->; reflexivity|congruence].
    + rewrite Ha. split.
      * intros [H1 H2].
        assert (C : n = 2%Z \/ n = 0%Z) by lia.
        destruct C as [-> | ->]; auto.
      * intros [E|E]; injection E as ->; lia.
    + rewrite Hh. unfold num_gt. symmetry. apply Z.ltb_lt.
  - split; [|split]; split; try discriminate; try reflexivity.
    intros [E|E]; discriminate.
Qed.

(** [deposit] for a price that is not negative (nor [NaN]). *)
Lemma depositOf_natural (x : number) :
  natural x ->
  (x = Int 0 -> depositOf x = Int 1000)
  /\ (forall n, x = Int n -> (0 < n < 2 ^ 1023)%Z ->
         depositOf x = Int (2 * n))
  /\ (forall n, x = Int n -> (2 ^ 1023 <= n)%Z -> depositOf x = Inf false)
  /\ (x = Inf false -> depositOf x = Inf false)
  /\ num_gt (depositOf x) (Int 0) = true.
Proof.
  intros H. destruct (natural_cases x H) as [(n & -> & Hn & Hr)| ->].
  - assert (P : (0 < 2 ^ 1023)%Z) by reflexivity.
    unfold depositOf. cbn [num_gt].
    destruct (Z.ltb_spec 0 n) as [Hpos|Hle].
    + rewrite (twice_natural n) by (try exact Hr; lia).
      split; [intros E; injection E as ->; lia|].
      split; [|split; [|split; [discriminate|]]].
      * intros m E Hm. injection E as <-.
        destruct (Z.leb_spec (2 ^ 1023) n); [lia|reflexivity].
      * intros m E Hm. injection E as <-.
        destruct (Z.leb_spec (2 ^ 1023) n); [reflexivity|lia].
      * destruct (Z.leb_spec (2 ^ 1023) n); [reflexivity|].
        cbn [num_gt]. apply Z.ltb_lt. lia.
    + split; [reflexivity|].
      split; [|split; [|split; [discriminate|reflexivity]]].
      * intros m E Hm. injection E as <-. lia.
      * intros m E Hm. injection E as <-. lia.
  - unfold depositOf. cbn.
    split; [discriminate|].
    split; [discriminate|]. split; [discriminate|].
    split; reflexivity.
Qed.

(** *** Identifiers *)

Lemma Z_toString_nonempty (z : Z) : Z_toString z <> [].
Proof.
  destruct z; simpl; try apply N_toString_nonempty. discriminate.
Qed.

Lemma id_index (pre pre' : jsstring) (t t' : Z) (i i' : nat) :
  pre ++ Z_toString t ++ [dash] ++ N_toString (N.of_nat i)
  = pre' ++ Z_toString t' ++ [dash] ++ N_toString (N.of_nat i') ->
  i = i'.
Proof.
  intros H. rewrite !app_assoc in H. rewrite <- !app_assoc in H.
  replace (pre ++ Z_toString t ++ [dash] ++ N_toString (N.of_nat i))
    with ((pre ++ Z_toString t) ++ dash :: N_toString (N.of_nat i)) in H
    by (rewrite <- app_assoc; reflexivity).
  replace (pre' ++ Z_toString t' ++ [dash] ++ N_toString (N.of_nat i'))
    with ((pre' ++ Z_toString t') ++ dash :: N_toString (N.of_nat i')) in H
    by (rewrite <- app_assoc; reflexivity).
  apply tail_split in H;
    try (apply all_digits_no_dash, N_toString_digits).
  apply N_toString_inj in H. lia.
Qed.

Lemma parariusId_index (t t' : Z) (i i' : nat) :
  parariusId t i = parariusId t' i' -> i = i'.
Proof. apply id_index. Qed.

Lemma fundaId_index (t t' : Z) (i i' : nat) :
  fundaId t i = fundaId t' i' -> i = i'.
Proof. apply id_index. Qed.

Lemma parariusId_not_fundaId (t t' : Z) (i i' : nat) :
  parariusId t i <> fundaId t' i'.
Proof. unfold parariusId, fundaId. simpl. discriminate. Qed.

Lemma parariusRecord_id (i : nat) (p : Property) :
  parariusRecord i p -> exists t, id p = parariusId t i.
Proof.
  intros (? & ? & ? & ? & ? & ? & ? & t & ? & ? & ? & ? & ->).
  exists t. reflexivity.
Qed.

Lemma fundaRecord_id (i : nat) (p : Property) :
  fundaRecord i p -> exists t, id p = fundaId t i.
Proof.
  intros (? & ? & ? & ? & ? & ? & ? & t & ? & ? & ? & ? & ->).
  exists t. reflexivity.
Qed.

Lemma parariusRecord_sound (i : nat) (p : Property) :
  parariusRecord i p -> sound_record p.
Proof.
  intros (? & priceText & ? & ? & roomsText & ? & ? & t & r1 & ? & ? & ? & ->).
  repeat split; simpl.
  - apply parseRooms_nat.
  - apply parariusPrice_nat.
  - eexists. reflexivity.
  - discriminate.
Qed.

Lemma fundaRecord_sound (i : nat) (p : Property) :
  fundaRecord i p -> sound_record p.
Proof.
  intros (? & priceText & ? & ? & roomsText & ? & ? & t & r1 & ? & ? & ? & ->).
  repeat split; simpl.
  - apply parseRooms_nat.
  - apply fundaPrice_nat.
  - eexists. reflexivity.
  - discriminate.
Qed.

End ExtractionFacts.

(* ================================================================= *)
(** ** Facts about the scraper's runs *)

Module RunFacts.
Import JS Scraper Vocabulary JSFacts ExtractionFacts.

Ltac frames := unfold frame in *; simpl in *; intuition congruence.

Lemma frame_refl (s : State) : frame s s.
Proof. frames. Qed.

Lemma frame_trans (s1 s2 s3 : State) :
  frame s1 s2 -> frame s2 s3 -> frame s1 s3.
Proof. frames. Qed.

Create HintDb quiet.

(** *** Computations that leave resources and records alone *)

Lemma quiet_ret {A} (a : A) : quiet (ret a).
Proof. intros s. simpl. split; [frames|reflexivity]. Qed.

Lemma quiet_throw {A} : quiet (@throw A).
Proof. intros s. simpl. split; [frames|reflexivity]. Qed.

Lemma quiet_await {A} (o : outcome A) : quiet (await o).
Proof. intros s. simpl. split; [frames|reflexivity]. Qed.

Lemma quiet_now (w : World) : quiet (now w).
Proof. intros s. simpl. split; [frames|reflexivity]. Qed.

Lemma quiet_rand (w : World) : quiet (rand w).
Proof. intros s. simpl. split; [frames|reflexivity]. Qed.

Lemma quiet_bind {A B} (m : M A) (k : A -> M B) :
  quiet m -> (forall a, quiet (k a)) -> quiet (bind m k).
Proof.
  intros Hm Hk s. unfold bind. specialize (Hm s).
  destruct (m s) as [[a|] s1]; simpl in *; [|exact Hm].
  specialize (Hk a s1). destruct Hm as [F1 P1], Hk as [F2 P2].
  split; [eapply frame_trans; eassumption|congruence].
Qed.

Lemma quiet_try_catch {A} (m h : M A) :
  quiet m -> quiet h -> quiet (try_catch m h).
Proof.
  intros Hm Hh s. unfold try_catch. specialize (Hm s).
  destruct (m s) as [[a|] s1]; simpl in *; [exact Hm|].
  specialize (Hh s1). destruct Hm as [F1 P1], Hh as [F2 P2].
  split; [eapply frame_trans; eassumption|congruence].
Qed.

#[local] Hint Resolve quiet_ret quiet_throw quiet_await quiet_now quiet_rand
  quiet_bind quiet_try_catch : quiet.

Lemma quiet_textOr (h : option text) (dflt : jsstring) :
  quiet (textOr h dflt).
Proof. destruct h; simpl; auto with quiet. Qed.

Lemma quiet_elementAt (els : list Element) (i : nat) :
  quiet (elementAt els i).
Proof. unfold elementAt. destruct (nth_error els i); auto with quiet. Qed.

Lemma quiet_takeScreenshot (w : World) (prefix : jsstring) (i : nat)
    (imageElement : option (outcome unit)) :
  quiet (takeScreenshot w prefix i imageElement).
Proof.
  unfold takeScreenshot. destruct imageElement; auto 10 with quiet.
Qed.

Lemma quiet_ensureDirectoryExists (site : Site) :
  quiet (ensureDirectoryExists site).
Proof. unfold ensureDirectoryExists. auto with quiet. Qed.

#[local] Hint Resolve quiet_textOr quiet_elementAt quiet_takeScreenshot
  quiet_ensureDirectoryExists : quiet.

(** *** One iteration of a loop *)

Lemma appends_after_quiet {A} (R : Property -> Prop) (m : M A)
    (k : A -> M unit) :
  quiet m -> (forall a, appends R (k a)) -> appends R (bind m k).
Proof.
  intros Hm Hk s. unfold bind. specialize (Hm s).
  destruct (m s) as [[a|] s1]; simpl in *.
  - specialize (Hk a s1). destruct Hm as [F1 P1], Hk as [F2 P2].
    split; [eapply frame_trans; eassumption|].
    rewrite <- P1. exact P2.
  - destruct Hm as [F1 P1]. split; [exact F1|left; exact P1].
Qed.

Lemma appends_push (R : Property -> Prop) (p : Property) (m : M unit) :
  R p -> quiet m -> appends R (bind (push p) (fun _ => m)).
Proof.
  intros Hp Hm s. unfold bind, push.
  specialize (Hm (set_properties (properties s ++ [p]) s)).
  destruct Hm as [F P]. split; [frames|].
  right. exists p. split; [exact Hp|exact P].
Qed.

Lemma appends_caught (R : Property -> Prop) (m : M unit) :
  appends R m -> appends R (try_catch m (ret tt)).
Proof.
  intros Hm s. unfold try_catch. specialize (Hm s).
  destruct (m s) as [[a|] s1]; exact Hm.
Qed.

(** No exception leaves an iteration: the [catch] of the loop body takes
    them all. *)
Lemma caught_returns (m : M unit) (s : State) :
  fst (try_catch m (ret tt) s) = Returns tt.
Proof.
  unfold try_catch. destruct (m s) as [[[]|] s1]; reflexivity.
Qed.

Ltac iteration :=
  repeat (apply appends_after_quiet; [solve [auto with quiet]|intros ?]).

Lemma parariusElement_appends (w : World) (els : list Element) (i : nat) :
  appends (parariusRecord i) (parariusElement w els i).
Proof.
  unfold parariusElement. iteration.
  apply appends_push; [|auto with quiet].
  unfold parariusRecord. do 12 eexists. reflexivity.
Qed.

Lemma fundaElement_appends (w : World) (els : list Element) (i : nat) :
  appends (fundaRecord i) (fundaElement w els i).
Proof.
  unfold fundaElement. iteration.
  apply appends_push; [|auto with quiet].
  unfold fundaRecord. do 12 eexists. reflexivity.
Qed.

(** *** The loop *)

Lemma for_loop_trail (R : nat -> Property -> Prop) (body : nat -> M unit) :
  (forall i, appends (R i) (body i)) ->
  (forall i s, fst (body i s) = Returns tt) ->
  forall n from s,
    fst (for_loop n from body s) = Returns tt
    /\ frame s (snd (for_loop n from body s))
    /\ exists l,
         properties (snd (for_loop n from body s)) = properties s ++ l
         /\ trail R from n l.
Proof.
  intros Happ Hret. induction n as [|n IH]; intros from s.
  - simpl. split; [reflexivity|]. split; [apply frame_refl|].
    exists []. rewrite app_nil_r. split; [reflexivity|constructor].
  - cbn [for_loop]. unfold bind.
    specialize (Hret from s). specialize (Happ from s).
    destruct (body from s) as [[[]|] s1]; simpl in Hret; [|discriminate].
    simpl in Happ. destruct Happ as [F1 P1].
    destruct (IH (S from) s1) as (E & F2 & l & P2 & T).
    split; [exact E|]. split; [eapply frame_trans; eassumption|].
    destruct P1 as [P1|(p & Hp & P1)].
    + exists l. rewrite P2, P1. split; [reflexivity|].
      apply trail_skip. exact T.
    + exists (p :: l). rewrite P2, P1, <- app_assoc. split; [reflexivity|].
      apply trail_push; assumption.
Qed.

Lemma trail_length (R : nat -> Property -> Prop) (from n : nat)
    (l : list Property) :
  trail R from n l -> length l <= n.
Proof. induction 1; simpl; lia. Qed.

Lemma trail_indexed (R : nat -> Property -> Prop) (from n : nat)
    (l : list Property) :
  trail R from n l ->
  Forall (fun p => exists i, from <= i < from + n /\ R i p) l.
Proof.
  induction 1 as [from|from n l _ IH|from n p l Hp _ IH].
  - constructor.
  - eapply Forall_impl; [|exact IH].
    intros q (i & Hi & Hq). exists i. split; [lia|exact Hq].
  - constructor.
    + exists from. split; [lia|exact Hp].
    + eapply Forall_impl; [|exact IH].
      intros q (i & Hi & Hq). exists i. split; [lia|exact Hq].
Qed.

Lemma trail_Forall (R : nat -> Property -> Prop) (Q : Property -> Prop)
    (from n : nat) (l : list Property) :
  (forall i p, R i p -> Q p) -> trail R from n l -> Forall Q l.
Proof.
  intros H T. eapply Forall_impl; [|apply (trail_indexed _ _ _ _ T)].
  intros p (i & _ & Hp). eapply H, Hp.
Qed.

(** Records of different iterations have different identifiers as soon as
    the identifier determines the iteration. *)
Lemma trail_NoDup (R : nat -> Property -> Prop) (from n : nat)
    (l : list Property) :
  (forall i j p q, R i p -> R j q -> id p = id q -> i = j) ->
  trail R from n l -> NoDup (map id l).
Proof.
  intros Hkey. induction 1 as [from|from n l _ IH|from n p l Hp T IH].
  - constructor.
  - exact IH.
  - simpl. constructor; [|exact IH].
    intros Hin. apply in_map_iff in Hin as (q & Hid & Hq).
    pose proof (trail_indexed _ _ _ _ T) as HF.
    rewrite Forall_forall in HF. destruct (HF q Hq) as (j & Hj & Rq).
    assert (j = from) by (eapply Hkey; eassumption). lia.
Qed.

(** *** The listing of one source *)

Lemma collects_after_quiet {A} (R : nat -> Property -> Prop) (cap : nat)
    (m : M A) (k : A -> M (list Property)) :
  quiet m -> (forall a, collects R cap (k a)) -> collects R cap (bind m k).
Proof.
  intros Hm Hk s. unfold bind. specialize (Hm s).
  destruct (m s) as [[a|] s1]; simpl in *.
  - specialize (Hk a s1). destruct Hm as [F1 P1], Hk as [F2 Hk].
    split; [eapply frame_trans; eassumption|].
    rewrite <- P1. exact Hk.
  - destruct Hm as [F1 P1]. split; [exact F1|].
    exists 0, []. rewrite app_nil_r.
    repeat split; [lia|constructor|exact P1|discriminate].
Qed.

Lemma collects_loop (R : nat -> Property -> Prop) (cap len : nat)
    (body : nat -> M unit) :
  (forall i, appends (R i) (body i)) ->
  (forall i s, fst (body i s) = Returns tt) ->
  collects R cap
    (bind (for_loop (Nat.min len cap) 0 body) (fun _ => returnProperties)).
Proof.
  intros Happ Hret s. unfold bind.
  destruct (for_loop_trail R body Happ Hret (Nat.min len cap) 0 s)
    as (E & F & l & P & T).
  destruct (for_loop (Nat.min len cap) 0 body s) as [[[]|] s1];
    simpl in E; [|discriminate].
  simpl in *. split; [exact F|].
  exists (Nat.min len cap), l.
  repeat split; [lia|exact T|exact P|].
  intros l0 [= <-]. exact P.
Qed.

Ltac listing :=
  repeat (apply collects_after_quiet; [solve [auto with quiet]|intros ?]).

Lemma parariusListing_collects (w : World) :
  collects parariusRecord 20 (parariusListing w).
Proof.
  unfold parariusListing. listing. apply collects_loop.
  - intros i. apply appends_caught, parariusElement_appends.
  - intros i s. apply caught_returns.
Qed.

Lemma fundaListing_collects (w : World) :
  collects fundaRecord 15 (fundaListing w).
Proof.
  unfold fundaListing. listing. apply collects_loop.
  - intros i. apply appends_caught, fundaElement_appends.
  - intros i s. apply caught_returns.
Qed.

(** *** The per-source scrape *)

Lemma initBrowser_session (w : World) (s s0 : State) :
  initBrowser w s = (Returns tt, s0) ->
  exists b, browser s0 = Some b.
Proof.
  unfold initBrowser. destruct (browser s) as [b|] eqn:E.
  - intros [= <-]. exists b. exact E.
  - destruct (launch w); [|discriminate].
    intros [= <-]. exists (launched s). reflexivity.
Qed.

Lemma initBrowser_held (w : World) (s : State) (b : nat) :
  browser s = Some b -> initBrowser w s = (Returns tt, s).
Proof. unfold initBrowser. intros ->. reflexivity. Qed.

Lemma initBrowser_failed (w : World) (s s0 : State) :
  initBrowser w s = (Throws, s0) -> s0 = s /\ browser s = None.
Proof.
  unfold initBrowser. destruct (browser s); [discriminate|].
  destruct (launch w); [discriminate|]. intros [= <-]. auto.
Qed.

(** The common frame of the two per-source operations, evaluated when the
    page opens. *)
Lemma scrape_eval (w : World) (site : Site) (listing : M (list Property))
    (s s0 : State) :
  initBrowser w s = (Returns tt, s0) ->
  newPage site = Returns tt ->
  bind (initBrowser w) (fun _ =>
    bind (openPage site) (fun _ =>
      bind newProperties (fun _ =>
        try_finally (try_catch listing (ret [])) closePage))) s
  = (match fst (listing (on_page s0)) with
     | Returns l => Returns l
     | Throws => Returns []
     end,
     off_page (snd (listing (on_page s0)))).
Proof.
  intros Hinit Hpage.
  destruct (initBrowser_session _ _ _ Hinit) as [b Hb].
  unfold bind at 1. rewrite Hinit.
  unfold bind, openPage, newProperties, try_finally, try_catch, closePage.
  rewrite Hb, Hpage. fold (on_page s0).
  destruct (listing (on_page s0)) as [[l|] s3]; reflexivity.
Qed.

(** The common frame when the page does not open: nothing is returned. *)
Lemma scrape_unopened (w : World) (site : Site)
    (listing : M (list Property)) (s : State) :
  fst (initBrowser w s) = Throws \/ newPage site = Throws ->
  bind (initBrowser w) (fun _ =>
    bind (openPage site) (fun _ =>
      bind newProperties (fun _ =>
        try_finally (try_catch listing (ret [])) closePage))) s
  = (Throws, snd (initBrowser w s)).
Proof.
  intros H. unfold bind at 1.
  destruct (initBrowser w s) as [[[]|] s0] eqn:Hinit; [|reflexivity].
  destruct H as [H|H]; [discriminate|].
  destruct (initBrowser_session _ _ _ Hinit) as [b Hb].
  unfold bind, openPage. rewrite Hb, H. reflexivity.
Qed.

Lemma scrape_shape (w : World) (site : Site) (listing : M (list Property))
    (R : nat -> Property -> Prop) (cap : nat) (s : State) :
  collects R cap listing ->
  let r :=
    bind (initBrowser w) (fun _ =>
      bind (openPage site) (fun _ =>
        bind newProperties (fun _ =>
          try_finally (try_catch listing (ret [])) closePage))) s in
  frame (snd (initBrowser w s)) (snd r)
  /\ forall l, fst r = Returns l -> exists n, n <= cap /\ trail R 0 n l.
Proof.
  intros Hc r. subst r.
  destruct (initBrowser w s) as [[[]|] s0] eqn:Hinit;
    [destruct (newPage site) as [[]|] eqn:Hpage|].
  - rewrite (scrape_eval w site listing s s0 Hinit Hpage). simpl.
    destruct (Hc (on_page s0)) as (F & n & l & Hn & T & P & Hl).
    split.
    { unfold off_page, on_page, frame in *. simpl in *.
      destruct F as (Fb & Fl & Fc & Fp). rewrite Fp. auto. }
    destruct (listing (on_page s0)) as [[l1|] s3]; simpl in *.
    + intros l0 [= <-]. rewrite (Hl l1 eq_refl). exists n. auto.
    + intros l0 [= <-]. exists 0. split; [lia|constructor].
  - rewrite scrape_unopened by (right; exact Hpage).
    rewrite Hinit. simpl. split; [apply frame_refl|discriminate].
  - rewrite scrape_unopened by (left; rewrite Hinit; reflexivity).
    rewrite Hinit. simpl. split; [apply frame_refl|discriminate].
Qed.

Lemma scrapePararius_shape (w : World) (s : State) :
  frame (snd (initBrowser w s)) (snd (scrapeParariusWithScreenshots w s))
  /\ forall l, fst (scrapeParariusWithScreenshots w s) = Returns l ->
       exists n, n <= 20 /\ trail parariusRecord 0 n l.
Proof.
  apply (scrape_shape w (pararius w) (parariusListing w) parariusRecord 20 s).
  apply parariusListing_collects.
Qed.

Lemma scrapeFunda_shape (w : World) (s : State) :
  frame (snd (initBrowser w s)) (snd (scrapeFundaWithScreenshots w s))
  /\ forall l, fst (scrapeFundaWithScreenshots w s) = Returns l ->
       exists n, n <= 15 /\ trail fundaRecord 0 n l.
Proof.
  apply (scrape_shape w (funda w) (fundaListing w) fundaRecord 15 s).
  apply fundaListing_collects.
Qed.

End RunFacts.

(* ================================================================= *)
(** ** Facts about the sort and about [scrapeAllWithScreenshots] *)

Module AllFacts.
Import JS Scraper Vocabulary NumberFacts JSFacts ExtractionFacts RunFacts.

Lemma insert_perm {A} (cmp : A -> A -> number) (x : A) (l : list A) :
  Permutation (x :: l) (insert cmp x l).
Proof.
  induction l as [|y l IH]; simpl; [reflexivity|].
  destruct (num_gt (cmp x y) (Int 0)); [|reflexivity].
  rewrite perm_swap. constructor. exact IH.
Qed.

Lemma sort_perm {A} (cmp : A -> A -> number) (l : list A) :
  Permutation l (sort cmp l).
Proof.
  induction l as [|x l IH]; simpl; [constructor|].
  rewrite <- insert_perm. constructor. exact IH.
Qed.

Lemma days_le_trans (a b c : Property) :
  days_le a b -> days_le b c -> days_le a c.
Proof.
  unfold days_le, num_le.
  destruct (listedDays a) as [x|[]|], (listedDays b) as [y|[]|],
    (listedDays c) as [z|[]|]; simpl; intros H1 H2;
    try discriminate; try reflexivity.
  apply Z.leb_le in H1, H2. apply Z.leb_le. lia.
Qed.

(** The comparator puts [a] after [b] exactly when [a] is listed for
    longer. *)
Lemma byListedDays_after (a b : Property) :
  has_days a -> has_days b ->
  if num_gt (byListedDays a b) (Int 0)
  then days_le b a
  else days_le a b.
Proof.
  intros [x Hx] [y Hy]. unfold byListedDays, days_le. rewrite Hx, Hy.
  cbn [num_sub num_le]. rewrite toNumber_positive.
  destruct (Z.ltb_spec 0 (x - y)); apply Z.leb_le; lia.
Qed.

Lemma insert_HdRel (y x : Property) (l : list Property) :
  days_le y x -> HdRel days_le y l -> HdRel days_le y (insert byListedDays x l).
Proof.
  intros Hyx H. destruct l as [|z l]; simpl.
  - constructor. exact Hyx.
  - destruct (num_gt (byListedDays x z) (Int 0)).
    + inversion H; subst. constructor. assumption.
    + constructor. exact Hyx.
Qed.

Lemma insert_sorted (x : Property) (l : list Property) :
  has_days x -> Forall has_days l -> Sorted days_le l ->
  Sorted days_le (insert byListedDays x l).
Proof.
  intros Hx Hl Hs. induction l as [|y l IH]; simpl.
  - repeat constructor.
  - inversion Hl as [|? ? Hy Hl']; subst.
    inversion Hs as [|? ? Hs' Hd]; subst.
    pose proof (byListedDays_after x y Hx Hy) as Hcmp.
    destruct (num_gt (byListedDays x y) (Int 0)).
    + constructor; [apply IH; assumption|].
      apply insert_HdRel; assumption.
    + constructor; [exact Hs|]. constructor. exact Hcmp.
Qed.

Lemma sort_sorted (l : list Property) :
  Forall has_days l -> Sorted days_le (sort byListedDays l).
Proof.
  induction 1 as [|x l Hx Hl IH]; simpl; [constructor|].
  apply insert_sorted; [exact Hx| |exact IH].
  rewrite Forall_forall in *. intros p Hp. apply Hl.
  eapply Permutation_in; [symmetry; apply sort_perm|exact Hp].
Qed.

Lemma sort_strongly_sorted (l : list Property) :
  Forall has_days l -> StronglySorted days_le (sort byListedDays l).
Proof.
  intros H. apply Sorted_StronglySorted; [|apply sort_sorted, H].
  intros a b c. apply days_le_trans.
Qed.

(** What a normal return of [scrapeAllWithScreenshots] went through. *)
Lemma scrapeAll_returned (w : World) (s s' : State) (l : list Property) :
  scrapeAllWithScreenshots w s = (Returns l, s') ->
  exists s0 lp s1 lf s2,
    initBrowser w s = (Returns tt, s0)
    /\ scrapeParariusWithScreenshots w s0 = (Returns lp, s1)
    /\ scrapeFundaWithScreenshots w s1 = (Returns lf, s2)
    /\ l = sort byListedDays (lp ++ lf).
Proof.
  unfold scrapeAllWithScreenshots, try_finally. unfold bind at 1.
  destruct (initBrowser w s) as [[[]|] s0]; [|discriminate].
  cbv zeta. unfold bind, ret.
  destruct (scrapeParariusWithScreenshots w s0) as [[lp|] s1] eqn:Hp.
  - destruct (scrapeFundaWithScreenshots w s1) as [[lf|] s2] eqn:Hf.
    + destruct (closeBrowser s2) as [[[]|] s3]; [|discriminate].
      intros [= <- _]. exists s0, lp, s1, lf, s2.
      repeat split; assumption || reflexivity.
    + destruct (closeBrowser s2) as [[[]|] s3]; discriminate.
  - destruct (closeBrowser s1) as [[[]|] s3]; discriminate.
Qed.

Lemma sound_records_pararius (w : World) (s : State) (l : list Property) :
  fst (scrapeParariusWithScreenshots w s) = Returns l ->
  Forall sound_record l.
Proof.
  intros H. destruct (scrapePararius_shape w s) as [_ Hs].
  destruct (Hs l H) as (n & _ & T).
  eapply trail_Forall; [|exact T]. apply parariusRecord_sound.
Qed.

Lemma sound_records_funda (w : World) (s : State) (l : list Property) :
  fst (scrapeFundaWithScreenshots w s) = Returns l ->
  Forall sound_record l.
Proof.
  intros H. destruct (scrapeFunda_shape w s) as [_ Hs].
  destruct (Hs l H) as (n & _ & T).
  eapply trail_Forall; [|exact T]. apply fundaRecord_sound.
Qed.

Lemma sound_records_all (w : World) (s s' : State) (l : list Property) :
  scrapeAllWithScreenshots w s = (Returns l, s') ->
  Forall sound_record l.
Proof.
  intros H.
  destruct (scrapeAll_returned w s s' l H)
    as (s0 & lp & s1 & lf & s2 & _ & Hp & Hf & ->).
  assert (Hall : Forall sound_record (lp ++ lf)).
  { apply Forall_app. split.
    - apply (sound_records_pararius w s0). rewrite Hp. reflexivity.
    - apply (sound_records_funda w s1). rewrite Hf. reflexivity. }
  rewrite Forall_forall in *. intros p Hin. apply Hall.
  eapply Permutation_in; [symmetry; apply sort_perm|exact Hin].
Qed.

(** Every record of every operation is sound. *)
Lemma produced_sound (w : World) (s : State) (p : Property) :
  produced w s p -> sound_record p.
Proof.
  intros (l & s' & Hin & [H|[H|H]]).
  - pose proof (sound_records_pararius w s l) as HF.
    rewrite H in HF. specialize (HF eq_refl).
    rewrite Forall_forall in HF. auto.
  - pose proof (sound_records_funda w s l) as HF.
    rewrite H in HF. specialize (HF eq_refl).
    rewrite Forall_forall in HF. auto.
  - pose proof (sound_records_all w s s' l H) as HF.
    rewrite Forall_forall in HF. auto.
Qed.

End AllFacts.

(* ================================================================= *)
(** ** Facts about one element and about failures *)

Module FailureFacts.
Import JS Scraper Vocabulary JSFacts ExtractionFacts RunFacts AllFacts.

Lemma yields_textOr (q : query text) (dflt : jsstring) (v : option jsstring) :
  yields q dflt v -> exists h, q = Returns h /\ textOr h dflt = ret v.
Proof.
  destruct q as [[[x|]|]|]; simpl; intros H; try contradiction; subst.
  - exists (Some (Returns x)). split; reflexivity.
  - exists None. split; reflexivity.
Qed.

Lemma bind_returns {A B} (m : M A) (k : A -> M B) (a : A) (s : State) :
  m = ret a -> bind m k s = k a s.
Proof. intros ->. reflexivity. Qed.

Lemma bind_await {A B} (a : A) (k : A -> M B) (s : State) :
  bind (await (Returns a)) k s = k a s.
Proof. reflexivity. Qed.

(** The screenshot step with an image that cannot be captured: the
    exception is caught there and the path stays empty. *)
Lemma takeScreenshot_failed (w : World) (prefix : jsstring) (i : nat)
    (s : State) :
  takeScreenshot w prefix i (Some Throws) s
  = (Returns [], set_ticks (S (ticks s)) s).
Proof. reflexivity. Qed.

Ltac read_texts :=
  repeat match goal with
         | H : yields _ _ _ |- _ =>
             apply yields_textOr in H; destruct H as (? & ? & ?)
         end.

Ltac run_element Hnth el s :=
  rewrite Hnth; cbv beta iota;
  rewrite (bind_returns (ret el) _ el s eq_refl);
  repeat match goal with
         | E : _ = Returns _ |- _ => rewrite E
         end;
  repeat (rewrite bind_await; cbv beta);
  repeat match goal with
         | T : textOr _ _ = ret _ |- _ =>
             rewrite (bind_returns _ _ _ _ T); cbv beta; clear T
         end;
  unfold bind at 1; rewrite takeScreenshot_failed.

(** An element whose texts are read and whose screenshot fails leaves its
    record, with an empty screenshot path, whether or not the pause after it
    goes through. *)
Lemma parariusElement_pushes (w : World) (els : list Element) (i : nat)
    (el : Element)
    (title priceText location sizeText roomsText propertyUrl : option jsstring)
    (s : State) :
  nth_error els i = Some el ->
  reads (absentTitle Pararius i) el title priceText location sizeText
    roomsText propertyUrl ->
  q_image el = Returns (Some Throws) ->
  exists t r1 r2 r3 r4,
    properties (snd (try_catch (parariusElement w els i) (ret tt) s))
    = properties s
        ++ [parariusProperty i title priceText location sizeText roomsText
              propertyUrl [] t r1 r2 r3 r4].
Proof.
  intros Hnth (Ht & Hp & Hl & Hs & Hr & Hu) Himg.
  unfold absentTitle in Ht. read_texts.
  unfold try_catch, parariusElement, elementAt.
  run_element Hnth el s.
  do 5 eexists.
  unfold bind, now, rand, push, await.
  destruct (pause el); reflexivity.
Qed.

Lemma fundaElement_pushes (w : World) (els : list Element) (i : nat)
    (el : Element)
    (title priceText location sizeText roomsText propertyUrl : option jsstring)
    (s : State) :
  nth_error els i = Some el ->
  reads (absentTitle Funda i) el title priceText location sizeText
    roomsText propertyUrl ->
  q_image el = Returns (Some Throws) ->
  exists t r1 r2 r3 r4,
    properties (snd (try_catch (fundaElement w els i) (ret tt) s))
    = properties s
        ++ [fundaProperty i title priceText location sizeText roomsText
              propertyUrl [] t r1 r2 r3 r4].
Proof.
  intros Hnth (Ht & Hp & Hl & Hs & Hr & Hu) Himg.
  unfold absentTitle in Ht. read_texts.
  unfold try_catch, fundaElement, elementAt.
  run_element Hnth el s.
  do 5 eexists.
  unfold bind, now, rand, push, await.
  destruct (pause el); reflexivity.
Qed.

(** A record that iteration [i] always leaves is in the array when the loop
    ends. *)
Lemma for_loop_reaches (R : nat -> Property -> Prop) (Q : Property -> Prop)
    (body : nat -> M unit) (i : nat) :
  (forall j, appends (R j) (body j)) ->
  (forall j s, fst (body j s) = Returns tt) ->
  (forall s, exists p,
      Q p /\ properties (snd (body i s)) = properties s ++ [p]) ->
  forall n from s,
    from <= i < from + n ->
    exists p, Q p /\ In p (properties (snd (for_loop n from body s))).
Proof.
  intros Happ Hret Hi. induction n as [|n IH]; intros from s Hrange; [lia|].
  cbn [for_loop]. unfold bind.
  pose proof (Hret from s) as Hr.
  destruct (body from s) as [[[]|] s1] eqn:E; simpl in Hr; [|discriminate].
  destruct (Nat.eq_dec from i) as [->|Hne].
  - destruct (Hi s) as (p & Hp & Hpush). rewrite E in Hpush. simpl in Hpush.
    exists p. split; [exact Hp|].
    destruct (for_loop_trail R body Happ Hret n (S i) s1) as (_ & _ & l & P & _).
    rewrite P, Hpush. apply in_or_app. left. apply in_or_app. right.
    left. reflexivity.
  - apply IH. lia.
Qed.

(** Once the page has loaded, the listing is its loop. *)
Lemma parariusListing_loaded (w : World) (els : list Element) (s : State) :
  parariusLoads w els ->
  parariusListing w s
  = bind (for_loop (Nat.min (length els) 20) 0
            (fun i => try_catch (parariusElement w els i) (ret tt)))
         (fun _ => returnProperties) s.
Proof.
  intros (Hv & Hu & Hg & Hw & Hl & Hd). unfold parariusListing.
  cbv zeta. rewrite Hv, Hu, Hg, Hw, Hl.
  rewrite !bind_await.
  assert (Hc : try_catch (await (click (pararius w))) (ret tt) = ret tt).
  { unfold try_catch, await, ret. destruct (click (pararius w)) as [[]|];
      reflexivity. }
  rewrite (bind_returns _ _ _ _ Hc), !bind_await. cbv beta.
  assert (He : ensureDirectoryExists (pararius w) = ret tt).
  { unfold ensureDirectoryExists, try_catch, await, ret.
    destruct (access (pararius w)) as [[]|]; [reflexivity|].
    destruct Hd as [Hd|Hd]; [discriminate|]. rewrite Hd. reflexivity. }
  rewrite (bind_returns _ _ _ _ He). reflexivity.
Qed.

Lemma fundaListing_loaded (w : World) (els : list Element) (s : State) :
  fundaLoads w els ->
  fundaListing w s
  = bind (for_loop (Nat.min (length els) 15) 0
            (fun i => try_catch (fundaElement w els i) (ret tt)))
         (fun _ => returnProperties) s.
Proof.
  intros (Hv & Hg & Hw & Hl & Hd). unfold fundaListing.
  cbv zeta. rewrite Hv, Hg, Hw, Hl.
  rewrite !bind_await.
  assert (Hc : try_catch (await (click (funda w))) (ret tt) = ret tt).
  { unfold try_catch, await, ret. destruct (click (funda w)) as [[]|];
      reflexivity. }
  rewrite (bind_returns _ _ _ _ Hc), !bind_await. cbv beta.
  assert (He : ensureDirectoryExists (funda w) = ret tt).
  { unfold ensureDirectoryExists, try_catch, await, ret.
    destruct (access (funda w)) as [[]|]; [reflexivity|].
    destruct Hd as [Hd|Hd]; [discriminate|]. rewrite Hd. reflexivity. }
  rewrite (bind_returns _ _ _ _ He). reflexivity.
Qed.

(** When navigation or the wait for the listing throws, the outer [try]
    is left by that exception. *)
Lemma parariusListing_unreachable (w : World) (s : State) :
  goto (pararius w) = Throws \/ waitForSelector (pararius w) = Throws ->
  fst (parariusListing w s) = Throws.
Proof.
  intros H. unfold parariusListing, bind, await, try_catch, ret. cbv zeta.
  destruct (setViewportSize (pararius w)); [|reflexivity].
  destruct (setUserAgent (pararius w)); [|reflexivity].
  destruct (goto (pararius w)); [|reflexivity].
  destruct H as [H|H]; [discriminate|]. rewrite H.
  destruct (click (pararius w)); reflexivity.
Qed.

Lemma fundaListing_unreachable (w : World) (s : State) :
  goto (funda w) = Throws \/ waitForSelector (funda w) = Throws ->
  fst (fundaListing w s) = Throws.
Proof.
  intros H. unfold fundaListing, bind, await, try_catch, ret. cbv zeta.
  destruct (setViewportSize (funda w)); [|reflexivity].
  destruct (goto (funda w)); [|reflexivity].
  destruct H as [H|H]; [discriminate|]. rewrite H.
  destruct (click (funda w)); reflexivity.
Qed.

End FailureFacts.

(* ================================================================= *)
(** ** Facts about sessions *)

Module SessionFacts.
Import JS Scraper Vocabulary JSFacts ExtractionFacts RunFacts AllFacts.
Import FailureFacts.

Lemma scrape_frame (src : Source) (w : World) (s : State) :
  frame (snd (initBrowser w s)) (snd (scrape src w s)).
Proof.
  destruct src; simpl.
  - apply scrapePararius_shape.
  - apply scrapeFunda_shape.
Qed.

Lemma scrape_frame_held (src : Source) (w : World) (s : State) (b : nat) :
  browser s = Some b -> frame s (snd (scrape src w s)).
Proof.
  intros Hb. pose proof (scrape_frame src w s) as F.
  rewrite (initBrowser_held w s b Hb) in F. exact F.
Qed.

Lemma scrape_unfold (src : Source) (w : World) :
  scrape src w
  = bind (initBrowser w) (fun _ =>
      bind (openPage (site src w)) (fun _ =>
        bind newProperties (fun _ =>
          try_finally
            (try_catch
               (match src with
                | Pararius => parariusListing w
                | Funda => fundaListing w
                end) (ret []))
            closePage))).
Proof. destruct src; reflexivity. Qed.

Lemma listing_frame (src : Source) (w : World) (s : State) :
  frame s
    (snd ((match src with
           | Pararius => parariusListing w
           | Funda => fundaListing w
           end) s)).
Proof.
  destruct src.
  - apply parariusListing_collects.
  - apply fundaListing_collects.
Qed.

(** With a session and a page, the per-source operation returns, and the
    session it leaves is the one it found. *)
Lemma scrape_returns (src : Source) (w : World) (s s0 : State) :
  initBrowser w s = (Returns tt, s0) ->
  newPage (site src w) = Returns tt ->
  exists l s', scrape src w s = (Returns l, s') /\ frame s0 s'.
Proof.
  intros Hinit Hpage.
  pose proof (scrape_frame src w s) as F. rewrite Hinit in F. simpl in F.
  rewrite scrape_unfold in *.
  rewrite (scrape_eval w (site src w) _ s s0 Hinit Hpage) in *.
  simpl in F.
  destruct (fst _) as [l|]; eexists; eexists; (split; [reflexivity|exact F]).
Qed.

Lemma scrapeAll_started (w : World) (s s0 : State) :
  initBrowser w s = (Returns tt, s0) ->
  scrapeAllWithScreenshots w s
  = try_finally
      (bind (scrapeParariusWithScreenshots w) (fun parariusProperties =>
         bind (scrapeFundaWithScreenshots w) (fun fundaProperties =>
           ret (sort byListedDays (parariusProperties ++ fundaProperties)))))
      closeBrowser s0.
Proof.
  intros H. unfold scrapeAllWithScreenshots. unfold bind at 1.
  rewrite H. reflexivity.
Qed.

Lemma scrapeAll_unstarted (w : World) (s s0 : State) :
  initBrowser w s = (Throws, s0) ->
  scrapeAllWithScreenshots w s = (Throws, s0).
Proof.
  intros H. unfold scrapeAllWithScreenshots. unfold bind at 1.
  rewrite H. reflexivity.
Qed.

(** What [scrapeAllWithScreenshots] leaves behind, however it ends. *)
Lemma scrapeAll_state (w : World) (s : State) :
  (initBrowser w s = (Throws, s)
   /\ scrapeAllWithScreenshots w s = (Throws, s))
  \/ exists s0 s2,
       initBrowser w s = (Returns tt, s0) /\ frame s0 s2
       /\ snd (scrapeAllWithScreenshots w s) = snd (closeBrowser s2).
Proof.
  destruct (initBrowser w s) as [[[]|] s0] eqn:Hinit.
  - right. rewrite (scrapeAll_started w s s0 Hinit).
    destruct (initBrowser_session w s s0 Hinit) as [b Hb].
    unfold try_finally, bind, ret.
    pose proof (scrape_frame_held Pararius w s0 b Hb) as F1. simpl in F1.
    destruct (scrapeParariusWithScreenshots w s0) as [[lp|] s1]; simpl in F1.
    + assert (Hb1 : browser s1 = Some b) by (destruct F1 as [-> _]; exact Hb).
      pose proof (scrape_frame_held Funda w s1 b Hb1) as F2. simpl in F2.
      destruct (scrapeFundaWithScreenshots w s1) as [[lf|] s2]; simpl in F2;
        exists s0, s2;
        (split; [reflexivity|]);
        (split; [eapply frame_trans; eassumption|]);
        destruct (closeBrowser s2) as [[[]|] s3]; reflexivity.
    + exists s0, s1. split; [reflexivity|]. split; [exact F1|].
      destruct (closeBrowser s1) as [[[]|] s3]; reflexivity.
  - left. destruct (initBrowser_failed w s s0 Hinit) as [-> _].
    split; [reflexivity|]. apply scrapeAll_unstarted, Hinit.
Qed.

Lemma closeBrowser_returns (s : State) : fst (closeBrowser s) = Returns tt.
Proof. unfold closeBrowser. destruct (browser s); reflexivity. Qed.

Lemma closeBrowser_absent (s : State) :
  browser s = None -> closeBrowser s = (Returns tt, s).
Proof. unfold closeBrowser. intros ->. reflexivity. Qed.

Lemma closeBrowser_clears (s : State) : browser (snd (closeBrowser s)) = None.
Proof.
  unfold closeBrowser. destruct (browser s) eqn:E; simpl; [reflexivity|exact E].
Qed.

End SessionFacts.

(* ================================================================= *)
(** ** The properties of the specification *)

Import JS Scraper Vocabulary Samples.
Import NumberFacts JSFacts ExtractionFacts RunFacts AllFacts FailureFacts.
Import SessionFacts.

(** *** Titles *)




(** *** Prices *)

(** C2 as stated fails: the Funda pattern takes a dot, not a comma, for the
    thousands separator, and reads "€1,250" as 1. *)
Lemma price_comma_not_both :
  ~ (forall parse,
        In parse [parariusPrice; fundaPrice] ->
        parse (Some (euro :: lit "1,250")) = Int 1250
        /\ forall t, no_digit t -> parse (Some t) = Int 0).
Proof.
  intros H.
  destruct (H fundaPrice (or_intror (or_introl eq_refl))) as [H1 _].
  vm_compute in H1. discriminate.
Qed.

(** C2, amended: the Pararius step reads "€1,250" as 1250; the Funda step
    reads "€1.250" as 1250 and "€1,250" as 1; both read a text without a
    digit as 0. *)
Theorem price_parsing (t : jsstring) (H : no_digit t) :
  parariusPrice (Some (euro :: lit "1,250")) = Int 1250
  /\ fundaPrice (Some (euro :: lit "1.250")) = Int 1250
  /\ fundaPrice (Some (euro :: lit "1,250")) = Int 1
  /\ parariusPrice (Some t) = Int 0
  /\ fundaPrice (Some t) = Int 0.
Proof.
  split; [vm_compute; reflexivity|].
  split; [vm_compute; reflexivity|].
  split; [vm_compute; reflexivity|].
  split; apply parsePrice_no_digit, H.
Qed.

Lemma price_parsing_witness :
  no_digit (lit "Prijs op aanvraag")
  /\ parariusPrice (Some (lit "Prijs op aanvraag")) = Int 0
  /\ fundaPrice (Some (lit "Prijs op aanvraag")) = Int 0.
Proof.
  assert (H : no_digit (lit "Prijs op aanvraag"))
    by (repeat constructor).
  split; [exact H|].
  apply (price_parsing (lit "Prijs op aanvraag") H).
Defined.

(** *** Identifiers *)

Lemma pararius_ids_differ (i j : nat) (p q : Property) :
  parariusRecord i p -> parariusRecord j q -> id p = id q -> i = j.
Proof.
  intros Hp Hq E.
  destruct (parariusRecord_id i p Hp) as [t Ep].
  destruct (parariusRecord_id j q Hq) as [t' Eq].
  rewrite Ep, Eq in E. eapply parariusId_index, E.
Qed.

Lemma funda_ids_differ (i j : nat) (p q : Property) :
  fundaRecord i p -> fundaRecord j q -> id p = id q -> i = j.
Proof.
  intros Hp Hq E.
  destruct (fundaRecord_id i p Hp) as [t Ep].
  destruct (fundaRecord_id j q Hq) as [t' Eq].
  rewrite Ep, Eq in E. eapply fundaId_index, E.
Qed.

(** C3: the records [scrapeAllWithScreenshots] returns bear pairwise
    different identifiers, none of them empty. *)
Theorem unique_ids (w : World) (s s' : State) (l : list Property)
    (H : scrapeAllWithScreenshots w s = (Returns l, s')) :
  NoDup (map id l) /\ Forall (fun p => id p <> []) l.
Proof.
  split.
  - destruct (scrapeAll_returned w s s' l H)
      as (s0 & lp & s1 & lf & s2 & _ & Hp & Hf & ->).
    destruct (scrapePararius_shape w s0) as [_ Sp].
    destruct (scrapeFunda_shape w s1) as [_ Sf].
    rewrite Hp in Sp. rewrite Hf in Sf.
    destruct (Sp lp eq_refl) as (n & _ & Tp).
    destruct (Sf lf eq_refl) as (m & _ & Tf).
    apply (Permutation_NoDup (l := map id (lp ++ lf))).
    { apply Permutation_map, sort_perm. }
    rewrite map_app. apply NoDup_app.
    + eapply trail_NoDup; [exact pararius_ids_differ|exact Tp].
    + eapply trail_NoDup; [exact funda_ids_differ|exact Tf].
    + intros a Ha Hb.
      apply in_map_iff in Ha as (p & <- & Hpin).
      apply in_map_iff in Hb as (q & Eq & Hqin).
      pose proof (trail_indexed _ _ _ _ Tp) as Fp.
      pose proof (trail_indexed _ _ _ _ Tf) as Ff.
      rewrite Forall_forall in Fp, Ff.
      destruct (Fp p Hpin) as (i & _ & Rp).
      destruct (Ff q Hqin) as (j & _ & Rq).
      destruct (parariusRecord_id i p Rp) as [t Ep].
      destruct (fundaRecord_id j q Rq) as [t' Eq'].
      rewrite Ep, Eq' in Eq. symmetry in Eq.
      exact (parariusId_not_fundaId _ _ _ _ Eq).
  - eapply Forall_impl; [|apply (sound_records_all w s s' l H)].
    intros p Hp. apply Hp.
Qed.

Lemma unique_ids_witness :
  exists l s',
    scrapeAllWithScreenshots both_up initial = (Returns l, s')
    /\ length l = 4
    /\ NoDup (map id l) /\ Forall (fun p => id p <> []) l.
Proof.
  eexists. eexists.
  split; [vm_compute; reflexivity|].
  split; [reflexivity|].
  eapply (unique_ids both_up initial). vm_compute. reflexivity.
Defined.

(** *** Order *)

(** C4: the list [scrapeAllWithScreenshots] returns is sorted by
    non-decreasing [listedDays], and holds the records of Pararius and of
    Funda, all of them and no other. *)
Theorem sorted_by_listedDays (w : World) (s s' : State) (l : list Property)
    (H : scrapeAllWithScreenshots w s = (Returns l, s')) :
  StronglySorted days_le l
  /\ exists s0 lp s1 lf s2,
       initBrowser w s = (Returns tt, s0)
       /\ scrapeParariusWithScreenshots w s0 = (Returns lp, s1)
       /\ scrapeFundaWithScreenshots w s1 = (Returns lf, s2)
       /\ Permutation (lp ++ lf) l.
Proof.
  pose proof (sound_records_all w s s' l H) as Hsound.
  destruct (scrapeAll_returned w s s' l H)
    as (s0 & lp & s1 & lf & s2 & Hi & Hp & Hf & ->).
  split.
  - apply sort_strongly_sorted.
    rewrite Forall_forall in *. intros p Hin.
    apply Hsound. eapply Permutation_in; [apply sort_perm|exact Hin].
  - exists s0, lp, s1, lf, s2. repeat split; try assumption.
    apply sort_perm.
Qed.

Lemma sorted_by_listedDays_witness :
  exists l s',
    scrapeAllWithScreenshots both_up initial = (Returns l, s')
    /\ map listedDays l = [Int 0; Int 1; Int 2; Int 2]
    /\ StronglySorted days_le l.
Proof.
  eexists. eexists.
  split; [vm_compute; reflexivity|].
  split; [reflexivity|].
  eapply (sorted_by_listedDays both_up initial). vm_compute. reflexivity.
Defined.

(** *** Derived fields *)

Lemma storage_record_produced : produced storage initial storage_record.
Proof.
  eexists. eexists. split; [|left; vm_compute; reflexivity].
  left. vm_compute. reflexivity.
Qed.

Lemma lockup_record_produced : produced lockup initial lockup_record.
Proof.
  eexists. eexists. split; [|right; left; vm_compute; reflexivity].
  left. vm_compute. reflexivity.
Qed.

Lemma palace_record_produced : produced palatial initial palace_record.
Proof.
  eexists. eexists. split; [|right; left; vm_compute; reflexivity].
  left. vm_compute. reflexivity.
Qed.

(** C5 as stated fails: a Funda listing whose rooms text reads "0 rooms"
    has [rooms = 0] and is an "Apartment", though its [rooms] is not 2. *)
Lemma type_of_zero_rooms :
  ~ (forall w s p,
        produced w s p ->
        forall n,
          rooms p = Int n ->
          (type p = lit "Studio" <-> n = 1%Z)
          /\ (type p = lit "Apartment" <-> n = 2%Z)
          /\ (type p = lit "House" <-> (2 < n)%Z)).
Proof.
  intros H.
  destruct (H lockup initial lockup_record lockup_record_produced 0%Z
              eq_refl) as (_ & [Ha _] & _).
  specialize (Ha eq_refl). discriminate.
Qed.

(** C5, amended: [type] is "Studio" exactly when [rooms] is 1, "Apartment"
    exactly when it is 2 or 0, "House" exactly when it is more than 2; so 2
    rooms make an "Apartment" and 3 a "House". *)
Theorem type_from_rooms (w : World) (s : State) (p : Property)
    (H : produced w s p) :
  (type p = lit "Studio" <-> rooms p = Int 1)
  /\ (type p = lit "Apartment" <-> rooms p = Int 2 \/ rooms p = Int 0)
  /\ (type p = lit "House" <-> num_gt (rooms p) (Int 2) = true)
  /\ typeOf (Int 2) = lit "Apartment"
  /\ typeOf (Int 3) = lit "House".
Proof.
  destruct (produced_sound w s p H) as (Hr & _ & Ht & _).
  rewrite Ht.
  destruct (typeOf_natural (rooms p) Hr) as (Hs & Ha & Hh).
  split; [exact Hs|]. split; [exact Ha|]. split; [exact Hh|].
  split; reflexivity.
Qed.

Lemma type_from_rooms_witness :
  produced lockup initial lockup_record
  /\ rooms lockup_record = Int 0
  /\ type lockup_record = lit "Apartment".
Proof.
  split; [exact lockup_record_produced|].
  destruct (type_from_rooms lockup initial lockup_record
              lockup_record_produced) as (_ & Ha & _).
  split; [reflexivity|].
  apply Ha. right. reflexivity.
Defined.

(** C10 as stated fails: a Funda listing whose price text is 1 followed by
    309 zeros has [price = Infinity], the number written being beyond the
    largest double, and its [deposit], twice the price, is [Infinity] too:
    not a positive integer. *)
Lemma deposit_of_overflowing_price :
  ~ (forall w s p,
        produced w s p ->
        (num_gt (price p) (Int 0) = true ->
         deposit p = num_mul (price p) (Int 2))
        /\ (price p = Int 0 -> deposit p = Int 1000)
        /\ exists d, deposit p = Int d /\ (0 < d)%Z).
Proof.
  intros H.
  destruct (H palatial initial palace_record palace_record_produced)
    as (_ & _ & d & Hd & _).
  vm_compute in Hd. discriminate.
Qed.

(** C10, amended: [price] is a natural number or [Infinity]; [deposit] is
    1000 when the price is 0, twice the price when the price is positive and
    its double is a double (the price is less than 2^1023), and [Infinity]
    beyond; it is positive in every case. *)
Theorem deposit_from_price (w : World) (s : State) (p : Property)
    (H : produced w s p) :
  ((exists n, price p = Int n /\ (0 <= n)%Z) \/ price p = Inf false)
  /\ (price p = Int 0 -> deposit p = Int 1000)
  /\ (forall n, price p = Int n -> (0 < n < 2 ^ 1023)%Z ->
         deposit p = Int (2 * n))
  /\ (forall n, price p = Int n -> (2 ^ 1023 <= n)%Z ->
         deposit p = Inf false)
  /\ (price p = Inf false -> deposit p = Inf false)
  /\ num_gt (deposit p) (Int 0) = true.
Proof.
  destruct (produced_sound w s p H) as (_ & Hp & _ & Hd & _).
  rewrite Hd. split; [|apply depositOf_natural, Hp].
  destruct (natural_cases (price p) Hp) as [(n & E & Hn & _)|E].
  - left. exists n. split; [exact E|lia].
  - right. exact E.
Qed.

Lemma deposit_from_price_witness :
  produced lockup initial lockup_record
  /\ price lockup_record = Int 150
  /\ deposit lockup_record = Int 300.
Proof.
  split; [exact lockup_record_produced|].
  destruct (deposit_from_price lockup initial lockup_record
              lockup_record_produced) as (_ & _ & H2 & _).
  split; [reflexivity|].
  apply (H2 150%Z); [reflexivity|]. split; reflexivity.
Defined.

(** *** The cap *)

(** C9: the Pararius operation returns at most 20 records and the Funda
    operation at most 15, however many elements the page lists; and each
    does return once its page is open. *)
Theorem at_most_cap (src : Source) (w : World) (s s' : State)
    (l : list Property) (H : scrape src w s = (Returns l, s')) :
  length l <= cap src
  /\ cap Pararius = 20 /\ cap Funda = 15
  /\ forall t t0,
       initBrowser w t = (Returns tt, t0) ->
       newPage (site src w) = Returns tt ->
       exists l' t', scrape src w t = (Returns l', t').
Proof.
  split; [|split; [reflexivity|split; [reflexivity|]]].
  - destruct src; simpl in *.
    + destruct (scrapePararius_shape w s) as [_ Hs].
      rewrite H in Hs. destruct (Hs l eq_refl) as (n & Hn & T).
      apply trail_length in T. lia.
    + destruct (scrapeFunda_shape w s) as [_ Hs].
      rewrite H in Hs. destruct (Hs l eq_refl) as (n & Hn & T).
      apply trail_length in T. lia.
  - intros t t0 Hi Hp.
    destruct (scrape_returns src w t t0 Hi Hp) as (l' & t' & E & _).
    exists l', t'. exact E.
Qed.

Lemma at_most_cap_witness :
  exists l s',
    scrape Funda crowded initial = (Returns l, s')
    /\ length l = 15 /\ length l <= cap Funda.
Proof.
  eexists. eexists.
  split; [vm_compute; reflexivity|].
  split; [reflexivity|].
  eapply (at_most_cap Funda crowded initial). vm_compute. reflexivity.
Defined.

(** *** Failures *)

(** C6: when navigation, or the wait for the listing, throws for a source
    whose page is open, the operation for that source returns the empty
    list; the session is the one it found, still open, and no new browser
    is launched for the next operation, which returns as soon as its own
    page opens and leaves the session open in turn. *)
Theorem navigation_failure_isolated (src : Source) (w : World)
    (s s0 : State) (b : nat)
    (Hinit : initBrowser w s = (Returns tt, s0))
    (Hopen : session_open b s0)
    (Hpage : newPage (site src w) = Returns tt)
    (Hnav : goto (site src w) = Throws
            \/ waitForSelector (site src w) = Throws) :
  exists s',
    scrape src w s = (Returns [], s')
    /\ session_open b s'
    /\ frame s0 s'
    /\ initBrowser w s' = (Returns tt, s')
    /\ forall next,
         newPage (site next w) = Returns tt ->
         exists l s2,
           scrape next w s' = (Returns l, s2) /\ session_open b s2.
Proof.
  assert (Hthrows :
    forall st,
      fst ((match src with
            | Pararius => parariusListing w
            | Funda => fundaListing w
            end) st) = Throws).
  { intros st. destruct src.
    - apply parariusListing_unreachable, Hnav.
    - apply fundaListing_unreachable, Hnav. }
  pose proof (listing_frame src w (on_page s0)) as F.
  exists (off_page (snd ((match src with
                         | Pararius => parariusListing w
                         | Funda => fundaListing w
                         end) (on_page s0)))).
  set (s' := off_page _).
  assert (Fs : frame s0 s').
  { subst s'. unfold off_page, on_page, frame in *. simpl in *.
    destruct F as (Fb & Fl & Fc & Fp). rewrite Fp. auto. }
  assert (Hs' : session_open b s').
  { destruct Hopen as [Hb Hc]. destruct Fs as (Fb & _ & Fc & _).
    split; [rewrite Fb; exact Hb|rewrite Fc; exact Hc]. }
  assert (Hinit' : initBrowser w s' = (Returns tt, s')).
  { apply (initBrowser_held w s' b), Hs'. }
  split.
  { rewrite scrape_unfold.
    rewrite (scrape_eval w (site src w) _ s s0 Hinit Hpage).
    rewrite Hthrows. reflexivity. }
  split; [exact Hs'|]. split; [exact Fs|]. split; [exact Hinit'|].
  intros next Hnext.
  destruct (scrape_returns next w s' s' Hinit' Hnext) as (l & s2 & E & F2).
  exists l, s2. split; [exact E|].
  destruct Hs' as [Hb Hc]. destruct F2 as (Fb & _ & Fc & _).
  split; [rewrite Fb; exact Hb|rewrite Fc; exact Hc].
Qed.

Lemma navigation_failure_isolated_witness :
  exists s' l s2,
    scrape Pararius pararius_down started = (Returns [], s')
    /\ session_open 0 s'
    /\ scrape Funda pararius_down s' = (Returns l, s2)
    /\ length l = 1
    /\ session_open 0 s2.
Proof.
  assert (Hinit : initBrowser pararius_down started = (Returns tt, started))
    by reflexivity.
  assert (Hopen : session_open 0 started).
  { split; [reflexivity|]. simpl. intros []. }
  destruct (navigation_failure_isolated Pararius pararius_down started
              started 0 Hinit Hopen eq_refl (or_introl eq_refl))
    as (s' & E & Hs' & _ & _ & Hnext).
  destruct (Hnext Funda eq_refl) as (l & s2 & E2 & Hs2).
  exists s', l, s2.
  assert (Es : s' = snd (scrape Pararius pararius_down started))
    by (rewrite E; reflexivity).
  assert (El : l = match fst (scrape Funda pararius_down s') with
                   | Returns l0 => l0
                   | Throws => []
                   end)
    by (rewrite E2; reflexivity).
  split; [exact E|]. split; [exact Hs'|]. split; [exact E2|].
  split; [|exact Hs2].
  rewrite El, Es. vm_compute. reflexivity.
Defined.

Lemma element_appends (src : Source) (w : World) (els : list Element)
    (i : nat) :
  appends
    (match src with
     | Pararius => parariusRecord i
     | Funda => fundaRecord i
     end)
    (try_catch (element src w els i) (ret tt)).
Proof.
  apply appends_caught. destruct src.
  - apply parariusElement_appends.
  - apply fundaElement_appends.
Qed.

Lemma listing_loaded (src : Source) (w : World) (els : list Element)
    (s : State) :
  loads src w els ->
  (match src with
   | Pararius => parariusListing w
   | Funda => fundaListing w
   end) s
  = bind (for_loop (Nat.min (length els) (cap src)) 0
            (fun i => try_catch (element src w els i) (ret tt)))
         (fun _ => returnProperties) s.
Proof.
  destruct src; simpl.
  - apply parariusListing_loaded.
  - apply fundaListing_loaded.
Qed.

Lemma element_pushes (src : Source) (w : World) (els : list Element)
    (i : nat) (el : Element)
    (title priceText location sizeText roomsText propertyUrl : option jsstring)
    (s : State) :
  nth_error els i = Some el ->
  reads (absentTitle src i) el title priceText location sizeText roomsText
    propertyUrl ->
  q_image el = Returns (Some Throws) ->
  exists p,
    (exists t r1 r2 r3 r4,
        p = property src i title priceText location sizeText roomsText
              propertyUrl [] t r1 r2 r3 r4)
    /\ properties (snd (try_catch (element src w els i) (ret tt) s))
       = properties s ++ [p].
Proof.
  intros Hel Hreads Hshot. destruct src; simpl element; simpl property.
  - destruct (parariusElement_pushes w els i el title priceText location
                sizeText roomsText propertyUrl s Hel Hreads Hshot)
      as (t & r1 & r2 & r3 & r4 & E).
    eexists. split; [|exact E]. exists t, r1, r2, r3, r4. reflexivity.
  - destruct (fundaElement_pushes w els i el title priceText location
                sizeText roomsText propertyUrl s Hel Hreads Hshot)
      as (t & r1 & r2 & r3 & r4 & E).
    eexists. split; [|exact E]. exists t, r1, r2, r3, r4. reflexivity.
Qed.

(** C7: take an element within the cap of a page that has loaded, whose
    texts are read and whose screenshot fails. No exception leaves the
    processing of that element, the operation returns, and among its records
    is the one of that element: [image] is the empty string and [images] the
    empty list, and the other fields are filled from the texts read, the
    title, the price, the location, the size, the number of rooms and the
    link, with the type and the deposit that follow from them. *)
Theorem screenshot_failure_contained (src : Source) (w : World)
    (s s0 : State) (els : list Element) (i : nat) (el : Element)
    (title priceText location sizeText roomsText propertyUrl : option jsstring)
    (Hinit : initBrowser w s = (Returns tt, s0))
    (Hpage : newPage (site src w) = Returns tt)
    (Hloads : loads src w els)
    (Hel : nth_error els i = Some el)
    (Hcap : i < cap src)
    (Hreads : reads (absentTitle src i) el title priceText location sizeText
                roomsText propertyUrl)
    (Hshot : q_image el = Returns (Some Throws)) :
  (forall st, fst (try_catch (element src w els i) (ret tt) st) = Returns tt)
  /\ (forall st,
         fst (takeScreenshot w (filePrefix src) i (Some Throws) st)
         = Returns [])
  /\ exists l s' p t r1 r2 r3 r4,
       scrape src w s = (Returns l, s')
       /\ In p l
       /\ p = property src i title priceText location sizeText roomsText
                propertyUrl [] t r1 r2 r3 r4
       /\ image p = [] /\ images p = [] /\ screenshotPath p = []
       /\ Scraper.title p
          = orElse (option_map trim title) (Exported.namedTitle src i)
       /\ price p = match src with
                    | Pararius => parsePrice parariusPriceRe comma priceText
                    | Funda => parsePrice fundaPriceRe dot priceText
                    end
       /\ Scraper.location p
          = match src with
            | Pararius => orElse (option_map trim location) (lit "Groningen")
            | Funda =>
                lit "Groningen "
                  ++ match location with
                     | Some x => trim x
                     | None => lit "undefined"
                     end
            end
       /\ size p = orElse (option_map trim sizeText) (lit "50m" ++ [sup2])
       /\ rooms p = parseRooms roomsText
       /\ sourceUrl p
          = resolveUrl
              match src with
              | Pararius => lit "https://pararius.com"
              | Funda => lit "https://www.funda.nl"
              end
              propertyUrl
       /\ source p = match src with
                     | Pararius => lit "Pararius"
                     | Funda => lit "Funda"
                     end
       /\ id p = match src with
                 | Pararius => parariusId t i
                 | Funda => fundaId t i
                 end
       /\ type p = typeOf (parseRooms roomsText)
       /\ deposit p = depositOf (price p).
Proof.
  split; [intros st; apply caught_returns|].
  split; [intros st; reflexivity|].
  set (body := fun j => try_catch (element src w els j) (ret tt)).
  set (R := fun j => match src with
                     | Pararius => parariusRecord j
                     | Funda => fundaRecord j
                     end).
  assert (Happ : forall j, appends (R j) (body j))
    by (intros j; apply element_appends).
  assert (Hret : forall j st, fst (body j st) = Returns tt)
    by (intros j st; apply caught_returns).
  assert (Hrange : 0 <= i < 0 + Nat.min (length els) (cap src)).
  { assert (i < length els) by (apply nth_error_Some; congruence). lia. }
  destruct (for_loop_reaches R
              (fun p => exists t r1 r2 r3 r4,
                   p = property src i title priceText location sizeText
                         roomsText propertyUrl [] t r1 r2 r3 r4)
              body i Happ Hret
              (fun st => element_pushes src w els i el title priceText
                           location sizeText roomsText propertyUrl st
                           Hel Hreads Hshot)
              (Nat.min (length els) (cap src)) 0 (on_page s0) Hrange)
    as (p & (t & r1 & r2 & r3 & r4 & Ep) & Hin).
  destruct (for_loop_trail R body Happ Hret
              (Nat.min (length els) (cap src)) 0 (on_page s0))
    as (Eloop & _).
  rewrite scrape_unfold.
  rewrite (scrape_eval w (site src w) _ s s0 Hinit Hpage).
  rewrite (listing_loaded src w els (on_page s0) Hloads).
  fold body. unfold bind.
  destruct (for_loop (Nat.min (length els) (cap src)) 0 body (on_page s0))
    as [[[]|] s3]; simpl in Eloop; [|discriminate].
  simpl in Hin. simpl.
  exists (properties s3), (off_page s3), p, t, r1, r2, r3, r4.
  split; [reflexivity|]. split; [exact Hin|]. split; [exact Ep|].
  rewrite Ep. destruct src; repeat (split; [reflexivity|]); reflexivity.
Qed.

Lemma screenshot_failure_contained_witness :
  exists l s' p,
    scrape Funda rentals initial = (Returns l, s')
    /\ In p l
    /\ image p = [] /\ images p = []
    /\ title p = lit "Oosterstraat 12"
    /\ price p = Int 1250
    /\ location p = lit "Groningen 9711 NV Groningen (Binnenstad)"
    /\ size p = lit "45 m" ++ [sup2]
    /\ rooms p = Int 3
    /\ sourceUrl p
       = lit "https://www.funda.nl/apartment-for-rent/groningen/oosterstraat"
    /\ source p = lit "Funda"
    /\ type p = lit "House"
    /\ deposit p = Int 2500.
Proof.
  destruct (screenshot_failure_contained Funda rentals initial started
              [blank; flat (euro :: lit " 1.250 per maand")] 1
              (flat (euro :: lit " 1.250 per maand"))
              (Some (lit " Oosterstraat 12 "))
              (Some (euro :: lit " 1.250 per maand"))
              (Some (lit "9711 NV Groningen (Binnenstad)"))
              (Some (lit "45 m" ++ [sup2])) (Some (lit "3 rooms"))
              (Some (lit "/apartment-for-rent/groningen/oosterstraat")))
    as (_ & _ & l & s' & p & t & r1 & r2 & r3 & r4 & E & Hin & _ & Hi & Him
        & _ & Ht & Hp & Hl & Hs & Hr & Hu & Hsrc & _ & Hty & Hd).
  - reflexivity.
  - reflexivity.
  - simpl. unfold fundaLoads. simpl. repeat split; auto.
  - reflexivity.
  - simpl. lia.
  - unfold reads, yields. simpl. repeat split; reflexivity.
  - reflexivity.
  - exists l, s', p.
    split; [exact E|]. split; [exact Hin|].
    split; [exact Hi|]. split; [exact Him|].
    split; [rewrite Ht; vm_compute; reflexivity|].
    split; [rewrite Hp; vm_compute; reflexivity|].
    split; [rewrite Hl; vm_compute; reflexivity|].
    split; [rewrite Hs; vm_compute; reflexivity|].
    split; [rewrite Hr; vm_compute; reflexivity|].
    split; [rewrite Hu; vm_compute; reflexivity|].
    split; [exact Hsrc|].
    split; [rewrite Hty; vm_compute; reflexivity|].
    rewrite Hd, Hp. vm_compute. reflexivity.
Defined.

(** *** The session *)

(** C8: after [scrapeAllWithScreenshots], whether it returned or threw, the
    scraper holds no browser, every browser launched is closed and no page
    is left open; [closeBrowser] returns in every state, and called once
    more it changes nothing. *)
Theorem browser_closed_after_scrapeAll (w : World) (s : State)
    (H : no_stray_browser s) :
  let s' := snd (scrapeAllWithScreenshots w s) in
  browser s' = None
  /\ all_closed s'
  /\ openPages s' = openPages s
  /\ closeBrowser s' = (Returns tt, s')
  /\ forall t,
       fst (closeBrowser t) = Returns tt
       /\ closeBrowser (snd (closeBrowser t))
          = (Returns tt, snd (closeBrowser t)).
Proof.
  intros s'.
  assert (Hidem : forall t,
             fst (closeBrowser t) = Returns tt
             /\ closeBrowser (snd (closeBrowser t))
                = (Returns tt, snd (closeBrowser t))).
  { intros t. split; [apply closeBrowser_returns|].
    apply closeBrowser_absent, closeBrowser_clears. }
  assert (Hmain : browser s' = None /\ all_closed s'
                  /\ openPages s' = openPages s).
  { subst s'.
    destruct (scrapeAll_state w s) as [[Hi E]|(s0 & s2 & Hi & F & E)].
    - rewrite E. simpl.
      destruct (initBrowser_failed w s s Hi) as [_ Hb].
      split; [exact Hb|]. split; [|reflexivity].
      intros b Hlt. destruct (H b Hlt) as [Hc|Hc]; [exact Hc|congruence].
    - rewrite E. split; [apply closeBrowser_clears|].
      destruct (initBrowser_session w s s0 Hi) as [b0 Hb0].
      destruct F as (Fb & Fl & Fc & Fp).
      unfold closeBrowser. rewrite Fb, Hb0.
      unfold all_closed. simpl. rewrite Fl, Fc, Fp.
      unfold initBrowser in Hi.
      destruct (browser s) as [b|] eqn:Hbs.
      + injection Hi as <-. split; [|reflexivity].
        rewrite Hbs in Hb0. injection Hb0 as <-.
        intros x Hlt.
        destruct (H x Hlt) as [Hc|Hc]; [right; exact Hc|].
        left. congruence.
      + destruct (launch w); [|discriminate]. injection Hi as <-.
        simpl in *. injection Hb0 as <-. split; [|reflexivity].
        intros x Hlt.
        destruct (Nat.eq_dec x (launched s)) as [->|Hne];
          [left; reflexivity|].
        right. destruct (H x) as [Hc|Hc]; [lia|exact Hc|congruence]. }
  destruct Hmain as (Hb & Hc & Hp).
  split; [exact Hb|]. split; [exact Hc|]. split; [exact Hp|].
  split; [apply closeBrowser_absent, Hb|exact Hidem].
Qed.

Lemma browser_closed_after_scrapeAll_witness :
  no_stray_browser initial
  /\ browser (snd (scrapeAllWithScreenshots pararius_down initial)) = None
  /\ closedBrowsers (snd (scrapeAllWithScreenshots pararius_down initial))
     = [0]
  /\ all_closed (snd (scrapeAllWithScreenshots pararius_down initial)).
Proof.
  assert (H : no_stray_browser initial).
  { intros b Hlt. simpl in Hlt. lia. }
  split; [exact H|].
  destruct (browser_closed_after_scrapeAll pararius_down initial H)
    as (Hb & Hc & _).
  split; [exact Hb|]. split; [vm_compute; reflexivity|exact Hc].
Defined.

(* ================================================================= *)
(** ** Further properties: what the patterns read *)

Import Scan Reading Exported MoreSamples.

Module ScanFacts.

Lemma take_drop (p : N -> bool) (s : jsstring) :
  takeWhile p s ++ dropWhile p s = s.
Proof.
  induction s as [|c s IH]; simpl; [reflexivity|].
  destruct (p c); simpl; [rewrite IH|]; reflexivity.
Qed.

Lemma consumed_dropWhile (p : N -> bool) (s : jsstring) :
  consumed s (dropWhile p s) = takeWhile p s.
Proof.
  rewrite <- (take_drop p s) at 1. apply consumed_app.
Qed.

Lemma takeWhile_digits (s : jsstring) : all_digits (takeWhile is_digit s).
Proof.
  induction s as [|c s IH]; simpl; [constructor|].
  destruct (is_digit c) eqn:E; constructor; assumption.
Qed.

Lemma hd_error_app {A} (l l' : list A) (a : A) :
  hd_error l = Some a -> hd_error (l ++ l') = Some a.
Proof. destruct l; simpl; [discriminate|auto]. Qed.

(** The first remainder the greedy star offers is the one after the longest
    run. *)
Lemma run_star_first (p : N -> bool) (s : jsstring) :
  hd_error (run_star p s) = Some (dropWhile p s).
Proof.
  induction s as [|c s IH]; simpl; [reflexivity|].
  destruct (p c); [|reflexivity].
  apply hd_error_app, IH.
Qed.

Lemma run_star_cons (p : N -> bool) (s : jsstring) :
  exists l, run_star p s = dropWhile p s :: l.
Proof.
  pose proof (run_star_first p s) as H.
  destruct (run_star p s) as [|a l]; [discriminate|].
  injection H as ->. exists l. reflexivity.
Qed.

Lemma fromFirstDigit_skip (u t : jsstring) :
  no_digit u -> fromFirstDigit (u ++ t) = fromFirstDigit t.
Proof.
  unfold fromFirstDigit.
  induction 1 as [|c u Hc _ IH]; cbn [app dropWhile]; [reflexivity|].
  unfold non_digit at 1. rewrite Hc. cbn [negb]. exact IH.
Qed.

Lemma fromFirstDigit_at (c : N) (t : jsstring) :
  is_digit c = true -> fromFirstDigit (c :: t) = c :: t.
Proof.
  intros Hc. unfold fromFirstDigit. cbn [dropWhile]. unfold non_digit.
  rewrite Hc. reflexivity.
Qed.

(** The head of a concatenation of lists is the head of one of them. *)
Lemma hd_error_flat_map {A B} (f : A -> list B) (l : list A) (b : B) :
  hd_error (flat_map f l) = Some b ->
  exists a, In a l /\ hd_error (f a) = Some b.
Proof.
  induction l as [|a l IH]; simpl; [discriminate|].
  destruct (f a) as [|b0 fa] eqn:E; simpl.
  - intros H. destruct (IH H) as (a' & Hin & Ha). exists a'. auto.
  - intros [= <-]. exists a. rewrite E. auto.
Qed.

Section FirstMatch.

(** A pattern [/lead(group)/] whose lead matches no digit and, before a
    digit, only the empty string; whose group needs a digit to start and,
    at a digit, captures [capture t] first. *)
Variables ld gr : regex.
Variable capture : jsstring -> jsstring.

Hypothesis lead_digit_free : forall u, matches ld u -> no_digit u.
Hypothesis lead_at_digit :
  forall c t, is_digit c = true -> JS.run ld (c :: t) = [c :: t].
Hypothesis group_needs_digit :
  forall s, starts_with_digit s = false -> JS.run gr s = [].
Hypothesis group_first :
  forall c t,
    is_digit c = true ->
    hd_error (map (consumed (c :: t)) (JS.run gr (c :: t)))
    = Some (capture (c :: t)).

Lemma match_here_found (s g : jsstring) :
  match_here (Pattern ld gr) s = Some g ->
  fromFirstDigit s <> [] /\ g = capture (fromFirstDigit s).
Proof.
  unfold match_here. cbn [lead group]. intros H.
  apply hd_error_flat_map in H as (s1 & Hin & Hhd).
  destruct (run_sound _ _ _ Hin) as (u & -> & Hu).
  apply lead_digit_free in Hu.
  rewrite (fromFirstDigit_skip _ _ Hu).
  destruct (starts_with_digit s1) eqn:Hd.
  - destruct s1 as [|c t]; [discriminate|]. simpl in Hd.
    rewrite (group_first c t Hd) in Hhd. injection Hhd as <-.
    rewrite (fromFirstDigit_at c t Hd). split; [discriminate|reflexivity].
  - rewrite (group_needs_digit s1 Hd) in Hhd. discriminate.
Qed.

Lemma match_here_at_digit (c : N) (t : jsstring) :
  is_digit c = true ->
  match_here (Pattern ld gr) (c :: t) = Some (capture (c :: t)).
Proof.
  intros Hc. unfold match_here. cbn [lead group].
  rewrite (lead_at_digit c t Hc). simpl. rewrite app_nil_r.
  apply group_first, Hc.
Qed.

(** The pattern finds its group at the first digit of the text, and nothing
    in a text without a digit. *)
Lemma match_group_scan (s : jsstring) :
  match_group (Pattern ld gr) s
  = match fromFirstDigit s with
    | [] => None
    | t => Some (capture t)
    end.
Proof.
  induction s as [|c s IH].
  - simpl. destruct (match_here (Pattern ld gr) []) as [g|] eqn:E;
      [|reflexivity].
    destruct (match_here_found [] g E) as [Hne _]. contradiction.
  - cbn [match_group]. destruct (is_digit c) eqn:Hc.
    + rewrite (match_here_at_digit c s Hc), (fromFirstDigit_at c s Hc).
      reflexivity.
    + destruct (match_here (Pattern ld gr) (c :: s)) as [g|] eqn:E.
      * destruct (match_here_found (c :: s) g E) as [Hne ->].
        destruct (fromFirstDigit (c :: s)); [contradiction|reflexivity].
      * rewrite IH. unfold fromFirstDigit at 2. simpl.
        unfold non_digit at 1. rewrite Hc. reflexivity.
Qed.

End FirstMatch.

(** *** The three leads *)

Lemma eps_digit_free (u : jsstring) : matches Eps u -> no_digit u.
Proof. simpl. intros ->. constructor. Qed.

Lemma euro_digit_free (u : jsstring) :
  matches (Opt (Chr euro)) u -> no_digit u.
Proof.
  simpl. intros [->| ->]; repeat constructor.
Qed.

Lemma space_not_digit (c : N) : is_space c = true -> is_digit c = false.
Proof.
  intros Hs. destruct (is_digit c) eqn:Hd; [|reflexivity].
  rewrite (digit_not_space c Hd) in Hs. discriminate.
Qed.

Lemma euro_spaces_digit_free (u : jsstring) :
  matches (Seq (Opt (Chr euro)) (Star is_space)) u -> no_digit u.
Proof.
  intros (u1 & u2 & -> & H1 & H2). apply Forall_app. split.
  - apply euro_digit_free, H1.
  - simpl in H2. eapply Forall_impl; [|exact H2].
    intros c. apply space_not_digit.
Qed.

Lemma digit_not_euro (c : N) : is_digit c = true -> (c =? euro)%N = false.
Proof.
  unfold is_digit, euro. intros H. apply andb_true_iff in H as [_ H].
  apply N.leb_le in H. apply N.eqb_neq. lia.
Qed.

Lemma euro_at_digit (c : N) (t : jsstring) :
  is_digit c = true -> JS.run (Opt (Chr euro)) (c :: t) = [c :: t].
Proof. intros H. simpl. rewrite (digit_not_euro c H). reflexivity. Qed.

Lemma euro_spaces_at_digit (c : N) (t : jsstring) :
  is_digit c = true ->
  JS.run (Seq (Opt (Chr euro)) (Star is_space)) (c :: t) = [c :: t].
Proof.
  intros H.
  change (JS.run (Seq (Opt (Chr euro)) (Star is_space)) (c :: t))
    with (flat_map (JS.run (Star is_space))
            (JS.run (Opt (Chr euro)) (c :: t))).
  rewrite (euro_at_digit c t H). simpl.
  rewrite (digit_not_space c H). reflexivity.
Qed.

(** *** The two groups *)

Lemma plus_needs_digit (s : jsstring) :
  starts_with_digit s = false -> JS.run (Plus is_digit) s = [].
Proof.
  destruct s as [|c s]; simpl; [reflexivity|]. intros ->. reflexivity.
Qed.

Lemma plus_first (c : N) (t : jsstring) :
  is_digit c = true ->
  hd_error (map (consumed (c :: t)) (JS.run (Plus is_digit) (c :: t)))
  = Some (takeWhile is_digit (c :: t)).
Proof.
  intros Hc. cbn [JS.run]. rewrite Hc.
  destruct (run_star_cons is_digit t) as (l & ->). cbn [map hd_error].
  f_equal. rewrite <- (consumed_dropWhile is_digit (c :: t)).
  simpl dropWhile. rewrite Hc. reflexivity.
Qed.

Lemma number_needs_digit (sep : N) (s : jsstring) :
  starts_with_digit s = false -> JS.run (number_group sep) s = [].
Proof.
  intros H. unfold number_group.
  change (JS.run (Seq (Plus is_digit) (Opt (Seq (Chr sep) (Plus is_digit)))) s)
    with (flat_map (JS.run (Opt (Seq (Chr sep) (Plus is_digit))))
            (JS.run (Plus is_digit) s)).
  rewrite (plus_needs_digit s H). reflexivity.
Qed.

(** The first remainder the optional tail [(?:sep\d+)?] offers. *)
Lemma tail_first (sep : N) (r : jsstring) :
  exists l,
    JS.run (Opt (Seq (Chr sep) (Plus is_digit))) r
    = match r with
      | c :: r' =>
          if (c =? sep)%N && starts_with_digit r'
          then dropWhile is_digit r'
          else r
      | [] => r
      end :: l.
Proof.
  cbn [JS.run]. destruct r as [|c r']; [exists []; reflexivity|].
  destruct (c =? sep)%N; cbn [flat_map andb]; [|exists []; reflexivity].
  rewrite app_nil_r. destruct r' as [|y r'']; [exists []; reflexivity|].
  cbn [starts_with_digit]. destruct (is_digit y) eqn:Hy;
    [|exists []; reflexivity].
  destruct (run_star_cons is_digit r'') as (l & ->).
  exists (l ++ [c :: y :: r'']). simpl. rewrite Hy. reflexivity.
Qed.

Lemma number_first (sep : N) (c : N) (t : jsstring) :
  is_digit c = true ->
  hd_error (map (consumed (c :: t)) (JS.run (number_group sep) (c :: t)))
  = Some (capturedNumber sep (c :: t)).
Proof.
  intros Hc. unfold number_group.
  change (JS.run (Seq (Plus is_digit) (Opt (Seq (Chr sep) (Plus is_digit))))
            (c :: t))
    with (flat_map (JS.run (Opt (Seq (Chr sep) (Plus is_digit))))
            (JS.run (Plus is_digit) (c :: t))).
  assert (Ep : JS.run (Plus is_digit) (c :: t) = run_star is_digit t)
    by (simpl; rewrite Hc; reflexivity).
  rewrite Ep.
  destruct (run_star_cons is_digit t) as (l & ->). cbn [flat_map].
  destruct (tail_first sep (dropWhile is_digit t)) as (l' & ->).
  cbn [app map hd_error]. f_equal.
  unfold capturedNumber.
  assert (Ed : dropWhile is_digit (c :: t) = dropWhile is_digit t)
    by (simpl; rewrite Hc; reflexivity).
  rewrite Ed.
  destruct (dropWhile is_digit t) as [|x r] eqn:Er.
  - rewrite <- Ed at 1. apply consumed_dropWhile.
  - destruct ((x =? sep)%N && starts_with_digit r) eqn:Hx.
    + rewrite <- (take_drop is_digit (c :: t)) at 1. rewrite Ed.
      rewrite <- (take_drop is_digit r) at 1.
      replace (takeWhile is_digit (c :: t)
               ++ x :: takeWhile is_digit r ++ dropWhile is_digit r)
        with ((takeWhile is_digit (c :: t) ++ x :: takeWhile is_digit r)
              ++ dropWhile is_digit r)
        by (rewrite <- app_assoc; reflexivity).
      apply consumed_app.
    + rewrite <- Ed at 1. apply consumed_dropWhile.
Qed.

(** Without its separator, what was captured is the leading number. *)
Lemma captured_replace (sep : N) (t : jsstring) :
  is_digit sep = false ->
  replace1 sep (capturedNumber sep t) = leadingNumber sep t.
Proof.
  intros Hsep. unfold capturedNumber, leadingNumber.
  assert (Hskip : forall v,
             replace1 sep (takeWhile is_digit t ++ v)
             = takeWhile is_digit t ++ replace1 sep v).
  { intros v. apply replace1_skip, digits_without;
      [exact Hsep|apply takeWhile_digits]. }
  destruct (dropWhile is_digit t) as [|x r].
  - rewrite <- (app_nil_r (takeWhile is_digit t)), Hskip. reflexivity.
  - destruct (N.eqb_spec x sep) as [->|Hne]; cbn [andb].
    + destruct (starts_with_digit r).
      * rewrite Hskip, replace1_head. reflexivity.
      * rewrite <- (app_nil_r (takeWhile is_digit t)), Hskip. reflexivity.
    + rewrite <- (app_nil_r (takeWhile is_digit t)), Hskip. reflexivity.
Qed.

Lemma leadingNumber_digits (sep : N) (c : N) (t : jsstring) :
  is_digit c = true ->
  leadingNumber sep (c :: t) <> [] /\ all_digits (leadingNumber sep (c :: t)).
Proof.
  intros Hc. unfold leadingNumber.
  assert (Hne : forall v, takeWhile is_digit (c :: t) ++ v <> [])
    by (intros v; simpl; rewrite Hc; discriminate).
  assert (Hne0 : takeWhile is_digit (c :: t) <> [])
    by (simpl; rewrite Hc; discriminate).
  assert (Hd := takeWhile_digits (c :: t)).
  destruct (dropWhile is_digit (c :: t)) as [|x r].
  - split; [exact Hne0|exact Hd].
  - destruct ((x =? sep)%N && starts_with_digit r).
    + split; [apply Hne|]. apply Forall_app. split;
        [exact Hd|apply takeWhile_digits].
    + split; [exact Hne0|exact Hd].
Qed.

Lemma parsePrice_scan (ld : regex) (sep : N) (s : jsstring) :
  is_digit sep = false ->
  (forall u, matches ld u -> no_digit u) ->
  (forall c t, is_digit c = true -> JS.run ld (c :: t) = [c :: t]) ->
  parsePrice (Pattern ld (number_group sep)) sep (Some s) = scanPrice sep s.
Proof.
  intros Hsep Hfree Hat. unfold parsePrice, scanPrice.
  rewrite (match_group_scan ld (number_group sep) (capturedNumber sep)
             Hfree Hat (number_needs_digit sep) (number_first sep)).
  destruct (fromFirstDigit s) as [|c t] eqn:E; [reflexivity|].
  assert (Hc : is_digit c = true).
  { unfold fromFirstDigit in E. clear -E.
    induction s as [|x s IH]; simpl in E; [discriminate|].
    unfold non_digit at 1 in E. destruct (is_digit x) eqn:Hx; simpl in E.
    - injection E as -> _. exact Hx.
    - apply IH, E. }
  rewrite (captured_replace sep (c :: t) Hsep).
  destruct (leadingNumber_digits sep c t Hc) as [Hne Hd].
  apply parseInt_digits; assumption.
Qed.

(** X1: both price parsers read the text from its first digit on and
    nothing before it: the price is the Number value (the nearest double,
    [Infinity] beyond the largest) of the number written by the first run of
    digits, joined with the second run when exactly one separator (a comma
    for Pararius, a dot for Funda) stands between the two; a third run is
    never read, and a text without a digit gives 0. *)
Theorem price_is_leading_number (s : jsstring) :
  parariusPrice (Some s) = scanPrice comma s
  /\ fundaPrice (Some s) = scanPrice dot s.
Proof.
  split.
  - apply (parsePrice_scan (Opt (Chr euro)) comma s eq_refl
             euro_digit_free euro_at_digit).
  - apply (parsePrice_scan (Seq (Opt (Chr euro)) (Star is_space)) dot s
             eq_refl euro_spaces_digit_free euro_spaces_at_digit).
Qed.

(** X2: the number of rooms is the Number value (the nearest double,
    [Infinity] beyond the largest) of the number written by the first run
    of digits of the text, wherever it stands; it is 2 when the text has no
    digit or is [null]. *)
Theorem rooms_is_first_number (s : jsstring) :
  parseRooms (Some s) = scanRooms s /\ parseRooms None = Int 2.
Proof.
  split; [|reflexivity]. unfold parseRooms, scanRooms, roomsRe.
  rewrite (match_group_scan Eps (Plus is_digit) (takeWhile is_digit)
             eps_digit_free (fun c t _ => eq_refl) plus_needs_digit
             plus_first).
  destruct (fromFirstDigit s) as [|c t] eqn:E; [reflexivity|].
  assert (Hc : is_digit c = true).
  { unfold fromFirstDigit in E. clear -E.
    induction s as [|x s IH]; simpl in E; [discriminate|].
    unfold non_digit at 1 in E. destruct (is_digit x) eqn:Hx; simpl in E.
    - injection E as -> _. exact Hx.
    - apply IH, E. }
  apply parseInt_digits; [|apply takeWhile_digits].
  simpl. rewrite Hc. discriminate.
Qed.

End ScanFacts.

(* ================================================================= *)
(** ** Further properties: which elements give a record *)

Module ReadingFacts.

Lemma readable_true (el : Element) :
  readable el = true <->
  text_ok (q_title el) = true /\ text_ok (q_price el) = true
  /\ text_ok (q_location el) = true /\ text_ok (q_size el) = true
  /\ text_ok (q_rooms el) = true /\ text_ok (q_link el) = true
  /\ query_ok (q_image el) = true.
Proof.
  unfold readable. rewrite !andb_true_iff. tauto.
Qed.

Lemma textOr_cases (h : option text) (dflt : jsstring) :
  (handle_ok h = true
   /\ exists v, textOr h dflt = ret v /\ yields (Returns h) dflt v)
  \/ (handle_ok h = false /\ textOr h dflt = throw).
Proof.
  destruct h as [[v|]|]; simpl.
  - left. split; [reflexivity|]. exists v. split; reflexivity.
  - right. split; reflexivity.
  - left. split; [reflexivity|]. exists (Some dflt). split; reflexivity.
Qed.

Lemma bind_throws {A B} (m : M A) (k : A -> M B) (s : State) :
  m = throw -> bind m k s = (Throws, s).
Proof. intros ->. reflexivity. Qed.

(** The screenshot step never throws; it reads the clock when there is an
    image. *)
Lemma takeScreenshot_eval (w : World) (prefix : jsstring) (i : nat)
    (imageElement : option (outcome unit)) (s : State) :
  takeScreenshot w prefix i imageElement s
  = (Returns (screenshotPathOf prefix i imageElement (clock w (ticks s))),
     match imageElement with
     | Some _ => set_ticks (S (ticks s)) s
     | None => s
     end).
Proof. destruct imageElement as [[[]|]|]; reflexivity. Qed.

Ltac skipped :=
  right; split;
  [ apply not_true_is_false; intros R; apply readable_true in R;
    repeat match goal with
           | E : _ = Returns _ |- _ => rewrite E in R
           | E : _ = Throws |- _ => rewrite E in R
           end;
    simpl in R; intuition congruence
  | try reflexivity ].

Ltac query_stage q :=
  let h := fresh "h" in
  let E := fresh "E" in
  destruct q as [h|] eqn:E; [rewrite bind_await; cbv beta|skipped].

Ltac text_stage :=
  match goal with
  | |- context [bind (textOr ?h ?d)] =>
      let Hok := fresh "Hok" in
      let v := fresh "v" in
      let Hv := fresh "Hv" in
      let Hy := fresh "Hy" in
      let Hbad := fresh "Hbad" in
      let Ht := fresh "Ht" in
      destruct (textOr_cases h d) as [(Hok & v & Hv & Hy)|(Hbad & Ht)];
      [ rewrite (bind_returns _ _ _ _ Hv); cbv beta
      | rewrite (bind_throws _ _ _ Ht); skipped ]
  end.

Ltac element_cases el s Hnth :=
  rewrite Hnth; cbv beta iota;
  rewrite (bind_returns (ret el) _ el s eq_refl);
  query_stage (q_title el); query_stage (q_price el);
  query_stage (q_location el); query_stage (q_size el);
  query_stage (q_rooms el); query_stage (q_link el);
  query_stage (q_image el);
  do 6 text_stage;
  unfold bind at 1; rewrite takeScreenshot_eval;
  match goal with
  | E : q_image el = Returns ?h |- _ => destruct h
  end;
  (left; split;
   [ apply readable_true;
     repeat match goal with
            | E : _ = Returns _ |- _ => rewrite E
            end;
     simpl; auto 10
   | eexists; split;
     [ unfold recordOf, reads; do 13 eexists;
       repeat match goal with
              | E : _ el = Returns _ |- _ => rewrite E
              end;
       split; [repeat split; eassumption|split; reflexivity]
     | unfold bind, now, rand, push, await;
       destruct (pause el); reflexivity ] ]).

(** One iteration: a readable element leaves its record, any other element
    leaves nothing; the screenshot and the pause decide neither. *)
Lemma parariusElement_step (w : World) (els : list Element) (i : nat)
    (el : Element) (s : State) :
  nth_error els i = Some el ->
  (readable el = true
   /\ exists p,
        recordOf Pararius i el p
        /\ properties (snd (try_catch (parariusElement w els i) (ret tt) s))
           = properties s ++ [p])
  \/ (readable el = false
      /\ properties (snd (try_catch (parariusElement w els i) (ret tt) s))
         = properties s).
Proof.
  intros Hnth. unfold try_catch, parariusElement, elementAt.
  element_cases el s Hnth.
Qed.

Lemma fundaElement_step (w : World) (els : list Element) (i : nat)
    (el : Element) (s : State) :
  nth_error els i = Some el ->
  (readable el = true
   /\ exists p,
        recordOf Funda i el p
        /\ properties (snd (try_catch (fundaElement w els i) (ret tt) s))
           = properties s ++ [p])
  \/ (readable el = false
      /\ properties (snd (try_catch (fundaElement w els i) (ret tt) s))
         = properties s).
Proof.
  intros Hnth. unfold try_catch, fundaElement, elementAt.
  element_cases el s Hnth.
Qed.

Lemma element_step (src : Source) (w : World) (els : list Element) (i : nat)
    (el : Element) (s : State) :
  nth_error els i = Some el ->
  (readable el = true
   /\ exists p,
        recordOf src i el p
        /\ properties (snd (try_catch (element src w els i) (ret tt) s))
           = properties s ++ [p])
  \/ (readable el = false
      /\ properties (snd (try_catch (element src w els i) (ret tt) s))
         = properties s).
Proof.
  destruct src; simpl element.
  - apply parariusElement_step.
  - apply fundaElement_step.
Qed.

(** The loop leaves the records of the readable elements it passes, one
    each, in page order. *)
Lemma for_loop_records (src : Source) (w : World) (els : list Element) :
  forall n from s,
    from + n <= length els ->
    exists l,
      properties
        (snd (for_loop n from
                (fun i => try_catch (element src w els i) (ret tt)) s))
      = properties s ++ l
      /\ Forall2 (recordAt src els) (filter (readableAt els) (seq from n)) l.
Proof.
  induction n as [|n IH]; intros from s Hlen.
  - exists []. simpl. rewrite app_nil_r. split; [reflexivity|constructor].
  - cbn [for_loop seq filter]. unfold bind.
    pose proof (caught_returns (element src w els from) s) as Hret.
    destruct (nth_error els from) as [el|] eqn:Hnth;
      [|apply nth_error_None in Hnth; lia].
    pose proof (element_step src w els from el s Hnth) as Hstep.
    destruct (try_catch (element src w els from) (ret tt) s)
      as [[[]|] s1]; simpl in Hret; [|discriminate].
    simpl in Hstep.
    destruct (IH (S from) s1) as (l & P & F); [lia|].
    unfold readableAt at 1. rewrite Hnth.
    destruct Hstep as [(Hr & p & Hp & E)|(Hr & E)]; rewrite Hr.
    + exists (p :: l). rewrite P, E, <- app_assoc. split; [reflexivity|].
      constructor; [|exact F]. exists el. auto.
    + exists l. rewrite P, E. split; [reflexivity|exact F].
Qed.

Lemma readable_count (pre els : list Element) (bound : nat) :
  length (filter (readableAt (pre ++ els))
            (seq (length pre) (Nat.min (length els) bound)))
  = length (filter readable (firstn bound els)).
Proof.
  revert pre bound. induction els as [|e els IH]; intros pre bound.
  - simpl. rewrite firstn_nil. reflexivity.
  - destruct bound as [|b]; [rewrite Nat.min_0_r; reflexivity|].
    cbn [length Nat.min seq firstn filter].
    assert (Hat : readableAt (pre ++ e :: els) (length pre) = readable e).
    { unfold readableAt. rewrite nth_error_app2 by lia.
      rewrite Nat.sub_diag. reflexivity. }
    rewrite Hat.
    specialize (IH (pre ++ [e]) b).
    rewrite <- app_assoc, length_app in IH. simpl in IH.
    rewrite Nat.add_1_r in IH.
    destruct (readable e); simpl; rewrite IH; reflexivity.
Qed.

Lemma scrape_records (src : Source) (w : World)
    (s s0 : State) (els : list Element)
    (Hinit : initBrowser w s = (Returns tt, s0))
    (Hpage : newPage (site src w) = Returns tt)
    (Hloads : loads src w els) :
  exists l s',
    scrape src w s = (Returns l, s')
    /\ Forall2 (recordAt src els) (readableIndices (cap src) els) l
    /\ length l = length (filter readable (firstn (cap src) els)).
Proof.
  destruct (for_loop_records src w els (Nat.min (length els) (cap src)) 0
              (on_page s0)) as (l & P & F); [lia|].
  assert (Hret := for_loop_trail
            (fun j => match src with
                      | Pararius => parariusRecord j
                      | Funda => fundaRecord j
                      end)
            (fun i => try_catch (element src w els i) (ret tt))
            (fun j => element_appends src w els j)
            (fun j st => caught_returns (element src w els j) st)
            (Nat.min (length els) (cap src)) 0 (on_page s0)).
  destruct Hret as (Eloop & _).
  rewrite scrape_unfold.
  rewrite (scrape_eval w (site src w) _ s s0 Hinit Hpage).
  rewrite (listing_loaded src w els (on_page s0) Hloads).
  unfold bind.
  destruct (for_loop (Nat.min (length els) (cap src)) 0
              (fun i => try_catch (element src w els i) (ret tt))
              (on_page s0)) as [[[]|] s3]; simpl in Eloop; [|discriminate].
  simpl in P. simpl.
  exists (properties s3), (off_page s3).
  split; [reflexivity|]. rewrite P. split; [exact F|].
  apply Forall2_length in F. rewrite <- F. unfold readableIndices.
  apply (readable_count [] els (cap src)).
Qed.

(** X3: once the page of a source has loaded, the operation returns exactly
    one record for each readable element among the first 20 (Pararius) or 15
    (Funda), in page order, each built from the texts of its element; an
    element one of whose selectors or text readings throws gives none.
    Neither a failed screenshot nor a failed pause loses a record. *)
Theorem one_record_per_readable_element (src : Source) (w : World)
    (s s0 : State) (els : list Element)
    (Hinit : initBrowser w s = (Returns tt, s0))
    (Hpage : newPage (site src w) = Returns tt)
    (Hloads : loads src w els) :
  exists l s',
    scrape src w s = (Returns l, s')
    /\ Forall2 (recordAt src els) (readableIndices (cap src) els) l
    /\ length l = length (filter readable (firstn (cap src) els)).
Proof. exact (scrape_records src w s s0 els Hinit Hpage Hloads). Qed.

End ReadingFacts.

(* ================================================================= *)
(** ** Further properties: failures and resources *)

Module ResourceFacts.
Import ScanFacts ReadingFacts.

Lemma initBrowser_cases (w : World) (s : State) :
  (exists s0, initBrowser w s = (Returns tt, s0))
  \/ initBrowser w s = (Throws, s).
Proof.
  unfold initBrowser. destruct (browser s); [left; eauto|].
  destruct (launch w) as [[]|]; [left; eauto|right; reflexivity].
Qed.

Lemma scrape_throws_cases (src : Source) (w : World) (s : State) :
  fst (scrape src w s) = Throws
  <-> fst (initBrowser w s) = Throws \/ newPage (site src w) = Throws.
Proof.
  split.
  - intros H. destruct (initBrowser_cases w s) as [[s0 Hi]|Hi];
      [|left; rewrite Hi; reflexivity].
    destruct (newPage (site src w)) as [[]|] eqn:Hp; [|right; reflexivity].
    destruct (scrape_returns src w s s0 Hi Hp) as (l & s' & E & _).
    rewrite E in H. discriminate.
  - intros H. rewrite scrape_unfold, scrape_unopened by exact H.
    reflexivity.
Qed.

(** X4: the per-source operation throws in two cases only, both before its
    outer [try]: no browser could be launched, or the page could not be
    opened.  Every failure after that is turned into a list. *)
Theorem scrape_throws_iff (src : Source) (w : World) (s : State) :
  fst (scrape src w s) = Throws
  <-> fst (initBrowser w s) = Throws \/ newPage (site src w) = Throws.
Proof. exact (scrape_throws_cases src w s). Qed.

(** X5: [scrapeAllWithScreenshots] throws exactly when no browser could be
    launched or the page of one of the two sources could not be opened; in
    particular the records of Pararius are not returned when the page for
    Funda cannot be opened. *)
Theorem scrapeAll_throws_iff (w : World) (s : State) :
  fst (scrapeAllWithScreenshots w s) = Throws
  <-> fst (initBrowser w s) = Throws
      \/ newPage (pararius w) = Throws
      \/ newPage (funda w) = Throws.
Proof.
  destruct (initBrowser_cases w s) as [[s0 Hi]|Hi].
  - rewrite (scrapeAll_started w s s0 Hi), Hi.
    destruct (initBrowser_session w s s0 Hi) as [b Hb].
    pose proof (initBrowser_held w s0 b Hb) as Hi0.
    pose proof (scrape_throws_cases Pararius w s0) as TP.
    rewrite Hi0 in TP. simpl in TP.
    pose proof (scrape_frame_held Pararius w s0 b Hb) as F1. simpl in F1.
    unfold try_finally, bind, ret.
    destruct (scrapeParariusWithScreenshots w s0) as [[lp|] s1];
      simpl in TP, F1.
    + assert (Hb1 : browser s1 = Some b) by (destruct F1 as [-> _]; exact Hb).
      pose proof (initBrowser_held w s1 b Hb1) as Hi1.
      pose proof (scrape_throws_cases Funda w s1) as TF.
      rewrite Hi1 in TF. simpl in TF.
      destruct (scrapeFundaWithScreenshots w s1) as [[lf|] s2]; simpl in TF;
        pose proof (closeBrowser_returns s2) as Hc;
        destruct (closeBrowser s2) as [[[]|] s3]; simpl in Hc;
        try discriminate; simpl.
      * split; [discriminate|].
        intros [H|[H|H]]; [discriminate| |].
        -- assert (X : @Returns (list Property) lp = Throws)
             by (apply TP; right; exact H). discriminate.
        -- assert (X : @Returns (list Property) lf = Throws)
             by (apply TF; right; exact H). discriminate.
      * split; [|reflexivity]. intros _.
        destruct TF as [TF _]. destruct (TF eq_refl) as [H|H];
          [discriminate|auto].
    + pose proof (closeBrowser_returns s1) as Hc.
      destruct (closeBrowser s1) as [[[]|] s3]; simpl in Hc;
        try discriminate; simpl.
      split; [|reflexivity]. intros _.
      destruct TP as [TP _]. destruct (TP eq_refl) as [H|H];
        [discriminate|auto].
  - rewrite (scrapeAll_unstarted w s s Hi), Hi. simpl.
    split; [auto|reflexivity].
Qed.

Lemma initBrowser_launched (w : World) (s : State) :
  launched (snd (initBrowser w s)) = launched s + launches w s
  /\ openPages (snd (initBrowser w s)) = openPages s
  /\ closedBrowsers (snd (initBrowser w s)) = closedBrowsers s.
Proof.
  unfold initBrowser, launches. destruct (browser s).
  - simpl. repeat split. lia.
  - destruct (launch w); simpl; repeat split; lia.
Qed.

(** X6: whether it returns or throws, the per-source operation leaves as
    many pages open as it found: the page it opens is closed on every way
    out.  It closes no browser, and launches one only when the scraper holds
    none. *)
Theorem scrape_releases_page (src : Source) (w : World) (s : State) :
  openPages (snd (scrape src w s)) = openPages s
  /\ closedBrowsers (snd (scrape src w s)) = closedBrowsers s
  /\ launched (snd (scrape src w s)) = launched s + launches w s.
Proof.
  destruct (scrape_frame src w s) as (_ & Fl & Fc & Fp).
  destruct (initBrowser_launched w s) as (Hl & Hp & Hc).
  rewrite Fp, Fc, Fl. auto.
Qed.

(** X7: in one run of [scrapeAllWithScreenshots], [initBrowser] is called
    three times and launches at most one browser: exactly one when the
    scraper holds none and the launch succeeds; a second or third call finds
    the session and launches nothing. *)
Theorem scrapeAll_launches_once (w : World) (s : State) :
  launched (snd (scrapeAllWithScreenshots w s)) = launched s + launches w s
  /\ forall s0,
       initBrowser w s = (Returns tt, s0) ->
       initBrowser w s0 = (Returns tt, s0).
Proof.
  split.
  - destruct (initBrowser_launched w s) as (Hl & _).
    destruct (scrapeAll_state w s) as [[Hi E]|(s0 & s2 & Hi & F & E)].
    + rewrite E. rewrite Hi in Hl. exact Hl.
    + rewrite E. rewrite Hi in Hl. simpl in Hl. rewrite <- Hl.
      destruct F as (_ & Fl & _). rewrite <- Fl.
      unfold closeBrowser. destruct (browser s2); reflexivity.
  - intros s0 Hi. destruct (initBrowser_session w s s0 Hi) as [b Hb].
    apply (initBrowser_held w s0 b Hb).
Qed.

(** When a call before the loop throws, the outer [try] is left by that
    exception. *)
Lemma listing_not_loaded (src : Source) (w : World) (s : State) :
  (forall els, ~ loads src w els) ->
  fst ((match src with
        | Pararius => parariusListing w
        | Funda => fundaListing w
        end) s) = Throws.
Proof.
  intros H. destruct src; simpl loads in H.
  - unfold parariusListing, bind, await, try_catch, ret,
      ensureDirectoryExists. cbv zeta.
    destruct (setViewportSize (pararius w)) as [[]|] eqn:E1; [|reflexivity].
    destruct (setUserAgent (pararius w)) as [[]|] eqn:E2; [|reflexivity].
    destruct (goto (pararius w)) as [[]|] eqn:E3; [|reflexivity].
    destruct (waitForSelector (pararius w)) as [[]|] eqn:E4;
      [|destruct (click (pararius w)); reflexivity].
    destruct (listing (pararius w)) as [els|] eqn:E5;
      [|destruct (click (pararius w)); reflexivity].
    destruct (access (pararius w)) as [[]|] eqn:E6;
      [exfalso; apply (H els); unfold parariusLoads; cbv zeta;
       rewrite E1, E2, E3, E4, E5, E6; auto 10|].
    destruct (mkdir (pararius w)) as [[]|] eqn:E7;
      [exfalso; apply (H els); unfold parariusLoads; cbv zeta;
       rewrite E1, E2, E3, E4, E5, E7; auto 10|].
    destruct (click (pararius w)); reflexivity.
  - unfold fundaListing, bind, await, try_catch, ret,
      ensureDirectoryExists. cbv zeta.
    destruct (setViewportSize (funda w)) as [[]|] eqn:E1; [|reflexivity].
    destruct (goto (funda w)) as [[]|] eqn:E3; [|reflexivity].
    destruct (waitForSelector (funda w)) as [[]|] eqn:E4;
      [|destruct (click (funda w)); reflexivity].
    destruct (listing (funda w)) as [els|] eqn:E5;
      [|destruct (click (funda w)); reflexivity].
    destruct (access (funda w)) as [[]|] eqn:E6;
      [exfalso; apply (H els); unfold fundaLoads; cbv zeta;
       rewrite E1, E3, E4, E5, E6; auto 10|].
    destruct (mkdir (funda w)) as [[]|] eqn:E7;
      [exfalso; apply (H els); unfold fundaLoads; cbv zeta;
       rewrite E1, E3, E4, E5, E7; auto 10|].
    destruct (click (funda w)); reflexivity.
Qed.

Lemma scrape_unloaded (src : Source) (w : World) (s s0 : State)
    (Hinit : initBrowser w s = (Returns tt, s0))
    (Hpage : newPage (site src w) = Returns tt)
    (Hnot : forall els, ~ loads src w els) :
  exists s', scrape src w s = (Returns [], s') /\ frame s0 s'.
Proof.
  pose proof (scrape_frame src w s) as F. rewrite Hinit in F. simpl in F.
  rewrite scrape_unfold in *.
  rewrite (scrape_eval w (site src w) _ s s0 Hinit Hpage) in *.
  rewrite (listing_not_loaded src w (on_page s0) Hnot) in *.
  eexists. split; [reflexivity|exact F].
Qed.

(** X8: when any call between the opening of the page and the loop throws
    (setting the viewport or the user agent, navigation, the wait for the
    listing, the enumeration of the elements, or both [fs.access] and
    [fs.mkdir] on the screenshots directory), the operation returns the
    empty list; the click on the cookie banner is not among these calls. *)
Theorem scrape_empty_unless_loaded (src : Source) (w : World) (s s0 : State)
    (Hinit : initBrowser w s = (Returns tt, s0))
    (Hpage : newPage (site src w) = Returns tt)
    (Hnot : forall els, ~ loads src w els) :
  exists s', scrape src w s = (Returns [], s') /\ frame s0 s'.
Proof. exact (scrape_unloaded src w s s0 Hinit Hpage Hnot). Qed.

End ResourceFacts.

(* ================================================================= *)
(** ** Further properties: the fields of a record *)

Module FieldFacts.
Import ScanFacts ReadingFacts ResourceFacts.

Lemma parariusRecord_built (i : nat) (p : Property) :
  parariusRecord i p -> built p.
Proof.
  intros (a & b & c & d & e & f & g & h & r1 & r2 & r3 & r4 & ->).
  exists Pararius, i, a, b, c, d, e, f, g, h, r1, r2, r3, r4. reflexivity.
Qed.

Lemma fundaRecord_built (i : nat) (p : Property) :
  fundaRecord i p -> built p.
Proof.
  intros (a & b & c & d & e & f & g & h & r1 & r2 & r3 & r4 & ->).
  exists Funda, i, a, b, c, d, e, f, g, h, r1, r2, r3, r4. reflexivity.
Qed.

Lemma scrape_built (src : Source) (w : World) (s : State)
    (l : list Property) :
  fst (scrape src w s) = Returns l -> Forall built l.
Proof.
  intros H. destruct src; simpl in H.
  - destruct (scrapePararius_shape w s) as [_ Hs].
    destruct (Hs l H) as (n & _ & T).
    eapply trail_Forall; [|exact T]. apply parariusRecord_built.
  - destruct (scrapeFunda_shape w s) as [_ Hs].
    destruct (Hs l H) as (n & _ & T).
    eapply trail_Forall; [|exact T]. apply fundaRecord_built.
Qed.

(** Every record any operation returns was built by one of the loops. *)
Lemma produced_built (w : World) (s : State) (p : Property) :
  produced w s p -> built p.
Proof.
  intros (l & s' & Hin & [H|[H|H]]).
  - pose proof (scrape_built Pararius w s l) as HF. simpl in HF.
    rewrite H in HF. specialize (HF eq_refl).
    rewrite Forall_forall in HF. auto.
  - pose proof (scrape_built Funda w s l) as HF. simpl in HF.
    rewrite H in HF. specialize (HF eq_refl).
    rewrite Forall_forall in HF. auto.
  - destruct (scrapeAll_returned w s s' l H)
      as (s0 & lp & s1 & lf & s2 & _ & Hp & Hf & ->).
    apply (Permutation_in _ (Permutation_sym (sort_perm byListedDays _)))
      in Hin.
    apply in_app_or in Hin as [Hin|Hin].
    + pose proof (scrape_built Pararius w s0 lp) as HF. simpl in HF.
      rewrite Hp in HF. specialize (HF eq_refl).
      rewrite Forall_forall in HF. auto.
    + pose proof (scrape_built Funda w s1 lf) as HF. simpl in HF.
      rewrite Hf in HF. specialize (HF eq_refl).
      rewrite Forall_forall in HF. auto.
Qed.

(** The rounded product stays below [n]: the product is at most
    [n - n / 2^53], and the step between doubles there is less than
    [2 n / 2^53], so rounding moves it by less than [n / 2^53]. *)
Lemma random_floor_range (r : N) (n : Z) :
  (0 < n)%Z -> (0 <= random_floor r n < n)%Z.
Proof.
  intros Hn. unfold random_floor.
  assert (Hr : (0 <= Z.of_N (r mod 2 ^ 53) < 2 ^ 53)%Z).
  { split; [apply N2Z.is_nonneg|].
    change (2 ^ 53)%Z with (Z.of_N (2 ^ 53)). apply N2Z.inj_lt.
    apply N.mod_lt. discriminate. }
  set (x := Z.of_N (r mod 2 ^ 53)) in *.
  assert (Hx : (0 <= x * n <= n * 2 ^ 53 - n)%Z) by nia.
  assert (Hround : (0 <= round53 (x * n) < n * 2 ^ 53)%Z).
  { destruct (Z_lt_le_dec (Z.abs (x * n)) (2 ^ 53)) as [Hs|Hl].
    - rewrite (round53_small _ Hs). lia.
    - destruct (round53_large _ Hl) as (q & e & Ee & He & Hq & E & _ & Hup).
      rewrite Z.abs_eq in Ee, Hup, Hl by lia.
      assert (Hpos : (0 < x * n)%Z)
        by (assert (0 < 2 ^ 53)%Z by reflexivity; lia).
      rewrite (Z.sgn_pos _ Hpos), Z.mul_1_l in E. rewrite E.
      destruct (Z.log2_spec _ Hpos) as [Hlo _].
      assert (Epow : (2 ^ Z.log2 (x * n) = 2 ^ (e - 1) * 2 ^ 53)%Z).
      { rewrite <- Z.pow_add_r by lia. f_equal. lia. }
      assert (Hstep : (2 ^ (e - 1) < n)%Z) by nia.
      assert (0 <= 2 ^ e)%Z by (apply Z.pow_nonneg; lia).
      split; [|lia].
      apply Z.mul_nonneg_nonneg; [|assumption].
      assert (0 < 2 ^ 52)%Z by reflexivity. lia. }
  split.
  - apply Z.div_pos; [lia|reflexivity].
  - apply Z.div_lt_upper_bound; [reflexivity|]. lia.
Qed.

Lemma pick_in (a b c : jsstring) (r : N) : In (pick [a; b; c] r) [a; b; c].
Proof.
  unfold pick. destruct (random_floor_range r 3 eq_refl) as [H0 H3].
  assert (Hk : Z.to_nat (random_floor r 3) < 3) by lia.
  destruct (Z.to_nat (random_floor r 3)) as [|[|[|k]]]; simpl; auto; lia.
Qed.

(** X10: the fields the scraper makes up stay in their ranges, the
    rounding of the product [Math.random() * n] notwithstanding.
    [listedDays] is 0, 1 or 2 for Pararius and 0 to 3 for Funda;
    [buildYear] is the numeral of a year from 1950 to 2019; [interior] and
    [energyLabel] are one of their three values each, never [undefined]. *)
Theorem synthesized_fields_in_range (w : World) (s : State) (p : Property)
    (H : produced w s p) :
  (exists d,
      listedDays p = Int d /\ (0 <= d <= 3)%Z
      /\ (source p = lit "Pararius" -> (d <= 2)%Z))
  /\ (exists y, buildYear p = Z_toString y /\ (1950 <= y <= 2019)%Z)
  /\ In (interior p) [lit "Furnished"; lit "Upholstered"; lit "Shell"]
  /\ In (energyLabel p) [lit "A"; lit "B"; lit "C"].
Proof.
  destruct (produced_built w s p H)
    as (src & i & a & b & c & d & e & f & g & h & r1 & r2 & r3 & r4 & ->).
  split; [|split; [|split]].
  - destruct src; simpl.
    + exists (random_floor r1 3).
      pose proof (random_floor_range r1 3 eq_refl).
      split; [reflexivity|]. split; [lia|]. intros _. lia.
    + exists (random_floor r1 4).
      pose proof (random_floor_range r1 4 eq_refl).
      split; [reflexivity|]. split; [lia|]. discriminate.
  - exists (1950 + random_floor r2 70)%Z.
    pose proof (random_floor_range r2 70 eq_refl).
    split; [destruct src; reflexivity|lia].
  - destruct src; apply pick_in.
  - destruct src; apply pick_in.
Qed.

(** [Math.floor] is taken of the rounded product: the draw of
    [awkward_draw], whose exact product with 70 is below 66, gives 66. *)
Lemma random_floor_rounded :
  random_floor awkward_draw 70 = 66%Z
  /\ (Z.of_N awkward_draw * 70 / 2 ^ 53 = 65)%Z.
Proof. split; vm_compute; reflexivity. Qed.

Lemma awkward_record_produced : produced awkward initial awkward_record.
Proof.
  eexists. eexists. split; [|right; left; vm_compute; reflexivity].
  left. vm_compute. reflexivity.
Qed.

Lemma synthesized_fields_in_range_witness :
  produced awkward initial awkward_record
  /\ listedDays awkward_record = Int 3
  /\ buildYear awkward_record = lit "2016"
  /\ In (interior awkward_record)
       [lit "Furnished"; lit "Upholstered"; lit "Shell"].
Proof.
  split; [exact awkward_record_produced|].
  destruct (synthesized_fields_in_range awkward initial awkward_record
              awkward_record_produced) as (_ & _ & Hi & _).
  split; [vm_compute; reflexivity|].
  split; [vm_compute; reflexivity|exact Hi].
Defined.

Lemma orElse_nonempty (x : option jsstring) (d : jsstring) :
  d <> [] -> orElse x d <> [].
Proof.
  intros Hd. destruct x as [[|c u]|]; simpl; try exact Hd. discriminate.
Qed.

Lemma resolveUrl_absolute (base : jsstring) (u : option jsstring) :
  startsWith (lit "http") base = true ->
  startsWith (lit "http") (resolveUrl base u) = true.
Proof.
  intros Hb. unfold resolveUrl.
  assert (Happ : forall v, startsWith (lit "http") (base ++ v) = true).
  { intros v. destruct base as [|c1 [|c2 [|c3 [|c4 rest]]]];
      simpl in Hb; try discriminate;
      try (rewrite ?andb_false_r in Hb; discriminate).
    simpl. apply andb_true_iff in Hb as [H1 Hb].
    apply andb_true_iff in Hb as [H2 Hb].
    apply andb_true_iff in Hb as [H3 Hb].
    apply andb_true_iff in Hb as [H4 _].
    rewrite H1, H2, H3, H4. reflexivity. }
  destruct u as [v|]; [|apply Happ].
  destruct (startsWith (lit "http") v) eqn:E; [exact E|apply Happ].
Qed.

(** X11: whatever the page holds, the text fields of a record are never
    empty ([title], [location], [size], [neighborhood]: a default stands in
    for an absent or blank text), and [sourceUrl] always starts with "http":
    an extracted URL that does so is kept, any other, [null] included, is
    appended to the site's address. *)
Theorem text_fields_filled (w : World) (s : State) (p : Property)
    (H : produced w s p) :
  title p <> [] /\ location p <> [] /\ size p <> [] /\ neighborhood p <> []
  /\ startsWith (lit "http") (sourceUrl p) = true.
Proof.
  destruct (produced_built w s p H)
    as (src & i & a & b & c & d & e & f & g & h & r1 & r2 & r3 & r4 & ->).
  destruct src; cbn [property parariusProperty fundaProperty title location
    size neighborhood sourceUrl].
  - repeat split; try (apply orElse_nonempty; discriminate).
    apply resolveUrl_absolute. reflexivity.
  - repeat split; try (apply orElse_nonempty; discriminate).
    + discriminate.
    + apply resolveUrl_absolute. reflexivity.
Qed.

Lemma text_fields_filled_witness :
  produced storage initial storage_record
  /\ location storage_record = lit "Groningen"
  /\ sourceUrl storage_record = lit "https://pararius.com"
  /\ title storage_record <> [].
Proof.
  split; [exact storage_record_produced|].
  destruct (text_fields_filled storage initial storage_record
              storage_record_produced) as (Ht & _).
  split; [vm_compute; reflexivity|].
  split; [vm_compute; reflexivity|exact Ht].
Defined.

End FieldFacts.

(* ================================================================= *)
(** ** Further properties: sample runs, the cookie banner, the export *)

Module ExportFacts.
Import ScanFacts ReadingFacts ResourceFacts FieldFacts.

Lemma one_record_per_readable_element_witness :
  exists l s',
    scrape Funda mixed initial = (Returns l, s')
    /\ readableIndices (cap Funda) [blank; broken; pictured] = [0; 2]
    /\ map title l = [lit "Funda Property 1"; lit "Herestraat 5"]
    /\ Forall2 (recordAt Funda [blank; broken; pictured]) [0; 2] l.
Proof.
  destruct (one_record_per_readable_element Funda mixed initial started
              [blank; broken; pictured]) as (l & s' & E & F & _).
  - reflexivity.
  - reflexivity.
  - simpl. unfold fundaLoads. simpl. repeat split; auto.
  - exists l, s'. split; [exact E|]. split; [reflexivity|].
    split; [|exact F].
    assert (El : l = match fst (scrape Funda mixed initial) with
                     | Returns l0 => l0
                     | Throws => []
                     end) by (rewrite E; reflexivity).
    rewrite El. vm_compute. reflexivity.
Defined.

Lemma scrape_empty_unless_loaded_witness :
  (forall els, ~ loads Pararius (Samples.run no_directory no_directory) els)
  /\ exists s',
       scrape Pararius (Samples.run no_directory no_directory) initial
       = (Returns [], s').
Proof.
  assert (Hnot : forall els,
             ~ loads Pararius (Samples.run no_directory no_directory) els).
  { intros els (_ & _ & _ & _ & _ & [H|H]); discriminate. }
  split; [exact Hnot|].
  destruct (scrape_empty_unless_loaded Pararius
              (Samples.run no_directory no_directory) initial started
              eq_refl eq_refl Hnot) as (s' & E & _).
  exists s'. exact E.
Defined.

(** *** The cookie banner *)

Lemma parariusListing_click (o o' : outcome unit) (w : World) (s : State) :
  parariusListing (set_clicks o o' w) s = parariusListing w s.
Proof.
  unfold parariusListing, bind, await, try_catch, ret. cbv zeta.
  cbn [pararius set_clicks set_click setViewportSize setUserAgent goto click
       waitForSelector listing].
  destruct (setViewportSize (pararius w)); [|reflexivity].
  destruct (setUserAgent (pararius w)); [|reflexivity].
  destruct (goto (pararius w)); [|reflexivity].
  destruct o as [[]|]; destruct (click (pararius w)) as [[]|]; reflexivity.
Qed.

Lemma fundaListing_click (o' o : outcome unit) (w : World) (s : State) :
  fundaListing (set_clicks o' o w) s = fundaListing w s.
Proof.
  unfold fundaListing, bind, await, try_catch, ret. cbv zeta.
  cbn [funda set_clicks set_click setViewportSize goto click
       waitForSelector listing].
  destruct (setViewportSize (funda w)); [|reflexivity].
  destruct (goto (funda w)); [|reflexivity].
  destruct o as [[]|]; destruct (click (funda w)) as [[]|]; reflexivity.
Qed.

Lemma scrape_click (src : Source) (o1 o2 : outcome unit) (w : World)
    (s : State) :
  scrape src (set_clicks o1 o2 w) s = scrape src w s.
Proof.
  rewrite !scrape_unfold.
  destruct (initBrowser_cases w s) as [[s0 Hi]|Hi].
  - destruct (newPage (site src w)) as [[]|] eqn:Hp.
    + rewrite (scrape_eval w (site src w) _ s s0 Hi Hp).
      assert (Hp' : newPage (site src (set_clicks o1 o2 w)) = Returns tt)
        by (destruct src; exact Hp).
      rewrite (scrape_eval (set_clicks o1 o2 w)
                 (site src (set_clicks o1 o2 w)) _ s s0 Hi Hp').
      destruct src.
      * rewrite parariusListing_click. reflexivity.
      * rewrite fundaListing_click. reflexivity.
    + assert (Hp' : newPage (site src (set_clicks o1 o2 w)) = Throws)
        by (destruct src; exact Hp).
      rewrite (scrape_unopened w (site src w) _ s (or_intror Hp)).
      rewrite (scrape_unopened (set_clicks o1 o2 w)
                 (site src (set_clicks o1 o2 w)) _ s (or_intror Hp')).
      reflexivity.
  - assert (Ht : fst (initBrowser w s) = Throws)
      by (rewrite Hi; reflexivity).
    rewrite (scrape_unopened w (site src w) _ s (or_introl Ht)).
    rewrite (scrape_unopened (set_clicks o1 o2 w)
               (site src (set_clicks o1 o2 w)) _ s (or_introl Ht)).
    reflexivity.
Qed.

(** X9: the click on the cookie banner is best effort: whether it succeeds
    or throws, on either site, changes nothing in what any operation returns
    nor in the state it leaves. *)
Theorem cookie_click_is_ignored (o1 o2 : outcome unit) (w : World)
    (s : State) :
  scrapeParariusWithScreenshots (set_clicks o1 o2 w) s
  = scrapeParariusWithScreenshots w s
  /\ scrapeFundaWithScreenshots (set_clicks o1 o2 w) s
     = scrapeFundaWithScreenshots w s
  /\ scrapeAllWithScreenshots (set_clicks o1 o2 w) s
     = scrapeAllWithScreenshots w s.
Proof.
  split; [exact (scrape_click Pararius o1 o2 w s)|].
  split; [exact (scrape_click Funda o1 o2 w s)|].
  destruct (initBrowser_cases w s) as [[s0 Hi]|Hi].
  - rewrite (scrapeAll_started w s s0 Hi).
    rewrite (scrapeAll_started (set_clicks o1 o2 w) s s0 Hi).
    unfold try_finally, bind.
    pose proof (scrape_click Pararius o1 o2 w s0) as EP. simpl in EP.
    rewrite EP.
    destruct (scrapeParariusWithScreenshots w s0) as [[lp|] s1];
      [|reflexivity].
    pose proof (scrape_click Funda o1 o2 w s1) as EF. simpl in EF.
    rewrite EF. reflexivity.
  - rewrite (scrapeAll_unstarted w s s Hi).
    rewrite (scrapeAll_unstarted (set_clicks o1 o2 w) s s Hi).
    reflexivity.
Qed.

(** *** The export *)

Lemma built_restored (p : Property) :
  built p -> withScreenshotPath (withoutScreenshotPath p) = p.
Proof.
  intros (src & i & a & b & c & d & e & f & g & h & r1 & r2 & r3 & r4 & ->).
  destruct src; reflexivity.
Qed.

Lemma built_images (p : Property) :
  built p -> images p = imagesOf (image p) /\ screenshotPath p = image p.
Proof.
  intros (src & i & a & b & c & d & e & f & g & h & r1 & r2 & r3 & r4 & ->).
  destruct src; split; reflexivity.
Qed.

(** X12: [scrapePropertiesWithScreenshots] returns, record for record and
    in the same order, what [scrapeAllWithScreenshots] returns without the
    field [screenshotPath], and leaves the same state.  Nothing is lost by
    it: in every record [screenshotPath] equals [image], so putting [image]
    back in its place restores the list; and [images] holds [image] alone
    when it is not empty, nothing otherwise. *)
Theorem export_loses_nothing (w : World) (s s' : State)
    (exported : list Api.Property)
    (H : scrapePropertiesWithScreenshots w s = (Returns exported, s')) :
  exists l,
    scrapeAllWithScreenshots w s = (Returns l, s')
    /\ exported = map withoutScreenshotPath l
    /\ map withScreenshotPath exported = l
    /\ Forall (fun p => images p = imagesOf (image p)
                        /\ screenshotPath p = image p) l.
Proof.
  unfold scrapePropertiesWithScreenshots, bind, ret in H.
  destruct (scrapeAllWithScreenshots w s) as [[l|] s1] eqn:E;
    [|discriminate].
  injection H as <- <-. exists l.
  assert (HB : Forall built l).
  { rewrite Forall_forall. intros p Hin. apply (produced_built w s).
    exists l, s1. auto. }
  split; [reflexivity|]. split; [reflexivity|]. split.
  - rewrite map_map. clear E.
    induction HB as [|p l Hp _ IH]; simpl; [reflexivity|].
    rewrite (built_restored p Hp), IH. reflexivity.
  - eapply Forall_impl; [|exact HB]. apply built_images.
Qed.

Lemma export_loses_nothing_witness :
  exists exported s' l,
    scrapePropertiesWithScreenshots mixed initial = (Returns exported, s')
    /\ scrapeAllWithScreenshots mixed initial = (Returns l, s')
    /\ length exported = 4
    /\ map withScreenshotPath exported = l.
Proof.
  destruct (scrapePropertiesWithScreenshots mixed initial)
    as [[exported|] s'] eqn:E; [|vm_compute in E; discriminate].
  destruct (export_loses_nothing mixed initial s' exported E)
    as (l & El & Ex & Er & _).
  exists exported, s', l. split; [reflexivity|]. split; [exact El|].
  split; [|exact Er].
  assert (Ee : exported
               = match fst (scrapePropertiesWithScreenshots mixed initial) with
                 | Returns x => x
                 | Throws => []
                 end) by (rewrite E; reflexivity).
  rewrite Ee. vm_compute. reflexivity.
Defined.

(** *** Screenshot files *)

Lemma path_index (prefix : jsstring) (i j : nat)
    (img img' : option (outcome unit)) (t t' : Z) :
  screenshotPathOf prefix i img t <> [] ->
  screenshotPathOf prefix i img t = screenshotPathOf prefix j img' t' ->
  i = j.
Proof.
  intros Hne E. unfold screenshotPathOf in *.
  destruct img as [[[]|]|]; try contradiction.
  destruct img' as [[[]|]|]; try discriminate.
  apply app_inv_head in E. apply app_inv_head in E.
  change (N_toString (N.of_nat (i + 1)) ++ [dash] ++ Z_toString t ++ lit ".png")
    with (N_toString (N.of_nat (i + 1))
            ++ dash :: (Z_toString t ++ lit ".png")) in E.
  change (N_toString (N.of_nat (j + 1)) ++ [dash] ++ Z_toString t' ++ lit ".png")
    with (N_toString (N.of_nat (j + 1))
            ++ dash :: (Z_toString t' ++ lit ".png")) in E.
  apply head_split in E;
    try (apply all_digits_no_dash, N_toString_digits).
  apply N_toString_inj in E. lia.
Qed.

Lemma path_source (i j : nat) (img img' : option (outcome unit)) (t t' : Z) :
  screenshotPathOf (filePrefix Pararius) i img t <> [] ->
  screenshotPathOf (filePrefix Pararius) i img t
  <> screenshotPathOf (filePrefix Funda) j img' t'.
Proof.
  unfold screenshotPathOf. intros Hne.
  destruct img as [[[]|]|]; try contradiction.
  destruct img' as [[[]|]|]; simpl; discriminate.
Qed.

Lemma recordAt_image (src : Source) (els : list Element) (i : nat)
    (p : Property) :
  recordAt src els i p ->
  exists img t, image p = screenshotPathOf (filePrefix src) i img t.
Proof.
  intros (el & _ & (a & b & c & d & e & f & img & t0 & t & r1 & r2 & r3 & r4
                    & _ & _ & ->)).
  exists img, t0. destruct src; reflexivity.
Qed.

Lemma Forall2_in_r {A B} (R : A -> B -> Prop) (la : list A) (lb : list B)
    (b : B) :
  Forall2 R la lb -> In b lb -> exists a, In a la /\ R a b.
Proof.
  induction 1 as [|a0 b0 la lb Hab _ IH]; simpl; [intros []|].
  intros [<-|Hin].
  - exists a0. auto.
  - destruct (IH Hin) as (a & Ha & Hr). exists a. auto.
Qed.

Lemma nonempty_true (x : jsstring) : nonempty x = true <-> x <> [].
Proof.
  destruct x; simpl; split; intros H; try discriminate; try reflexivity;
    try contradiction.
Qed.

Lemma images_distinct (src : Source) (els : list Element) (idxs : list nat)
    (l : list Property) :
  NoDup idxs ->
  Forall2 (recordAt src els) idxs l ->
  NoDup (filter nonempty (map image l)).
Proof.
  intros Hnd F. induction F as [|i p idxs l Hp F IH]; simpl; [constructor|].
  inversion Hnd as [|? ? Hni Hnd']; subst.
  destruct (nonempty (image p)) eqn:Hne; [|apply IH, Hnd'].
  constructor; [|apply IH, Hnd'].
  intros Hin. apply filter_In in Hin as [Hin _].
  apply in_map_iff in Hin as (q & Eq & Hq).
  destruct (Forall2_in_r _ _ _ _ F Hq) as (j & Hj & Rq).
  destruct (recordAt_image src els i p Hp) as (img & t & Ep).
  destruct (recordAt_image src els j q Rq) as (img' & t' & Eq').
  apply nonempty_true in Hne. rewrite Ep in Hne.
  rewrite Ep, Eq' in Eq. symmetry in Eq.
  apply (path_index _ _ _ _ _ _ _ Hne) in Eq. subst j. contradiction.
Qed.

Lemma loads_dec (src : Source) (w : World) :
  (exists els, loads src w els) \/ (forall els, ~ loads src w els).
Proof.
  destruct src; simpl loads; [unfold parariusLoads|unfold fundaLoads];
    cbv zeta.
  - destruct (setViewportSize (pararius w)) as [[]|];
      [|right; intros els H; decompose [and] H; discriminate].
    destruct (setUserAgent (pararius w)) as [[]|];
      [|right; intros els H; decompose [and] H; discriminate].
    destruct (goto (pararius w)) as [[]|];
      [|right; intros els H; decompose [and] H; discriminate].
    destruct (waitForSelector (pararius w)) as [[]|];
      [|right; intros els H; decompose [and] H; discriminate].
    destruct (listing (pararius w)) as [els|];
      [|right; intros els H; decompose [and] H; discriminate].
    destruct (access (pararius w)) as [[]|];
      [left; exists els; auto 10|].
    destruct (mkdir (pararius w)) as [[]|];
      [left; exists els; auto 10|].
    right. intros els' H. decompose [and or] H; discriminate.
  - destruct (setViewportSize (funda w)) as [[]|];
      [|right; intros els H; decompose [and] H; discriminate].
    destruct (goto (funda w)) as [[]|];
      [|right; intros els H; decompose [and] H; discriminate].
    destruct (waitForSelector (funda w)) as [[]|];
      [|right; intros els H; decompose [and] H; discriminate].
    destruct (listing (funda w)) as [els|];
      [|right; intros els H; decompose [and] H; discriminate].
    destruct (access (funda w)) as [[]|];
      [left; exists els; auto 10|].
    destruct (mkdir (funda w)) as [[]|];
      [left; exists els; auto 10|].
    right. intros els' H. decompose [and or] H; discriminate.
Qed.

(** What the per-source operation returns: nothing, or the records of the
    readable elements of the page that loaded. *)
Lemma scrape_cases (src : Source) (w : World) (s s' : State)
    (l : list Property) :
  scrape src w s = (Returns l, s') ->
  l = []
  \/ exists els,
       loads src w els
       /\ Forall2 (recordAt src els) (readableIndices (cap src) els) l.
Proof.
  intros H.
  destruct (initBrowser_cases w s) as [[s0 Hi]|Hi].
  - destruct (newPage (site src w)) as [[]|] eqn:Hp.
    + destruct (loads_dec src w) as [[els Hl]|Hn].
      * destruct (scrape_records src w s s0 els Hi Hp Hl)
          as (l0 & s0' & E & F & _).
        rewrite E in H. injection H as <- _. right. exists els. auto.
      * destruct (scrape_unloaded src w s s0 Hi Hp Hn) as (s0' & E & _).
        rewrite E in H. injection H as <- _. left. reflexivity.
    + assert (T : fst (scrape src w s) = Throws)
        by (apply scrape_throws_cases; right; exact Hp).
      rewrite H in T. discriminate.
  - assert (T : fst (scrape src w s) = Throws)
      by (apply scrape_throws_cases; left; rewrite Hi; reflexivity).
    rewrite H in T. discriminate.
Qed.

Lemma readableIndices_NoDup (bound : nat) (els : list Element) :
  NoDup (readableIndices bound els).
Proof. unfold readableIndices. apply NoDup_filter, seq_NoDup. Qed.

Lemma scrape_images (src : Source) (w : World) (s s' : State)
    (l : list Property) :
  scrape src w s = (Returns l, s') ->
  NoDup (filter nonempty (map image l))
  /\ Forall (fun p => exists i img t,
                 image p = screenshotPathOf (filePrefix src) i img t) l.
Proof.
  intros H. destruct (scrape_cases src w s s' l H) as [->|(els & _ & F)].
  - split; constructor.
  - split.
    + eapply images_distinct; [apply readableIndices_NoDup|exact F].
    + rewrite Forall_forall. intros p Hin.
      destruct (Forall2_in_r _ _ _ _ F Hin) as (i & _ & R).
      destruct (recordAt_image src els i p R) as (img & t & E).
      exists i, img, t. exact E.
Qed.

Lemma filter_perm {A} (f : A -> bool) (l l' : list A) :
  Permutation l l' -> Permutation (filter f l) (filter f l').
Proof.
  induction 1 as [|x l l' _ IH|x y l|l l' l'' _ IH1 _ IH2]; simpl.
  - constructor.
  - destruct (f x); [constructor|]; exact IH.
  - destruct (f x), (f y); try reflexivity. apply perm_swap.
  - etransitivity; eassumption.
Qed.

(** X13: no two records of a run of [scrapeAllWithScreenshots] share a
    screenshot: among the records whose [image] is not empty, the paths are
    pairwise different, whatever the clock gives, because the file name
    carries the source and the index of the element. *)
Theorem screenshot_paths_distinct (w : World) (s s' : State)
    (l : list Property)
    (H : scrapeAllWithScreenshots w s = (Returns l, s')) :
  NoDup (filter nonempty (map image l)).
Proof.
  destruct (scrapeAll_returned w s s' l H)
    as (s0 & lp & s1 & lf & s2 & _ & Hp & Hf & ->).
  apply (Permutation_NoDup
           (l := filter nonempty (map image (lp ++ lf)))).
  { apply filter_perm, Permutation_map, sort_perm. }
  destruct (scrape_images Pararius w s0 s1 lp Hp) as [Np Fp].
  destruct (scrape_images Funda w s1 s2 lf Hf) as [Nf Ff].
  rewrite map_app, filter_app. apply NoDup_app; [exact Np|exact Nf|].
  intros x Hx Hy.
  apply filter_In in Hx as [Hx Hne]. apply filter_In in Hy as [Hy _].
  apply in_map_iff in Hx as (p & <- & Hpin).
  apply in_map_iff in Hy as (q & Eq & Hqin).
  rewrite Forall_forall in Fp, Ff.
  destruct (Fp p Hpin) as (i & img & t & Ep).
  destruct (Ff q Hqin) as (j & img' & t' & Eq').
  apply nonempty_true in Hne. rewrite Ep in Hne.
  rewrite Ep, Eq' in Eq. symmetry in Eq.
  exact (path_source i j img img' t t' Hne Eq).
Qed.

Lemma screenshot_paths_distinct_witness :
  exists l s',
    scrapeAllWithScreenshots mixed initial = (Returns l, s')
    /\ length (filter nonempty (map image l)) = 2
    /\ NoDup (filter nonempty (map image l)).
Proof.
  eexists. eexists.
  split; [vm_compute; reflexivity|].
  split; [reflexivity|].
  eapply (screenshot_paths_distinct mixed initial). vm_compute. reflexivity.
Defined.

End ExportFacts.

(* ================================================================= *)
(** ** Further properties: prices with two separators, neighbourhoods *)

Module ParsingFacts.
Import ScanFacts ReadingFacts ResourceFacts FieldFacts ExportFacts.

Lemma span_digits (d r : jsstring) :
  all_digits d -> starts_with_digit r = false ->
  takeWhile is_digit (d ++ r) = d /\ dropWhile is_digit (d ++ r) = r.
Proof.
  intros Hd Hr. induction Hd as [|c d Hc _ IH]; simpl.
  - destruct r as [|x r]; [auto|]. simpl in *. rewrite Hr. auto.
  - rewrite Hc. destruct IH as [-> ->]. auto.
Qed.

Lemma digits_start (d r : jsstring) :
  d <> [] -> all_digits d -> starts_with_digit (d ++ r) = true.
Proof.
  intros Hne Hd. destruct d as [|c d]; [contradiction|].
  inversion Hd; subst. assumption.
Qed.

Lemma fromFirstDigit_found (pre d r : jsstring) :
  no_digit pre -> d <> [] -> all_digits d ->
  fromFirstDigit (pre ++ d ++ r) = d ++ r.
Proof.
  intros Hpre Hne Hd. rewrite (fromFirstDigit_skip _ _ Hpre).
  destruct d as [|c d]; [contradiction|]. inversion Hd; subst.
  apply (fromFirstDigit_at c (d ++ r)). assumption.
Qed.

(** The scan of a text whose first two runs of digits are [d1] and [d2],
    with the one character [x] between them. *)
Lemma scanPrice_two_runs (sep x : N) (pre d1 d2 rest : jsstring) :
  no_digit pre -> d1 <> [] -> all_digits d1 -> d2 <> [] -> all_digits d2 ->
  is_digit x = false -> starts_with_digit rest = false ->
  scanPrice sep (pre ++ d1 ++ x :: d2 ++ rest)
  = toNumber (decimal_value (if (x =? sep)%N then d1 ++ d2 else d1)).
Proof.
  intros Hpre H1 D1 H2 D2 Hx Hrest. unfold scanPrice.
  rewrite (fromFirstDigit_found pre d1 _ Hpre H1 D1).
  assert (Hne : exists c t, d1 ++ x :: d2 ++ rest = c :: t).
  { destruct d1 as [|c d1]; [contradiction|]. simpl. eauto. }
  destruct Hne as (c & t & Ect). rewrite Ect. rewrite <- Ect.
  unfold leadingNumber.
  destruct (span_digits d1 (x :: d2 ++ rest) D1 Hx) as [-> ->].
  rewrite (digits_start d2 rest H2 D2).
  destruct (span_digits d2 rest D2 Hrest) as [-> _].
  destruct (x =? sep)%N; reflexivity.
Qed.

(** X14: a price is cut after its second group of digits.  In a text whose
    first two runs of digits are [d1] and [d2], the Pararius parser gives
    the Number value (the nearest double) of the number [d1 d2] when a comma
    stands between them and the Funda parser when a dot does, whatever
    follows the second run ("€1,250,000" is 1250); with the other site's
    separator between them each gives that of [d1] alone. *)
Theorem price_cut_after_second_group (pre d1 d2 rest : jsstring)
    (Hpre : no_digit pre)
    (H1 : d1 <> []) (D1 : all_digits d1)
    (H2 : d2 <> []) (D2 : all_digits d2)
    (Hrest : starts_with_digit rest = false) :
  parariusPrice (Some (pre ++ d1 ++ comma :: d2 ++ rest))
  = toNumber (decimal_value (d1 ++ d2))
  /\ fundaPrice (Some (pre ++ d1 ++ dot :: d2 ++ rest))
     = toNumber (decimal_value (d1 ++ d2))
  /\ parariusPrice (Some (pre ++ d1 ++ dot :: d2 ++ rest))
     = toNumber (decimal_value d1)
  /\ fundaPrice (Some (pre ++ d1 ++ comma :: d2 ++ rest))
     = toNumber (decimal_value d1).
Proof.
  assert (EP : forall s, parariusPrice (Some s) = scanPrice comma s).
  { intros s. apply (parsePrice_scan (Opt (Chr euro)) comma s eq_refl
                       euro_digit_free euro_at_digit). }
  assert (EF : forall s, fundaPrice (Some s) = scanPrice dot s).
  { intros s.
    apply (parsePrice_scan (Seq (Opt (Chr euro)) (Star is_space)) dot s
             eq_refl euro_spaces_digit_free euro_spaces_at_digit). }
  rewrite !EP, !EF.
  rewrite !scanPrice_two_runs by (assumption || reflexivity).
  repeat split; reflexivity.
Qed.

Lemma price_cut_after_second_group_witness :
  parariusPrice (Some (euro :: lit "1,250,000 per month")) = Int 1250
  /\ fundaPrice (Some (lit "Huurprijs " ++ euro :: lit " 1.250.000 p/m"))
     = Int 1250.
Proof.
  assert (D1 : all_digits (lit "1")) by (repeat constructor).
  assert (D2 : all_digits (lit "250")) by (repeat constructor).
  assert (N1 : lit "1" <> []) by discriminate.
  assert (N2 : lit "250" <> []) by discriminate.
  assert (P1 : no_digit [euro]) by (repeat constructor).
  assert (P2 : no_digit (lit "Huurprijs " ++ euro :: lit " "))
    by (repeat constructor).
  split.
  - exact (proj1 (price_cut_after_second_group [euro] (lit "1") (lit "250")
                    (lit ",000 per month") P1 N1 D1 N2 D2 eq_refl)).
  - exact (proj1 (proj2 (price_cut_after_second_group
                           (lit "Huurprijs " ++ euro :: lit " ")
                           (lit "1") (lit "250") (lit ".000 p/m")
                           P2 N1 D1 N2 D2 eq_refl))).
Defined.

(** *** Neighbourhoods *)

Lemma split_first (c : N) (a b : jsstring) :
  ~ In c a -> split c (a ++ c :: b) = a :: split c b.
Proof.
  induction a as [|x a IH]; intros Hin.
  - simpl. rewrite N.eqb_refl. reflexivity.
  - cbn [app split]. destruct (N.eqb_spec x c) as [->|_].
    + exfalso. apply Hin. left. reflexivity.
    + rewrite IH; [reflexivity|]. intros H. apply Hin. right. exact H.
Qed.

Lemma split_none (c : N) (b : jsstring) : ~ In c b -> split c b = [b].
Proof.
  induction b as [|x b IH]; intros Hin; [reflexivity|].
  cbn [split]. destruct (N.eqb_spec x c) as [->|_].
  - exfalso. apply Hin. left. reflexivity.
  - rewrite IH; [reflexivity|]. intros H. apply Hin. right. exact H.
Qed.

(** X15: the [neighborhood] of a Pararius record is the part of the
    location text between its first "(" and the next "(" (or the end),
    without its first ")", spaces included; it is "Centrum" when that part
    is empty and when the text has no "(". *)
Theorem neighborhood_from_parentheses (i : nat)
    (title priceText sizeText roomsText propertyUrl : option jsstring)
    (screenshotPath : jsstring) (now : Z) (r1 r2 r3 r4 : N)
    (a b tail : jsstring)
    (Ha : ~ In lparen a) (Hb : ~ In lparen b)
    (Htail : tail = [] \/ exists t, tail = lparen :: t) :
  neighborhood
    (parariusProperty i title priceText (Some (a ++ lparen :: b ++ tail))
       sizeText roomsText propertyUrl screenshotPath now r1 r2 r3 r4)
  = orElse (Some (replace1 rparen b)) (lit "Centrum")
  /\ neighborhood
       (parariusProperty i title priceText (Some a)
          sizeText roomsText propertyUrl screenshotPath now r1 r2 r3 r4)
     = lit "Centrum".
Proof.
  cbn [neighborhood parariusProperty]. split.
  - rewrite (split_first lparen a (b ++ tail) Ha).
    destruct Htail as [->|(t & ->)].
    + rewrite app_nil_r, (split_none lparen b Hb). reflexivity.
    + rewrite (split_first lparen b t Hb). reflexivity.
  - rewrite (split_none lparen a Ha). reflexivity.
Qed.

Lemma neighborhood_from_parentheses_witness :
  neighborhood
    (parariusProperty 0 None None (Some (lit "9711 Groningen (Centrum) "))
       None None None [] 0 0 0 0 0)
  = lit "Centrum "
  /\ neighborhood
       (parariusProperty 0 None None (Some (lit "9711 Groningen "))
          None None None [] 0 0 0 0 0)
     = lit "Centrum".
Proof.
  assert (Ha : ~ In lparen (lit "9711 Groningen "))
    by (simpl; intuition discriminate).
  assert (Hb : ~ In lparen (lit "Centrum) "))
    by (simpl; intuition discriminate).
  exact (neighborhood_from_parentheses 0 None None None None None []
           0 0 0 0 0 (lit "9711 Groningen ") (lit "Centrum) ") []
           Ha Hb (or_introl eq_refl)).
Defined.

End ParsingFacts.

(* ================================================================= *)
(** ** Further properties: one launch for a run *)

Module LaunchFacts.
Import ScanFacts ReadingFacts ResourceFacts FieldFacts ExportFacts.

Lemma scrapeAll_launches_once_witness :
  launches both_up initial = 1
  /\ launched (snd (scrapeAllWithScreenshots both_up initial)) = 1
  /\ initBrowser both_up started = (Returns tt, started).
Proof.
  destruct (scrapeAll_launches_once both_up initial) as [Hl Hi].
  split; [reflexivity|]. split; [exact Hl|].
  apply (Hi started). reflexivity.
Defined.

End LaunchFacts.

(* ================================================================= *)
(** ** The title of an element without a title element *)

Import ReadingFacts ResourceFacts.




